(** * kubernetes-mcp: the tools of [MCPServer.setup_tools]

    A shallow embedding of [src/kubernetes-mcp/mcp_server.py].  Each tool is a
    Python function whose body talks to the outside world (the Kubernetes
    client, [subprocess], a few file operations) inside [try]/[except]
    blocks.  The embedding keeps that shape:

    - Python values are dynamically typed: [pyval];
    - every call-out is an [extern] step answered by the world, which either
      gives a value back or raises; every step is appended to an event log;
    - [try]/[except], [finally], [return] and [raise] are combinators of a
      small monad whose outcome is "fell through", "returned" or "raised".

    Calls to [logger] are left out: they write to the log stream only. *)

From Stdlib Require Import String Ascii List ZArith Bool Lia.
From Stdlib Require DecimalString.
Import ListNotations.
Local Open Scope list_scope.
Local Open Scope string_scope.

Set Implicit Arguments.
Local Set Warnings "-register-all".

(* ------------------------------------------------------------------ *)
(** ** Python values *)

Inductive pyval : Type :=
| PNone
| PBool (b : bool)
| PInt (z : Z)
| PStr (s : string)
| PList (l : list pyval)
| PDict (d : list (string * pyval))
| PObj (cls : string) (attrs : list (string * pyval)).

(** [type(v).__name__] *)
Definition type_name (v : pyval) : string :=
  match v with
  | PNone => "NoneType"
  | PBool _ => "bool"
  | PInt _ => "int"
  | PStr _ => "str"
  | PList _ => "list"
  | PDict _ => "dict"
  | PObj cls _ => cls
  end.

(** [bool(v)] *)
Definition truthy (v : pyval) : bool :=
  match v with
  | PNone => false
  | PBool b => b
  | PInt z => negb (Z.eqb z 0)
  | PStr s => negb (String.eqb s "")
  | PList l => match l with [] => false | _ => true end
  | PDict d => match d with [] => false | _ => true end
  | PObj _ _ => true
  end.

Definition is_none (v : pyval) : bool :=
  match v with PNone => true | _ => false end.

(** An optional argument ([x: str = None]) as a Python value. *)
Definition of_opt (o : option string) : pyval :=
  match o with Some s => PStr s | None => PNone end.

Definition of_optZ (o : option Z) : pyval :=
  match o with Some z => PInt z | None => PNone end.

Definition of_labels (o : option (list (string * string))) : pyval :=
  match o with
  | Some d => PDict (map (fun kv => (fst kv, PStr (snd kv))) d)
  | None => PNone
  end.

Fixpoint assoc (k : string) (d : list (string * pyval)) : option pyval :=
  match d with
  | [] => None
  | (k', v) :: rest => if String.eqb k k' then Some v else assoc k rest
  end.

(* ------------------------------------------------------------------ *)
(** ** Strings *)

(** [str(n)] for an [int]. *)
Definition str_of_Z (z : Z) : string :=
  DecimalString.NilZero.string_of_int (Z.to_int z).

(** [f"{x}"] for an optional string: [None] prints as [None]. *)
Definition fmt_opt (o : option string) : string :=
  match o with Some s => s | None => "None" end.

(** [s.split(sep)] for a one-character separator. *)
Fixpoint split (sep : ascii) (s : string) : list string :=
  match s with
  | EmptyString => [EmptyString]
  | String c rest =>
      if Ascii.eqb c sep then EmptyString :: split sep rest
      else match split sep rest with
           | h :: t => String c h :: t
           | [] => [String c EmptyString]
           end
  end.

(** [c in s] for a one-character [c]. *)
Fixpoint contains (c : ascii) (s : string) : bool :=
  match s with
  | EmptyString => false
  | String c' rest => Ascii.eqb c c' || contains c rest
  end.

(* ------------------------------------------------------------------ *)
(** ** Exceptions

    The subclasses of [Exception] the code tells apart in its [except]
    clauses, and those the interpreter raises on ill-typed values.  Every
    exception carries the text [str(e)] gives. *)

Inductive Exn : Type :=
| ApiException (status : Z) (reason body msg : string)
| CalledProcessError (stderr msg : string)
| SubprocessError (msg : string)      (* TimeoutExpired and the like *)
| FileNotFoundError (msg : string)
| OSError (msg : string)              (* PermissionError and the like *)
| JSONDecodeError (msg : string)
| ImportError (msg : string)
| ValueError (msg : string)
| TypeError (msg : string)
| AttributeError (msg : string)
| KeyError (msg : string)
| OtherException (msg : string).

(** [str(e)] *)
Definition str (e : Exn) : string :=
  match e with
  | ApiException _ _ _ m => m
  | CalledProcessError _ m => m
  | SubprocessError m | FileNotFoundError m | OSError m | JSONDecodeError m
  | ImportError m | ValueError m | TypeError m | AttributeError m
  | KeyError m | OtherException m => m
  end.

(** [isinstance(e, client.ApiException)] and so on, for the [except] clauses. *)
Definition isApiException (e : Exn) : bool :=
  match e with ApiException _ _ _ _ => true | _ => false end.
Definition isCalledProcessError (e : Exn) : bool :=
  match e with CalledProcessError _ _ => true | _ => false end.
Definition isSubprocessError (e : Exn) : bool :=
  match e with CalledProcessError _ _ | SubprocessError _ => true | _ => false end.
Definition isFileNotFoundError (e : Exn) : bool :=
  match e with FileNotFoundError _ => true | _ => false end.
Definition isJSONDecodeError (e : Exn) : bool :=
  match e with JSONDecodeError _ => true | _ => false end.
Definition isImportError (e : Exn) : bool :=
  match e with ImportError _ => true | _ => false end.

(** [e.status], [e.reason], [e.body] of an [ApiException]; [e.stderr] of a
    [CalledProcessError] (always present, so [hasattr(e, 'stderr')] holds). *)
Definition status (e : Exn) : Z :=
  match e with ApiException s _ _ _ => s | _ => 0%Z end.
Definition reason (e : Exn) : string :=
  match e with ApiException _ r _ _ => r | _ => "" end.
Definition body (e : Exn) : string :=
  match e with ApiException _ _ b _ => b | _ => "" end.
Definition stderr (e : Exn) : string :=
  match e with CalledProcessError s _ => s | _ => "" end.

(* ------------------------------------------------------------------ *)
(** ** Pure dynamic operations: they give a value or raise *)

Inductive res (A : Type) : Type :=
| Ok (a : A)
| Err (e : Exn).
Arguments Ok {A} a.
Arguments Err {A} e.

Definition rbind {A B} (m : res A) (k : A -> res B) : res B :=
  match m with Ok a => k a | Err e => Err e end.

Notation "'let*' x ':=' m 'in' k" := (rbind m (fun x => k))
  (at level 10, x name, m at level 100, k at level 200).

(** [v.name] *)
Definition getattr (v : pyval) (name : string) : res pyval :=
  match v with
  | PObj _ attrs =>
      match assoc name attrs with
      | Some x => Ok x
      | None => Err (AttributeError
                  ("'" ++ type_name v ++ "' object has no attribute '" ++ name ++ "'"))
      end
  | _ => Err (AttributeError
            ("'" ++ type_name v ++ "' object has no attribute '" ++ name ++ "'"))
  end.

(** [iter(v)], as the list of the elements a [for] visits. *)
Definition py_iter (v : pyval) : res (list pyval) :=
  match v with
  | PList l => Ok l
  | PDict d => Ok (map (fun kv => PStr (fst kv)) d)
  | PStr s => Ok (map (fun c => PStr (String c "")) (list_ascii_of_string s))
  | _ => Err (TypeError ("'" ++ type_name v ++ "' object is not iterable"))
  end.

Fixpoint mapM {A B} (f : A -> res B) (l : list A) : res (list B) :=
  match l with
  | [] => Ok []
  | x :: rest =>
      match f x with
      | Ok y => match mapM f rest with Ok ys => Ok (y :: ys) | Err e => Err e end
      | Err e => Err e
      end
  end.

(** [[f(x) for x in v]] *)
Definition comprehension (v : pyval) (f : pyval -> res pyval) : res pyval :=
  match py_iter v with
  | Ok l => match mapM f l with Ok ys => Ok (PList ys) | Err e => Err e end
  | Err e => Err e
  end.

(** [v[-1]] for a truthy [v]. *)
Definition subscript_last (v : pyval) : res pyval :=
  match v with
  | PList l => match rev l with
               | x :: _ => Ok x
               | [] => Err (OtherException "list index out of range")
               end
  | PStr s => match rev (list_ascii_of_string s) with
              | c :: _ => Ok (PStr (String c ""))
              | [] => Err (OtherException "string index out of range")
              end
  | PDict _ => Err (KeyError "-1")
  | _ => Err (TypeError ("'" ++ type_name v ++ "' object is not subscriptable"))
  end.

(** [v[key]] for a string key. *)
Definition subscript (v : pyval) (key : string) : res pyval :=
  match v with
  | PDict d => match assoc key d with
               | Some x => Ok x
               | None => Err (KeyError ("'" ++ key ++ "'"))
               end
  | PStr _ => Err (TypeError "string indices must be integers, not 'str'")
  | PList _ => Err (TypeError "list indices must be integers or slices, not str")
  | _ => Err (TypeError ("'" ++ type_name v ++ "' object is not subscriptable"))
  end.

(** [v.get(key, default)]: a [dict] method. *)
Definition dict_get (v : pyval) (key : string) (default : pyval) : res pyval :=
  match v with
  | PDict d => Ok (match assoc key d with Some x => x | None => default end)
  | _ => Err (AttributeError
            ("'" ++ type_name v ++ "' object has no attribute 'get'"))
  end.

(** [s in l] for a string [s] and a list [l]: equality with a [str] holds
    for that same [str] only. *)
Definition str_in (s : string) (l : pyval) : res bool :=
  match py_iter l with
  | Ok xs => Ok (existsb (fun x => match x with PStr t => String.eqb s t | _ => false end) xs)
  | Err e => Err e
  end.

(** A value used where a [str] is needed ([' '.join(cmd)], [json.loads]). *)
Definition as_str (v : pyval) : res string :=
  match v with
  | PStr s => Ok s
  | _ => Err (TypeError ("expected str instance, " ++ type_name v ++ " found"))
  end.

(** [d.isoformat()]: a [datetime] is an object whose [isoformat] attribute
    holds the text the method gives. *)
Definition isoformat (v : pyval) : res pyval :=
  match getattr v "isoformat" with
  | Ok (PStr s) => Ok (PStr s)
  | Ok x => Err (TypeError ("'" ++ type_name x ++ "' object is not callable"))
  | Err e => Err e
  end.

Fixpoint set_assoc (k : string) (x : pyval) (d : list (string * pyval))
    : list (string * pyval) :=
  match d with
  | [] => [(k, x)]
  | (k', v) :: rest =>
      if String.eqb k k' then (k, x) :: rest else (k', v) :: set_assoc k x rest
  end.

(** [v.name = x], as the updated object. *)
Definition setattr (v : pyval) (name : string) (x : pyval) : res pyval :=
  match v with
  | PObj cls attrs => Ok (PObj cls (set_assoc name x attrs))
  | _ => Err (AttributeError
            ("'" ++ type_name v ++ "' object has no attribute '" ++ name ++ "'"))
  end.

(** [client.V1ServicePort(protocol=.., port=.., target_port=..)]: the client
    model refuses a [port] that is [None]. *)
Definition V1ServicePort (protocol port target_port : pyval) : res pyval :=
  if is_none port
  then Err (ValueError "Invalid value for `port`, must not be `None`")
  else Ok (PObj "V1ServicePort"
             [("protocol", protocol); ("port", port); ("target_port", target_port)]).

(* ------------------------------------------------------------------ *)
(** ** The outside world

    One constructor per kind of call-out.  [Kube api method args kwargs] is
    the method call
    [client.<api>().<method>] on positional [args] and keyword [kwargs]. *)

Inductive Call : Type :=
| ImportKubernetes                     (* from kubernetes import client, config *)
| LoadKubeConfig                       (* config.load_kube_config() *)
| Kube (api method : string) (args : list pyval) (kwargs : list (string * pyval))
| CheckOutput (argv : list string)     (* subprocess.check_output(argv, ...) *)
| SubprocessRun (argv : list string)   (* subprocess.run(argv, ..., check=True) *)
| Popen (argv : list string)           (* subprocess.Popen(argv, ...) *)
| Which (tool : string)                (* shutil.which(tool) *)
| PathExists (path : pyval)            (* os.path.exists(path) *)
| LoadYamlFile (path : string)         (* with open(path, "r") as f: yaml.safe_load(f) *)
| DumpValuesFile (values : pyval)      (* NamedTemporaryFile + yaml.dump; gives f.name *)
| Unlink (path : pyval).               (* os.unlink(path) *)

(** What the world answers: a value, or an exception. *)
Inductive Reply : Type :=
| Ans (v : pyval)
| Throw (e : Exn).

Definition Event : Type := (Call * Reply)%type.

(** A request to the Kubernetes API server. *)
Definition is_api_request (c : Call) : bool :=
  match c with Kube _ _ _ _ => true | _ => false end.

(** An external command line. *)
Definition is_command (c : Call) : bool :=
  match c with CheckOutput _ | SubprocessRun _ | Popen _ => true | _ => false end.

Definition is_throw (ev : Event) : bool :=
  match snd ev with Throw _ => true | Ans _ => false end.

(* ------------------------------------------------------------------ *)
(** ** Control flow of a function body *)

Inductive ctl (A : Type) : Type :=
| Normal (a : A)        (* the statement fell through *)
| Return (v : pyval)    (* a [return] is under way *)
| Raise (e : Exn).      (* an exception is under way *)
Arguments Normal {A} a.
Arguments Return {A} v.
Arguments Raise {A} e.

Section Machine.

(** The world: any state, any deterministic answer to each call. *)
Context {W : Type}.
Variable exec : Call -> W -> Reply * W.

(** Functions of the Python runtime that the tools use and the properties
    below do not look into: [json.loads] ([None] for text that is not
    JSON), [str.strip] and [os.path.expanduser]. *)
Variable json_loads : string -> option pyval.
Variable str_strip : string -> string.
Variable expanduser : string -> string.

(** [log]: every call-out made so far with its answer, oldest first.
    [children]: command lines started with [Popen] and not waited for. *)
Record State : Type := mkState {
  world : W;
  log : list Event;
  children : list (list string)
}.

Definition M (A : Type) : Type := State -> ctl A * State.

Definition ret {A} (a : A) : M A := fun s => (Normal a, s).

Definition bind {A B} (m : M A) (k : A -> M B) : M B :=
  fun s =>
    match m s with
    | (Normal a, s') => k a s'
    | (Return v, s') => (Return v, s')
    | (Raise e, s') => (Raise e, s')
    end.

(** [return v] *)
Definition return_ {A} (v : pyval) : M A := fun s => (Return v, s).

(** [raise e] *)
Definition raise {A} (e : Exn) : M A := fun s => (Raise e, s).

Definition lift {A} (r : res A) : M A :=
  match r with Ok a => ret a | Err e => raise e end.

(** One call-out: ask the world, log the call and its answer. *)
Definition extern (c : Call) : M pyval :=
  fun s =>
    let (r, w') := exec c (world s) in
    let s' := mkState w' (log s ++ [(c, r)])%list (children s) in
    match r with
    | Ans v => (Normal v, s')
    | Throw e => (Raise e, s')
    end.

(** [try: m] followed by [except] clauses: [h e] is the body of the first
    clause that matches [e], [None] when no clause does. *)
Definition try_except {A} (m : M A) (h : Exn -> option (M A)) : M A :=
  fun s =>
    match m s with
    | (Raise e, s') =>
        match h e with
        | Some handler => handler s'
        | None => (Raise e, s')
        end
    | other => other
    end.

(** [try: m finally: f] *)
Definition try_finally {A} (m : M A) (f : M unit) : M A :=
  fun s =>
    let (o, s') := m s in
    match f s' with
    | (Normal _, s'') => (o, s'')
    | (Return v, s'') => (Return v, s'')
    | (Raise e, s'') => (Raise e, s'')
    end.

(** Calling a function whose body is [m]: what it returns ([None] when the
    body falls off its end), or the exception it lets through. *)
Definition call_function (m : M unit) : M pyval :=
  fun s =>
    match m s with
    | (Normal _, s') => (Normal PNone, s')
    | (Return v, s') => (Normal v, s')
    | (Raise e, s') => (Raise e, s')
    end.

Declare Scope M_scope.
Delimit Scope M_scope with M.
Bind Scope M_scope with M.
Notation "x <- m ;; k" := (bind m (fun x => k))
  (at level 61, m at next level, right associativity) : M_scope.
Notation "m ;; k" := (bind m (fun _ => k))
  (at level 61, right associativity) : M_scope.
Local Open Scope M_scope.

(** *** The library calls the tools make *)

Definition import_kubernetes : M pyval := extern ImportKubernetes.
Definition load_kube_config : M pyval := extern LoadKubeConfig.
Definition kube (api method : string) (args : list pyval)
    (kwargs : list (string * pyval)) : M pyval :=
  extern (Kube api method args kwargs).

(** [subprocess.check_output] and [subprocess.run(check=True)] start the
    command and wait for it to end. *)
Definition check_output (argv : list string) : M pyval :=
  extern (CheckOutput argv).
Definition subprocess_run (argv : list string) : M pyval :=
  extern (SubprocessRun argv).

(** [subprocess.Popen] starts the command and gives the process object
    back at once: the command is left running. *)
Definition popen (argv : list string) : M pyval :=
  p <- extern (Popen argv) ;;
  fun s => (Normal p, mkState (world s) (log s) (children s ++ [argv])%list).

(** [json.loads(v)] *)
Definition json_loads_dyn (v : pyval) : res pyval :=
  match v with
  | PStr s => match json_loads s with
              | Some j => Ok j
              | None => Err (JSONDecodeError "Expecting value")
              end
  | _ => Err (TypeError ("the JSON object must be str, bytes or bytearray, not "
                         ++ type_name v))
  end.

(** [v.strip()] *)
Definition strip_dyn (v : pyval) : res pyval :=
  match v with
  | PStr s => Ok (PStr (str_strip s))
  | _ => Err (AttributeError
            ("'" ++ type_name v ++ "' object has no attribute 'strip'"))
  end.

(** *** The envelopes *)

Definition failure (msg : string) : pyval :=
  PDict [("success", PBool false); ("error", PStr msg)].

Definition success (fields : list (string * pyval)) : pyval :=
  PDict (("success", PBool true) :: fields).

(** [except Exception as e: return {"success": False, "error": str(e)}] *)
Definition except_Exception {A} (e : Exn) : option (M A) :=
  Some (return_ (failure (str e))).

(** [e.stderr if hasattr(e, 'stderr') else str(e)] in a handler of
    [CalledProcessError], which always has the attribute. *)
Definition stderr_or_str (e : Exn) : string := stderr e.

(** *** The availability checks (methods of [MCPServer]) *)

Definition _check_tool_availability (tool : string) : M unit :=
  try_except
    (path <- extern (Which tool) ;;
     if is_none path then return_ (PBool false) else
     (if String.eqb tool "kubectl"
      then check_output [tool; "version"; "--client"] ;; ret tt
      else if String.eqb tool "helm"
      then check_output [tool; "version"] ;; ret tt
      else ret tt) ;;
     return_ (PBool true))
    (fun e => if isSubprocessError e || isFileNotFoundError e
              then Some (return_ (PBool false))
              else None).

Definition _check_kubectl_availability : M unit :=
  b <- call_function (_check_tool_availability "kubectl") ;; return_ b.

Definition _check_helm_availability : M unit :=
  b <- call_function (_check_tool_availability "helm") ;; return_ b.

(** *** The tools registered by [setup_tools] *)

Definition get_pods (namespace : option string) : M unit :=
  try_except
    (import_kubernetes ;;
     load_kube_config ;;
     pods <- (if truthy (of_opt namespace)
              then kube "CoreV1Api" "list_namespaced_pod" [of_opt namespace] []
              else kube "CoreV1Api" "list_pod_for_all_namespaces" [] []) ;;
     rows <- lift (let* items := getattr pods "items" in
                   comprehension items (fun pod =>
                     let* m1 := getattr pod "metadata" in
                     let* name := getattr m1 "name" in
                     let* m2 := getattr pod "metadata" in
                     let* ns := getattr m2 "namespace" in
                     let* s1 := getattr pod "status" in
                     let* phase := getattr s1 "phase" in
                     let* s2 := getattr pod "status" in
                     let* ip := getattr s2 "pod_ip" in
                     Ok (PDict [("name", name); ("namespace", ns);
                                ("status", phase); ("ip", ip)]))) ;;
     return_ (success [("pods", rows)]))
    except_Exception.

Definition get_namespaces : M unit :=
  try_except
    (import_kubernetes ;;
     load_kube_config ;;
     namespaces <- kube "CoreV1Api" "list_namespace" [] [] ;;
     rows <- lift (let* items := getattr namespaces "items" in
                   comprehension items (fun ns =>
                     let* m := getattr ns "metadata" in getattr m "name")) ;;
     return_ (success [("namespaces", rows)]))
    except_Exception.

Definition get_services (namespace : option string) : M unit :=
  try_except
    (import_kubernetes ;;
     load_kube_config ;;
     services <- (if truthy (of_opt namespace)
                  then kube "CoreV1Api" "list_namespaced_service" [of_opt namespace] []
                  else kube "CoreV1Api" "list_service_for_all_namespaces" [] []) ;;
     rows <- lift (let* items := getattr services "items" in
                   comprehension items (fun svc =>
                     let* m1 := getattr svc "metadata" in
                     let* name := getattr m1 "name" in
                     let* m2 := getattr svc "metadata" in
                     let* ns := getattr m2 "namespace" in
                     let* s1 := getattr svc "spec" in
                     let* type := getattr s1 "type" in
                     let* s2 := getattr svc "spec" in
                     let* ip := getattr s2 "cluster_ip" in
                     Ok (PDict [("name", name); ("namespace", ns);
                                ("type", type); ("cluster_ip", ip)]))) ;;
     return_ (success [("services", rows)]))
    except_Exception.

(** The dictionary under ["service"] in the result of
    [expose_deployment_with_service], read off [created_service]. *)
Definition service_summary (created_service : pyval) : res pyval :=
  let* m1 := getattr created_service "metadata" in
  let* name := getattr m1 "name" in
  let* m2 := getattr created_service "metadata" in
  let* ns := getattr m2 "namespace" in
  let* s1 := getattr created_service "spec" in
  let* type := getattr s1 "type" in
  let* s2 := getattr created_service "spec" in
  let* ip := getattr s2 "cluster_ip" in
  let* s3 := getattr created_service "spec" in
  let* ps := getattr s3 "ports" in
  let* ports := comprehension ps (fun p =>
    let* a := getattr p "port" in
    let* b := getattr p "target_port" in
    let* c := getattr p "protocol" in
    Ok (PDict [("port", a); ("target_port", b); ("protocol", c)])) in
  let* s4 := getattr created_service "spec" in
  let* selector := getattr s4 "selector" in
  Ok (PDict [("name", name); ("namespace", ns); ("type", type);
             ("cluster_ip", ip); ("ports", ports); ("selector", selector)]).

(** The [service_body] that [expose_deployment_with_service] builds. *)
Definition service_body (deployment_name service_name : option string)
    (target_port : option Z) (protocol : string)
    (service_type namespace : option string) (port selector_labels : pyval)
    : res pyval :=
  let* service_port := V1ServicePort (PStr protocol) port (of_optZ target_port) in
  Ok (PObj "V1Service"
        [("api_version", PStr "v1");
         ("kind", PStr "Service");
         ("metadata", PObj "V1ObjectMeta"
            [("name", of_opt service_name);
             ("namespace", of_opt namespace);
             ("labels", PDict [("app", of_opt deployment_name)])]);
         ("spec", PObj "V1ServiceSpec"
            [("selector", selector_labels);
             ("ports", PList [service_port]);
             ("type", of_opt service_type)])]).

Definition expose_deployment_with_service
    (deployment_name service_name : option string) (target_port : option Z)
    (protocol : string) (service_type namespace : option string)
    (port : option Z) (selector_labels : option (list (string * string)))
    : M unit :=
  try_except
    (import_kubernetes ;;
     load_kube_config ;;
     (* 1. Get the Deployment to extract selector labels if not provided *)
     selector_labels <-
       try_except
         (deployment <- kube "AppsV1Api" "read_namespaced_deployment" []
                          [("name", of_opt deployment_name);
                           ("namespace", of_opt namespace)] ;;
          if is_none (of_labels selector_labels) then
            labels <- lift (let* spec := getattr deployment "spec" in
                            let* selector := getattr spec "selector" in
                            getattr selector "match_labels") ;;
            if negb (truthy labels)
            then raise (ValueError
                   ("No selector labels found for Deployment '"
                    ++ fmt_opt deployment_name
                    ++ "' or provided manually. Cannot create Service."))
            else ret labels
          else ret (of_labels selector_labels))
         (fun e =>
            if isApiException e then
              Some (if Z.eqb (status e) 404
                    then return_ (failure ("Deployment '" ++ fmt_opt deployment_name
                                           ++ "' not found in namespace '"
                                           ++ fmt_opt namespace ++ "'."))
                    else return_ (failure ("Error reading deployment: " ++ str e)))
            else
              Some (return_ (failure ("Failed to determine selector labels: "
                                      ++ str e)))) ;;
     (* If port is not specified, use target_port as the service port *)
     let port := if is_none (of_optZ port) then of_optZ target_port
                 else of_optZ port in
     (* 2. Define the Service object *)
     service_body <- lift (service_body deployment_name service_name target_port
                             protocol service_type namespace port selector_labels) ;;
     (* 3. Create the Service *)
     try_except
       (existing_service <-
          try_except
            (kube "CoreV1Api" "read_namespaced_service" []
               [("name", of_opt service_name); ("namespace", of_opt namespace)])
            (fun e =>
               if isApiException e then
                 Some (if negb (Z.eqb (status e) 404) then raise e else ret PNone)
               else None) ;;
        created_service <-
          (if truthy existing_service
           then kube "CoreV1Api" "patch_namespaced_service" []
                  [("name", of_opt service_name); ("namespace", of_opt namespace);
                   ("body", service_body)]
           else kube "CoreV1Api" "create_namespaced_service" []
                  [("namespace", of_opt namespace); ("body", service_body)]) ;;
        service <- lift (service_summary created_service) ;;
        return_ (success
          [("message", PStr ("Service '" ++ fmt_opt service_name ++ "' of type '"
                             ++ fmt_opt service_type
                             ++ "' created/updated successfully for Deployment '"
                             ++ fmt_opt deployment_name ++ "'."));
           ("service", service)]))
       (fun e =>
          if isApiException e
          then Some (return_ (failure ("Kubernetes API error: " ++ reason e
                                       ++ " - " ++ body e)))
          else Some (return_ (failure (str e)))))
    (fun e =>
       if isImportError e
       then Some (return_ (failure "Kubernetes client library not installed."))
       else Some (return_ (failure (str e)))).

Definition get_nodes : M unit :=
  try_except
    (import_kubernetes ;;
     load_kube_config ;;
     nodes <- kube "CoreV1Api" "list_node" [] [] ;;
     rows <- lift (let* items := getattr nodes "items" in
                   comprehension items (fun node =>
                     let* m := getattr node "metadata" in
                     let* name := getattr m "name" in
                     let* s1 := getattr node "status" in
                     let* conds := getattr s1 "conditions" in
                     let* status :=
                       (if truthy conds
                        then let* s2 := getattr node "status" in
                             let* cs := getattr s2 "conditions" in
                             let* last := subscript_last cs in
                             getattr last "type"
                        else Ok PNone) in
                     let* s3 := getattr node "status" in
                     let* addrs := getattr s3 "addresses" in
                     let* addresses := comprehension addrs (fun addr =>
                                         getattr addr "address") in
                     Ok (PDict [("name", name); ("status", status);
                                ("addresses", addresses)]))) ;;
     return_ (success [("nodes", rows)]))
    except_Exception.

Definition get_configmaps (namespace : option string) : M unit :=
  try_except
    (import_kubernetes ;;
     load_kube_config ;;
     cms <- (if truthy (of_opt namespace)
             then kube "CoreV1Api" "list_namespaced_config_map" [of_opt namespace] []
             else kube "CoreV1Api" "list_config_map_for_all_namespaces" [] []) ;;
     rows <- lift (let* items := getattr cms "items" in
                   comprehension items (fun cm =>
                     let* m1 := getattr cm "metadata" in
                     let* name := getattr m1 "name" in
                     let* m2 := getattr cm "metadata" in
                     let* ns := getattr m2 "namespace" in
                     let* data := getattr cm "data" in
                     Ok (PDict [("name", name); ("namespace", ns);
                                ("data", data)]))) ;;
     return_ (success [("configmaps", rows)]))
    except_Exception.

Definition get_secrets (namespace : option string) : M unit :=
  try_except
    (import_kubernetes ;;
     load_kube_config ;;
     secrets <- (if truthy (of_opt namespace)
                 then kube "CoreV1Api" "list_namespaced_secret" [of_opt namespace] []
                 else kube "CoreV1Api" "list_secret_for_all_namespaces" [] []) ;;
     rows <- lift (let* items := getattr secrets "items" in
                   comprehension items (fun secret =>
                     let* m1 := getattr secret "metadata" in
                     let* name := getattr m1 "name" in
                     let* m2 := getattr secret "metadata" in
                     let* ns := getattr m2 "namespace" in
                     let* type := getattr secret "type" in
                     Ok (PDict [("name", name); ("namespace", ns);
                                ("type", type)]))) ;;
     return_ (success [("secrets", rows)]))
    except_Exception.

(** [if values:] for [values: dict = None] *)
Definition of_values (values : option (list (string * pyval))) : pyval :=
  match values with Some d => PDict d | None => PNone end.

(** The repository step shared by [install_helm_chart] and
    [upgrade_helm_chart]: it gives the chart name to use. *)
Definition helm_repo_step (chart : string) (repo : option string) : M string :=
  if truthy (of_opt repo) then
    try_except
      ((* Add the repository (assumed format: "repo_name=repo_url") *)
       let repo_parts := split "=" (fmt_opt repo) in
       if negb (Nat.eqb (length repo_parts) 2)
       then return_ (failure "Repository format should be 'repo_name=repo_url'")
       else
         let repo_name := nth 0 repo_parts "" in
         let repo_url := nth 1 repo_parts "" in
         check_output ["helm"; "repo"; "add"; repo_name; repo_url] ;;
         (* Update repositories *)
         check_output ["helm"; "repo"; "update"] ;;
         (* Use the chart with repo prefix if needed *)
         if negb (contains "/" chart)
         then ret (repo_name ++ "/" ++ chart)
         else ret chart)
      (fun e =>
         if isCalledProcessError e
         then Some (return_ (failure ("Failed to add Helm repo: " ++ stderr_or_str e)))
         else None)
  else ret chart.

(** The values-file step and the command itself, shared by the two tools.
    [values_file] is [None] until the temporary file has been written, so
    the [finally] clause can only act once [DumpValuesFile] has answered;
    the steps of the [try] block before and after that point are given
    the same [except] clause. *)
Definition helm_run (cmd : list string) (values : option (list (string * pyval)))
    (message : string) (failed : string) : M unit :=
  let handler (e : Exn) : option (M pyval) :=
    if isCalledProcessError e
    then Some (return_ (failure (failed ++ stderr_or_str e)))
    else None in
  values_file <-
    try_except
      (if truthy (of_values values)
       then extern (DumpValuesFile (of_values values))
       else ret PNone)
      handler ;;
  try_finally
    (try_except
       (cmd <- (if truthy (of_values values)
                then f <- lift (as_str values_file) ;; ret (cmd ++ ["-f"; f])%list
                else ret cmd) ;;
        result <- check_output cmd ;;
        return_ (success [("message", PStr message); ("details", result)]))
       handler ;;
     ret tt)
    ((* Clean up the temporary values file *)
     if truthy values_file then
       there <- extern (PathExists values_file) ;;
       if truthy there then extern (Unlink values_file) ;; ret tt else ret tt
     else ret tt).

Definition install_helm_chart (name chart namespace : string)
    (repo : option string) (values : option (list (string * pyval))) : M unit :=
  available <- call_function _check_helm_availability ;;
  if negb (truthy available)
  then return_ (failure "Helm is not available on this system")
  else
  try_except
    ((* Handle repo addition as a separate step if provided *)
     chart <- helm_repo_step chart repo ;;
     (* Prepare the install command *)
     let cmd := ["helm"; "install"; name; chart; "-n"; namespace] in
     (* Create namespace if it doesn't exist *)
     try_except
       (check_output ["kubectl"; "get"; "namespace"; namespace] ;; ret tt)
       (fun e =>
          if isCalledProcessError e then
            Some (try_except
                    (check_output ["kubectl"; "create"; "namespace"; namespace] ;;
                     ret tt)
                    (fun e =>
                       if isCalledProcessError e
                       then Some (return_ (failure ("Failed to create namespace: "
                                                    ++ stderr_or_str e)))
                       else None))
          else None) ;;
     (* Handle values file if provided; execute the install command *)
     helm_run cmd values
       ("Helm chart " ++ chart ++ " installed as " ++ name ++ " in " ++ namespace)
       "Failed to install Helm chart: ")
    (fun e => Some (return_ (failure ("Unexpected error: " ++ str e)))).

Definition upgrade_helm_chart (name chart namespace : string)
    (repo : option string) (values : option (list (string * pyval))) : M unit :=
  available <- call_function _check_helm_availability ;;
  if negb (truthy available)
  then return_ (failure "Helm is not available on this system")
  else
  try_except
    ((* Handle repo addition as a separate step if provided *)
     chart <- helm_repo_step chart repo ;;
     (* Prepare the upgrade command *)
     let cmd := ["helm"; "upgrade"; name; chart; "-n"; namespace] in
     (* Handle values file if provided; execute the upgrade command *)
     helm_run cmd values
       ("Helm release " ++ name ++ " upgraded with chart " ++ chart ++ " in "
        ++ namespace)
       "Failed to upgrade Helm chart: ")
    (fun e => Some (return_ (failure ("Unexpected error: " ++ str e)))).

Definition uninstall_helm_chart (name namespace : string) : M unit :=
  available <- call_function _check_helm_availability ;;
  if negb (truthy available)
  then return_ (failure "Helm is not available on this system")
  else
  try_except
    (let cmd := ["helm"; "uninstall"; name; "-n"; namespace] in
     try_except
       (result <- check_output cmd ;;
        return_ (success
          [("message", PStr ("Helm release " ++ name ++ " uninstalled from "
                             ++ namespace));
           ("details", result)]))
       (fun e =>
          if isCalledProcessError e
          then Some (return_ (failure ("Failed to uninstall Helm chart: "
                                       ++ stderr_or_str e)))
          else None))
    (fun e => Some (return_ (failure ("Unexpected error: " ++ str e)))).

Definition get_rbac_roles (namespace : option string) : M unit :=
  try_except
    (import_kubernetes ;;
     load_kube_config ;;
     roles <- (if truthy (of_opt namespace)
               then kube "RbacAuthorizationV1Api" "list_namespaced_role"
                      [of_opt namespace] []
               else kube "RbacAuthorizationV1Api" "list_role_for_all_namespaces"
                      [] []) ;;
     rows <- lift (let* items := getattr roles "items" in
                   comprehension items (fun role =>
                     let* m := getattr role "metadata" in getattr m "name")) ;;
     return_ (success [("roles", rows)]))
    except_Exception.

Definition get_cluster_roles : M unit :=
  try_except
    (import_kubernetes ;;
     load_kube_config ;;
     roles <- kube "RbacAuthorizationV1Api" "list_cluster_role" [] [] ;;
     rows <- lift (let* items := getattr roles "items" in
                   comprehension items (fun role =>
                     let* m := getattr role "metadata" in getattr m "name")) ;;
     return_ (success [("cluster_roles", rows)]))
    except_Exception.

Definition get_events (namespace : option string) : M unit :=
  try_except
    (import_kubernetes ;;
     load_kube_config ;;
     events <- (if truthy (of_opt namespace)
                then kube "CoreV1Api" "list_namespaced_event" [of_opt namespace] []
                else kube "CoreV1Api" "list_event_for_all_namespaces" [] []) ;;
     rows <- lift (let* items := getattr events "items" in
                   comprehension items (fun event =>
                     let* m1 := getattr event "metadata" in
                     let* name := getattr m1 "name" in
                     let* m2 := getattr event "metadata" in
                     let* ns := getattr m2 "namespace" in
                     let* type := getattr event "type" in
                     let* rsn := getattr event "reason" in
                     let* message := getattr event "message" in
                     Ok (PDict [("name", name); ("namespace", ns); ("type", type);
                                ("reason", rsn); ("message", message)]))) ;;
     return_ (success [("events", rows)]))
    except_Exception.

(** [-n <namespace>] or [--all-namespaces] *)
Definition namespace_args (namespace : option string) : list string :=
  if truthy (of_opt namespace) then ["-n"; fmt_opt namespace]
  else ["--all-namespaces"].

Definition get_resource_usage (namespace : option string) : M unit :=
  available <- call_function _check_kubectl_availability ;;
  if negb (truthy available)
  then return_ (failure "kubectl is not available on this system")
  else
  try_except
    ((* Get pod resource usage *)
     let pod_cmd := (["kubectl"; "top"; "pods"; "--no-headers"]
                     ++ namespace_args namespace ++ ["-o"; "json"])%list in
     (* If the cluster doesn't support JSON output format for top command,
        fall back to parsing text output *)
     pod_data <-
       try_except
         (pod_output <- check_output pod_cmd ;;
          lift (json_loads_dyn pod_output))
         (fun e =>
            if isCalledProcessError e || isJSONDecodeError e then
              Some ((* Fall back to text output and manual parsing *)
                    let pod_cmd := (["kubectl"; "top"; "pods"]
                                    ++ namespace_args namespace)%list in
                    pod_output <- check_output pod_cmd ;;
                    ret (PDict [("text_output", pod_output)]))
            else None) ;;
     (* Get node resource usage *)
     node_data <-
       try_except
         (let node_cmd := ["kubectl"; "top"; "nodes"; "--no-headers"; "-o"; "json"] in
          node_output <- check_output node_cmd ;;
          lift (json_loads_dyn node_output))
         (fun e =>
            if isCalledProcessError e || isJSONDecodeError e then
              Some ((* Fall back to text output *)
                    let node_cmd := ["kubectl"; "top"; "nodes"] in
                    node_output <- check_output node_cmd ;;
                    ret (PDict [("text_output", node_output)]))
            else None) ;;
     return_ (success [("pod_usage", pod_data); ("node_usage", node_data)]))
    (fun e =>
       if isCalledProcessError e
       then Some (return_ (failure ("Failed to get resource usage: "
                                    ++ stderr_or_str e)))
       else Some (return_ (failure ("Unexpected error: " ++ str e)))).

Definition switch_context (context_name : string) : M unit :=
  try_except
    (let cmd := ["kubectl"; "config"; "use-context"; context_name] in
     check_output cmd ;;
     return_ (success [("message", PStr ("Switched context to " ++ context_name))]))
    except_Exception.

Definition connect_to_gke (project_id zone cluster_name : string) : M unit :=
  let kubeconfig_path := expanduser "~/.kube/config" in
  let context_name := "gke_" ++ project_id ++ "_" ++ zone ++ "_" ++ cluster_name in
  try_except
    ((* Check if context already exists *)
     there <- extern (PathExists (PStr kubeconfig_path)) ;;
     (if truthy there then
        kubeconfig <- extern (LoadYamlFile kubeconfig_path) ;;
        present <- lift (let* contexts := dict_get kubeconfig "contexts" (PList []) in
                         let* existing_contexts :=
                           comprehension contexts (fun ctx => subscript ctx "name") in
                         str_in context_name existing_contexts) ;;
        if (present : bool)
        then return_ (success
               [("message", PStr ("Already logged in. Context '" ++ context_name
                                  ++ "' exists in kubeconfig."))])
        else ret tt
      else ret tt) ;;
     let gcloud_cmd := ["gcloud"; "container"; "clusters"; "get-credentials";
                        cluster_name; "--zone=" ++ zone; "--project=" ++ project_id] in
     result <- subprocess_run gcloud_cmd ;;
     stdout <- lift (getattr result "stdout") ;;
     return_ (success
       [("message", PStr ("Kubeconfig updated. Logged into GKE cluster '"
                          ++ cluster_name ++ "'."));
        ("gcloud_output", stdout)]))
    (fun e =>
       if isFileNotFoundError e
       then Some (return_ (failure "gcloud not found. Is Google Cloud SDK installed?"))
       else if isCalledProcessError e
       then Some (return_ (PDict [("success", PBool false);
                                  ("error", PStr (stderr e))]))
       else Some (return_ (failure (str e)))).

Definition get_current_context : M unit :=
  try_except
    (let cmd := ["kubectl"; "config"; "current-context"] in
     out <- check_output cmd ;;
     output <- lift (strip_dyn out) ;;
     return_ (success [("context", output)]))
    except_Exception.

Definition kubectl_explain (resource : string) : M unit :=
  try_except
    (let cmd := ["kubectl"; "explain"; resource] in
     output <- check_output cmd ;;
     return_ (success [("explanation", output)]))
    except_Exception.

Definition get_api_resources : M unit :=
  try_except
    (let cmd := ["kubectl"; "api-resources"] in
     output <- check_output cmd ;;
     return_ (success [("resources", output)]))
    except_Exception.

Definition health_check : M unit :=
  try_except
    (import_kubernetes ;;
     load_kube_config ;;
     kube "CoreV1Api" "get_api_resources" [] [] ;;
     return_ (success [("message", PStr "Cluster API is reachable")]))
    except_Exception.

Definition get_pod_events (pod_name namespace : string) : M unit :=
  try_except
    (import_kubernetes ;;
     load_kube_config ;;
     let field_selector := "involvedObject.name=" ++ pod_name in
     events <- kube "CoreV1Api" "list_namespaced_event" [PStr namespace]
                 [("field_selector", PStr field_selector)] ;;
     rows <- lift (let* items := getattr events "items" in
                   comprehension items (fun event =>
                     let* m := getattr event "metadata" in
                     let* name := getattr m "name" in
                     let* type := getattr event "type" in
                     let* rsn := getattr event "reason" in
                     let* message := getattr event "message" in
                     let* t1 := getattr event "last_timestamp" in
                     let* timestamp :=
                       (if truthy t1
                        then let* t2 := getattr event "last_timestamp" in isoformat t2
                        else Ok PNone) in
                     Ok (PDict [("name", name); ("type", type); ("reason", rsn);
                                ("message", message); ("timestamp", timestamp)]))) ;;
     return_ (success [("events", rows)]))
    except_Exception.

Definition check_pod_health (pod_name namespace : string) : M unit :=
  try_except
    (import_kubernetes ;;
     load_kube_config ;;
     pod <- kube "CoreV1Api" "read_namespaced_pod" [PStr pod_name; PStr namespace] [] ;;
     fields <- lift (let* status := getattr pod "status" in
                     let* phase := getattr status "phase" in
                     let* c1 := getattr status "conditions" in
                     let* conditions :=
                       (if truthy c1
                        then let* c2 := getattr status "conditions" in
                             comprehension c2 (fun c => getattr c "type")
                        else Ok (PList [])) in
                     Ok [("phase", phase); ("conditions", conditions)]) ;;
     return_ (success fields))
    except_Exception.

Definition get_deployments (namespace : option string) : M unit :=
  try_except
    (import_kubernetes ;;
     load_kube_config ;;
     deployments <- (if truthy (of_opt namespace)
                     then kube "AppsV1Api" "list_namespaced_deployment"
                            [of_opt namespace] []
                     else kube "AppsV1Api" "list_deployment_for_all_namespaces"
                            [] []) ;;
     rows <- lift (let* items := getattr deployments "items" in
                   comprehension items (fun d =>
                     let* m1 := getattr d "metadata" in
                     let* name := getattr m1 "name" in
                     let* m2 := getattr d "metadata" in
                     let* ns := getattr m2 "namespace" in
                     let* st := getattr d "status" in
                     let* replicas := getattr st "replicas" in
                     Ok (PDict [("name", name); ("namespace", ns);
                                ("replicas", replicas)]))) ;;
     return_ (success [("deployments", rows)]))
    except_Exception.

(** The [V1Deployment] that [create_deployment] builds. *)
Definition deployment_body (name image : string) (replicas : Z) : pyval :=
  PObj "V1Deployment"
    [("metadata", PObj "V1ObjectMeta" [("name", PStr name)]);
     ("spec", PObj "V1DeploymentSpec"
        [("replicas", PInt replicas);
         ("selector", PObj "V1LabelSelector"
            [("match_labels", PDict [("app", PStr name)])]);
         ("template", PObj "V1PodTemplateSpec"
            [("metadata", PObj "V1ObjectMeta"
                [("labels", PDict [("app", PStr name)])]);
             ("spec", PObj "V1PodSpec"
                [("containers", PList
                    [PObj "V1Container"
                       [("name", PStr name); ("image", PStr image)]])])])])].

Definition create_deployment (name image : string) (replicas : Z)
    (namespace : string) : M unit :=
  try_except
    (import_kubernetes ;;
     load_kube_config ;;
     let deployment := deployment_body name image replicas in
     kube "AppsV1Api" "create_namespaced_deployment" []
       [("body", deployment); ("namespace", PStr namespace)] ;;
     return_ (success
       [("message", PStr ("Deployment " ++ name ++ " created successfully"))]))
    except_Exception.

Definition delete_resource (resource_type name namespace : string) : M unit :=
  try_except
    (import_kubernetes ;;
     load_kube_config ;;
     (if String.eqb resource_type "pod" then
        kube "CoreV1Api" "delete_namespaced_pod" []
          [("name", PStr name); ("namespace", PStr namespace)] ;; ret tt
      else if String.eqb resource_type "deployment" then
        kube "AppsV1Api" "delete_namespaced_deployment" []
          [("name", PStr name); ("namespace", PStr namespace)] ;; ret tt
      else if String.eqb resource_type "service" then
        kube "CoreV1Api" "delete_namespaced_service" []
          [("name", PStr name); ("namespace", PStr namespace)] ;; ret tt
      else
        return_ (failure ("Unsupported resource type: " ++ resource_type))) ;;
     return_ (success
       [("message", PStr (resource_type ++ " " ++ name ++ " deleted successfully"))]))
    except_Exception.

Definition get_logs (pod_name namespace : string) (container : option string)
    (tail : option Z) : M unit :=
  try_except
    (import_kubernetes ;;
     load_kube_config ;;
     logs <- kube "CoreV1Api" "read_namespaced_pod_log" []
               [("name", PStr pod_name); ("namespace", PStr namespace);
                ("container", of_opt container); ("tail_lines", of_optZ tail)] ;;
     return_ (success [("logs", logs)]))
    except_Exception.

Definition port_forward (pod_name : string) (local_port pod_port : Z)
    (namespace : string) : M unit :=
  try_except
    (let cmd := ["kubectl"; "port-forward";
                 "pod/" ++ pod_name;
                 str_of_Z local_port ++ ":" ++ str_of_Z pod_port;
                 "-n"; namespace] in
     process <- popen cmd ;;
     pid <- lift (getattr process "pid") ;;
     return_ (success
       [("message", PStr ("Port forwarding started: localhost:"
                          ++ str_of_Z local_port ++ " -> " ++ pod_name ++ ":"
                          ++ str_of_Z pod_port));
        ("process_pid", pid)]))
    except_Exception.

Definition scale_deployment (name : string) (replicas : Z) (namespace : string)
    : M unit :=
  try_except
    (import_kubernetes ;;
     load_kube_config ;;
     (* Get the deployment *)
     deployment <- kube "AppsV1Api" "read_namespaced_deployment" []
                     [("name", PStr name); ("namespace", PStr namespace)] ;;
     (* Update replicas *)
     deployment <- lift (let* spec := getattr deployment "spec" in
                         let* spec' := setattr spec "replicas" (PInt replicas) in
                         setattr deployment "spec" spec') ;;
     (* Apply the update *)
     kube "AppsV1Api" "patch_namespaced_deployment" []
       [("name", PStr name); ("namespace", PStr namespace); ("body", deployment)] ;;
     return_ (success
       [("message", PStr ("Deployment " ++ name ++ " scaled to "
                          ++ str_of_Z replicas ++ " replicas"))]))
    except_Exception.

(** *** A request to the server: one tool with its arguments *)

Inductive ToolCall : Type :=
| Get_pods (namespace : option string)
| Get_namespaces
| Get_services (namespace : option string)
| Expose_deployment_with_service
    (deployment_name service_name : option string) (target_port : option Z)
    (protocol : string) (service_type namespace : option string)
    (port : option Z) (selector_labels : option (list (string * string)))
| Get_nodes
| Get_configmaps (namespace : option string)
| Get_secrets (namespace : option string)
| Install_helm_chart (name chart namespace : string) (repo : option string)
    (values : option (list (string * pyval)))
| Upgrade_helm_chart (name chart namespace : string) (repo : option string)
    (values : option (list (string * pyval)))
| Uninstall_helm_chart (name namespace : string)
| Get_rbac_roles (namespace : option string)
| Get_cluster_roles
| Get_events (namespace : option string)
| Get_resource_usage (namespace : option string)
| Switch_context (context_name : string)
| Connect_to_gke (project_id zone cluster_name : string)
| Get_current_context
| Kubectl_explain (resource : string)
| Get_api_resources
| Health_check
| Get_pod_events (pod_name namespace : string)
| Check_pod_health (pod_name namespace : string)
| Get_deployments (namespace : option string)
| Create_deployment (name image : string) (replicas : Z) (namespace : string)
| Delete_resource (resource_type name namespace : string)
| Get_logs (pod_name namespace : string) (container : option string)
    (tail : option Z)
| Port_forward (pod_name : string) (local_port pod_port : Z) (namespace : string)
| Scale_deployment (name : string) (replicas : Z) (namespace : string).

Definition tool_body (t : ToolCall) : M unit :=
  match t with
  | Get_pods ns => get_pods ns
  | Get_namespaces => get_namespaces
  | Get_services ns => get_services ns
  | Expose_deployment_with_service d sv tp pr st ns p sel =>
      expose_deployment_with_service d sv tp pr st ns p sel
  | Get_nodes => get_nodes
  | Get_configmaps ns => get_configmaps ns
  | Get_secrets ns => get_secrets ns
  | Install_helm_chart n c ns r v => install_helm_chart n c ns r v
  | Upgrade_helm_chart n c ns r v => upgrade_helm_chart n c ns r v
  | Uninstall_helm_chart n ns => uninstall_helm_chart n ns
  | Get_rbac_roles ns => get_rbac_roles ns
  | Get_cluster_roles => get_cluster_roles
  | Get_events ns => get_events ns
  | Get_resource_usage ns => get_resource_usage ns
  | Switch_context c => switch_context c
  | Connect_to_gke p z c => connect_to_gke p z c
  | Get_current_context => get_current_context
  | Kubectl_explain r => kubectl_explain r
  | Get_api_resources => get_api_resources
  | Health_check => health_check
  | Get_pod_events p ns => get_pod_events p ns
  | Check_pod_health p ns => check_pod_health p ns
  | Get_deployments ns => get_deployments ns
  | Create_deployment n i r ns => create_deployment n i r ns
  | Delete_resource rt n ns => delete_resource rt n ns
  | Get_logs p ns c t => get_logs p ns c t
  | Port_forward p lp pp ns => port_forward p lp pp ns
  | Scale_deployment n r ns => scale_deployment n r ns
  end.

(** Calling a tool from a state of the world. *)
Definition run_tool (t : ToolCall) : M pyval :=
  call_function (tool_body t).

(** The events a run added to the log. *)
Definition new_events (s s' : State) : list Event :=
  skipn (length (log s)) (log s').

End Machine.

(* ------------------------------------------------------------------ *)
(** ** What the statements below speak of *)

(** [d[k]] of a result dictionary. *)
Definition lookup (k : string) (v : pyval) : option pyval :=
  match v with PDict d => assoc k d | _ => None end.

(** The two envelopes: ["success": True], or ["success": False] with an
    ["error"] that holds a message. *)
Definition is_success (d : pyval) : Prop :=
  lookup "success" d = Some (PBool true).

Definition is_failure (d : pyval) : Prop :=
  lookup "success" d = Some (PBool false) /\
  exists msg, lookup "error" d = Some (PStr msg).

(** Requests to the API server and external commands among the events. *)
Definition is_request (ev : Event) : bool :=
  is_api_request (fst ev) || is_command (fst ev).

Definition requests (evs : list Event) : nat :=
  length (filter is_request evs).

(** The most requests a call of each tool makes. *)
Definition request_bound (t : ToolCall) : nat :=
  match t with
  | Expose_deployment_with_service _ _ _ _ _ _ _ _ => 3
  | Install_helm_chart _ _ _ _ _ => 6
  | Upgrade_helm_chart _ _ _ _ _ => 4
  | Uninstall_helm_chart _ _ => 2
  | Get_resource_usage _ => 5
  | Scale_deployment _ _ _ => 2
  | _ => 1
  end.

Definition is_port_forward (t : ToolCall) : bool :=
  match t with Port_forward _ _ _ _ => true | _ => false end.

(** The tools that check for their command-line program before their [try]
    block, and the program they check for. *)
Definition precheck (t : ToolCall) : option string :=
  match t with
  | Install_helm_chart _ _ _ _ _ | Upgrade_helm_chart _ _ _ _ _
  | Uninstall_helm_chart _ _ => Some "helm"
  | Get_resource_usage _ => Some "kubectl"
  | _ => None
  end.

(** The exceptions a tool recovers from and carries on: a 404 when looking
    the Service up, the JSON form of [kubectl top] failing, and
    [kubectl get namespace] failing. *)
Definition recovered (ev : Event) : bool :=
  match ev with
  | (Kube api method _ _, Throw e) =>
      String.eqb api "CoreV1Api" && String.eqb method "read_namespaced_service"
      && isApiException e && Z.eqb (status e) 404
  | (CheckOutput (a :: b :: c :: d :: _), Throw e) =>
      (String.eqb a "kubectl" && String.eqb b "top" && String.eqb d "--no-headers"
       && (isCalledProcessError e || isJSONDecodeError e))
      || (String.eqb a "kubectl" && String.eqb b "get" && String.eqb c "namespace"
          && isCalledProcessError e)
  | _ => false
  end.

Definition unrecovered (ev : Event) : bool :=
  is_throw ev && negb (recovered ev).

(** *** Deleting a resource *)

Definition no_api_request (evs : list Event) : Prop :=
  Forall (fun ev => is_api_request (fst ev) = false) evs.

(** *** Exposing a Deployment *)

(** [deployment.spec.selector.match_labels] *)
Definition match_labels (deployment : pyval) : res pyval :=
  let* spec := getattr deployment "spec" in
  let* selector := getattr spec "selector" in
  getattr selector "match_labels".


(** The body of a request that creates or patches a Service. *)
Definition service_written (ev : Event) : option pyval :=
  match fst ev with
  | Kube api method _ kwargs =>
      if String.eqb api "CoreV1Api"
         && (String.eqb method "create_namespaced_service"
             || String.eqb method "patch_namespaced_service")
      then assoc "body" kwargs
      else None
  | _ => None
  end.

Definition read_deployment (deployment_name namespace : option string) : Call :=
  Kube "AppsV1Api" "read_namespaced_deployment" []
    [("name", of_opt deployment_name); ("namespace", of_opt namespace)].


(** *** Resource usage *)


Section Usage.

Variable json_loads : string -> option pyval.





End Usage.

(** *** Helm *)

Definition get_namespace (namespace : string) : Call :=
  CheckOutput ["kubectl"; "get"; "namespace"; namespace].
Definition create_namespace (namespace : string) : Call :=
  CheckOutput ["kubectl"; "create"; "namespace"; namespace].

(** A [helm <verb> ...] command. *)
Definition is_helm (verb : string) (ev : Event) : bool :=
  match fst ev with
  | CheckOutput (a :: b :: _) => String.eqb a "helm" && String.eqb b verb
  | _ => false
  end.


(** [P seen ev] for every event [ev] of the list, [seen] being the events
    before it. *)
Fixpoint each_after (P : list Event -> Event -> Prop) (seen evs : list Event) : Prop :=
  match evs with
  | [] => True
  | ev :: rest => P seen ev /\ each_after P (seen ++ [ev])%list rest
  end.



(** The chart that a [helm <verb> <name> <chart> ...] command names. *)
Definition chart_passed (verb : string) (ev : Event) : option string :=
  match fst ev with
  | CheckOutput (a :: b :: _ :: c :: _) =>
      if String.eqb a "helm" && String.eqb b verb then Some c else None
  | _ => None
  end.

(** Every [helm <verb>] command names the chart [<repo_name>/<chart>]. *)
Definition prefixed (verb repo_name chart : string) (evs : list Event) : Prop :=
  Forall (fun ev => forall c, chart_passed verb ev = Some c ->
                              c = repo_name ++ "/" ++ chart) evs.

Section Runs.

Context {W : Type}.
Variable exec : Call -> W -> Reply * W.
Variable json_loads : string -> option pyval.
Variable str_strip : string -> string.
Variable expanduser : string -> string.

(** A call starts with an empty log and no command left running. *)
Definition start (w : W) : State := mkState w [] [].

Definition run (t : ToolCall) (w : W) : ctl pyval * State :=
  run_tool exec json_loads str_strip expanduser t (start w).

(** What the tool gives back, the call-outs it made, and the commands it
    left running. *)
Definition result_of (t : ToolCall) (w : W) : ctl pyval := fst (run t w).
Definition events_of (t : ToolCall) (w : W) : list Event := log (snd (run t w)).
Definition left_running (t : ToolCall) (w : W) : list (list string) :=
  children (snd (run t w)).

(** The world the call leaves behind. *)
Definition world_after (t : ToolCall) (w : W) : W := world (snd (run t w)).

(** The availability check of a tool that has one gives its answer. *)
Definition precheck_returns (t : ToolCall) (w : W) : Prop :=
  match precheck t with
  | Some tool =>
      exists b s', call_function (_check_tool_availability exec tool) (start w)
                   = (Normal b, s')
  | None => True
  end.

Definition wp {A} (m : M A) (Q : ctl A -> State (W:=W) -> Prop) (s : State) : Prop :=
  Q (fst (m s)) (snd (m s)).

End Runs.

(** *** Properties of a body, whatever the state it starts from

    They follow the shape of the code: each has one rule per combinator
    further down. *)

(** No unrecovered exception among the events. *)
Definition clean (l : list Event) : Prop := existsb unrecovered l = false.

(** How a body may end after the events [l]: falling through or returning
    ["success": True] only when every exception was recovered from. *)
Definition ends_well {A} (o : ctl A) (l : list Event) : Prop :=
  match o with
  | Normal _ => clean l
  | Return d => is_failure d \/ (is_success d /\ clean l)
  | Raise _ => True
  end.

Section Invariants.

Context {W : Type}.
Implicit Type s : State (W:=W).

(** The body leaves no new command running. *)
Definition keeps {A} (m : M (W:=W) A) : Prop :=
  forall s, children (snd (m s)) = children s.
Definition hkeeps {A} (h : Exn -> option (M (W:=W) A)) : Prop :=
  forall e hm, h e = Some hm -> keeps hm.

(** The body makes at most [n] requests. *)
Definition calls_le {A} (n : nat) (m : M (W:=W) A) : Prop :=
  forall s, requests (log (snd (m s))) <= requests (log s) + n.
Definition hcalls_le {A} (n : nat) (h : Exn -> option (M (W:=W) A)) : Prop :=
  forall e hm, h e = Some hm -> calls_le n hm.

(** The body ends well when it starts from a clean log. *)
Definition good {A} (m : M (W:=W) A) : Prop :=
  forall s, clean (log s) -> ends_well (fst (m s)) (log (snd (m s))).

(** The body only ever returns a failure, or raises. *)
Definition failing {A} (m : M (W:=W) A) : Prop :=
  forall s, match fst (m s) with
            | Normal _ => False
            | Return d => is_failure d
            | Raise _ => True
            end.
Definition hfailing {A} (h : Exn -> option (M (W:=W) A)) : Prop :=
  forall e hm, h e = Some hm -> failing hm.

(** The body never [return]s. *)
Definition no_return {A} (m : M (W:=W) A) : Prop :=
  forall s, match fst (m s) with Return _ => False | _ => True end.

(** The continuation touches neither the world nor the log. *)
Definition pure {A B} (k : A -> M (W:=W) B) : Prop :=
  forall a s, snd (k a s) = s.

(** The body never falls off its end. *)
Definition never_normal {A} (m : M (W:=W) A) : Prop :=
  forall s, match fst (m s) with Normal _ => False | _ => True end.
Definition hnever_normal {A} (h : Exn -> option (M (W:=W) A)) : Prop :=
  forall e hm, h e = Some hm -> never_normal hm.

(** The body always ends in a [return]. *)
Definition returning {A} (m : M (W:=W) A) : Prop :=
  forall s, match fst (m s) with Return _ => True | _ => False end.

Definition returning_at {A} (m : M (W:=W) A) (s : State (W:=W)) : Prop :=
  match fst (m s) with Return _ => True | _ => False end.

(** Some [except] clause matches every exception, and returns. *)
Definition htotal {A} (h : Exn -> option (M (W:=W) A)) : Prop :=
  forall e, match h e with Some hm => returning hm | None => False end.

(** What the availability check may end in. *)
Definition checked (o : ctl unit) (s' : State (W:=W)) : Prop :=
  match o with
  | Return (PBool true) => clean (log s')
  | Return (PBool false) => True
  | Raise _ => True
  | _ => False
  end.

End Invariants.

(** *** A cluster

    The API server as far as [expose_deployment_with_service] talks to it:
    Deployments and Services by namespace and name.  Reading an object that
    is not there raises a 404; creating a Service stores what the server
    accepts it as ([accepted body]) unless one of that name is there (409);
    patching a Service stores the patched object ([patched old body]).  The
    two functions are the server's and are left open. *)

Definition Store : Type := list ((string * string) * pyval).

Fixpoint find_object (key : string * string) (st : Store) : option pyval :=
  match st with
  | [] => None
  | ((ns, n), o) :: rest =>
      if String.eqb ns (fst key) && String.eqb n (snd key) then Some o
      else find_object key rest
  end.

Fixpoint put_object (key : string * string) (o : pyval) (st : Store) : Store :=
  match st with
  | [] => [(key, o)]
  | ((ns, n), o') :: rest =>
      if String.eqb ns (fst key) && String.eqb n (snd key) then (key, o) :: rest
      else ((ns, n), o') :: put_object key o rest
  end.

Record Cluster : Type := mkCluster {
  deployments : Store;
  services : Store
}.

(** The namespace and name a request is about. *)
Definition key_of (namespace name : option pyval) : option (string * string) :=
  match namespace, name with
  | Some (PStr ns), Some (PStr n) => Some (ns, n)
  | _, _ => None
  end.

(** [body.metadata.name] *)
Definition name_of (body : pyval) : option pyval :=
  match (let* m := getattr body "metadata" in getattr m "name") with
  | Ok n => Some n
  | Err _ => None
  end.

Definition not_found : Exn := ApiException 404 "Not Found" "" "(404) Reason: Not Found".
Definition conflict : Exn := ApiException 409 "Conflict" "" "(409) Reason: Conflict".
Definition missing_parameter : Exn := ValueError "Missing the required parameter".

Section ApiServer.

Variable accepted : pyval -> pyval.
Variable patched : pyval -> pyval -> pyval.

Definition api_server (c : Call) (cl : Cluster) : Reply * Cluster :=
  match c with
  | ImportKubernetes => (Ans PNone, cl)
  | LoadKubeConfig => (Ans PNone, cl)
  | Kube api method _ kwargs =>
      if String.eqb api "AppsV1Api" && String.eqb method "read_namespaced_deployment"
      then match key_of (assoc "namespace" kwargs) (assoc "name" kwargs) with
           | Some key => match find_object key (deployments cl) with
                         | Some d => (Ans d, cl)
                         | None => (Throw not_found, cl)
                         end
           | None => (Throw missing_parameter, cl)
           end
      else if String.eqb api "CoreV1Api" && String.eqb method "read_namespaced_service"
      then match key_of (assoc "namespace" kwargs) (assoc "name" kwargs) with
           | Some key => match find_object key (services cl) with
                         | Some o => (Ans o, cl)
                         | None => (Throw not_found, cl)
                         end
           | None => (Throw missing_parameter, cl)
           end
      else if String.eqb api "CoreV1Api" && String.eqb method "create_namespaced_service"
      then match assoc "body" kwargs with
           | Some body =>
               match key_of (assoc "namespace" kwargs) (name_of body) with
               | Some key =>
                   match find_object key (services cl) with
                   | Some _ => (Throw conflict, cl)
                   | None =>
                       (Ans (accepted body),
                        mkCluster (deployments cl)
                          (put_object key (accepted body) (services cl)))
                   end
               | None => (Throw missing_parameter, cl)
               end
           | None => (Throw missing_parameter, cl)
           end
      else if String.eqb api "CoreV1Api" && String.eqb method "patch_namespaced_service"
      then match assoc "body" kwargs with
           | Some body =>
               match key_of (assoc "namespace" kwargs) (assoc "name" kwargs) with
               | Some key =>
                   match find_object key (services cl) with
                   | Some old =>
                       (Ans (patched old body),
                        mkCluster (deployments cl)
                          (put_object key (patched old body) (services cl)))
                   | None => (Throw not_found, cl)
                   end
               | None => (Throw missing_parameter, cl)
               end
           | None => (Throw missing_parameter, cl)
           end
      else (Throw (OtherException "not part of this model"), cl)
  | _ => (Throw (OtherException "not part of this model"), cl)
  end.

(** A Service object the tool can take as existing and report on. *)
Definition presentable (o : pyval) : Prop :=
  truthy o = true /\ exists d, service_summary o = Ok d.

(** What is asked of the server for the body [b]: it hands back objects
    the tool can report on, patching twice with [b] is patching once, and
    patching what [b] was accepted as changes nothing. *)
Record server_fit (b : pyval) : Prop := mkFit {
  accepted_presentable : presentable (accepted b);
  patched_presentable : forall o, presentable o -> presentable (patched o b);
  patched_twice : forall o, patched (patched o b) b = patched o b;
  patched_accepted : patched (accepted b) b = accepted b
}.

End ApiServer.

(** The selector the tool settles on: the labels given, or those of the
    Deployment when they are there. *)
Definition chosen_selector (selector_labels : option (list (string * string)))
    (deployment : pyval) : option pyval :=
  match selector_labels with
  | Some _ => Some (of_labels selector_labels)
  | None => match match_labels deployment with
            | Ok labels => if truthy labels then Some labels else None
            | Err _ => None
            end
  end.

(** The port of the Service: [port], or [target_port] when there is none. *)
Definition chosen_port (port target_port : option Z) : pyval :=
  if is_none (of_optZ port) then of_optZ target_port else of_optZ port.

(** The two requests that write a Service, as the tool makes them. *)
Definition create_service (namespace : string) (body : pyval) : Call :=
  Kube "CoreV1Api" "create_namespaced_service" []
    [("namespace", PStr namespace); ("body", body)].

Definition patch_service (service_name namespace : string) (body : pyval) : Call :=
  Kube "CoreV1Api" "patch_namespaced_service" []
    [("name", PStr service_name); ("namespace", PStr namespace); ("body", body)].

(** The requests among the events that write a Service, in order. *)
Definition writes (evs : list Event) : list Call :=
  map fst (filter (fun ev => match service_written ev with
                             | Some _ => true
                             | None => false
                             end) evs).

(** The Service the cluster holds after the tool has written [b]: what is
    there patched with [b], or [b] as accepted. *)
Definition stored_service (accepted : pyval -> pyval)
    (patched : pyval -> pyval -> pyval) (existing : option pyval) (b : pyval)
    : pyval :=
  match existing with
  | Some o => patched o b
  | None => accepted b
  end.

(** The request by which the tool writes [b]. *)
Definition write_of (existing : option pyval) (service_name namespace : string)
    (b : pyval) : Call :=
  match existing with
  | Some _ => patch_service service_name namespace b
  | None => create_service namespace b
  end.

(** A server to try the tool on: it gives a new Service a cluster IP and
    takes a patch as a replacement of the object. *)
Definition with_cluster_ip (spec : pyval) : pyval :=
  match spec with
  | PObj class fields => PObj class (fields ++ [("cluster_ip", PStr "10.96.0.10")])%list
  | other => other
  end.

Definition accept_with_ip (body : pyval) : pyval :=
  match body with
  | PObj class fields =>
      PObj class (map (fun kv => if String.eqb (fst kv) "spec"
                                 then (fst kv, with_cluster_ip (snd kv))
                                 else kv) fields)
  | other => other
  end.

Definition replaced (old body : pyval) : pyval := accept_with_ip body.

(** A cluster with the Deployment [web] in [default] and no Service. *)
Definition web_deployment : pyval :=
  PObj "V1Deployment"
    [("metadata", PObj "V1ObjectMeta" [("name", PStr "web");
                                       ("namespace", PStr "default")]);
     ("spec", PObj "V1DeploymentSpec"
        [("selector", PObj "V1LabelSelector"
            [("match_labels", PDict [("app", PStr "web")])])])].

Definition web_cluster : Cluster :=
  mkCluster [(("default", "web"), web_deployment)] [].

Definition web_service_body : pyval :=
  PObj "V1Service"
    [("api_version", PStr "v1");
     ("kind", PStr "Service");
     ("metadata", PObj "V1ObjectMeta"
        [("name", PStr "web-svc");
         ("namespace", PStr "default");
         ("labels", PDict [("app", PStr "web")])]);
     ("spec", PObj "V1ServiceSpec"
        [("selector", PDict [("app", PStr "web")]);
         ("ports", PList [PObj "V1ServicePort"
                            [("protocol", PStr "TCP"); ("port", PInt 8080);
                             ("target_port", PInt 8080)]]);
         ("type", PStr "ClusterIP")])].

(** *** Worlds to run the tools in

    [scripted f]: a world without state that answers each call by [f]. *)
Definition scripted (f : Call -> Reply) : Call -> unit -> Reply * unit :=
  fun c _ => (f c, tt).

(** Every call succeeds. *)
Definition all_fine (c : Call) : Reply :=
  match c with
  | Which tool => Ans (PStr ("/usr/local/bin/" ++ tool))
  | Popen _ => Ans (PObj "Popen" [("pid", PInt 4242)])
  | PathExists _ => Ans (PBool false)
  | _ => Ans (PStr "ok")
  end.

(** A cluster whose [kubectl top] has no JSON output: the commands with
    [-o json] exit with an error, every other call succeeds. *)
Definition no_json_top (c : Call) : Reply :=
  match c with
  | CheckOutput argv =>
      if existsb (String.eqb "json") argv
      then Throw (CalledProcessError "error: unknown shorthand flag: 'o' in -o"
                    "Command returned non-zero exit status 1.")
      else Ans (PStr "NAME CPU(cores) MEMORY(bytes)")
  | other => all_fine other
  end.

(** No kubeconfig can be loaded. *)
Definition no_kubeconfig (c : Call) : Reply :=
  match c with
  | LoadKubeConfig => Throw (OtherException "Invalid kube-config file. No configuration found.")
  | other => all_fine other
  end.

(** The runtime functions, for the runs in those worlds. *)
Definition no_json (s : string) : option pyval := None.
Definition same (s : string) : string := s.

(** Calls to try the tools on. *)
Definition usage_of_default : ToolCall := Get_resource_usage (Some "default").

Definition install_nginx : ToolCall :=
  Install_helm_chart "web" "nginx" "apps"
    (Some "bitnami=https://charts.bitnami.com/bitnami") None.

Definition port_forward_web : ToolCall := Port_forward "web-0" 8080 80 "default".

Definition expose_web : ToolCall :=
  Expose_deployment_with_service (Some "web") (Some "web-svc") (Some 8080%Z) "TCP"
    (Some "ClusterIP") (Some "default") None None.

Definition delete_configmap : ToolCall :=
  Delete_resource "configmap" "settings" "default".

Definition install_without_url : ToolCall :=
  Install_helm_chart "web" "nginx" "apps" (Some "bitnami") None.

(* ------------------------------------------------------------------ *)
(** ** More of the server

    What the properties further down speak of: the availability checks,
    the steps of the Helm tools, the listings and the tools that make a
    single request. *)

(** *** Requests and the kubeconfig *)

(** Among the events [pre], the client library was imported and the
    kubeconfig was loaded. *)
Definition configured (pre : list Event) : Prop :=
  (exists v, In (ImportKubernetes, Ans v) pre) /\
  (exists v, In (LoadKubeConfig, Ans v) pre).

(** *** The availability checks *)

(** The command by which [_check_tool_availability] tries a program out:
    one for [kubectl], one for [helm], none for any other. *)
Definition version_command (tool : string) : option (list string) :=
  if String.eqb tool "kubectl" then Some [tool; "version"; "--client"]
  else if String.eqb tool "helm" then Some [tool; "version"]
  else None.

(** The events of a check that found the program and tried it out. *)
Definition found_and_tried (tool : string) (evs : list Event) : Prop :=
  exists path, is_none path = false /\
    match version_command tool with
    | Some argv => exists out, evs = [(Which tool, Ans path); (CheckOutput argv, Ans out)]
    | None => evs = [(Which tool, Ans path)]
    end.

(** What a tool answers when its program is not there. *)
Definition unavailable_message (tool : string) : string :=
  if String.eqb tool "helm" then "Helm is not available on this system"
  else "kubectl is not available on this system".

Section Startup.

Context {W : Type}.
Variable exec : Call -> W -> Reply * W.

(** The loop of [_check_dependencies] over the tools left to check, with
    [all_available] as it stands. *)
Fixpoint check_each (tools : list string) (all_available : bool)
    : M (W:=W) bool :=
  match tools with
  | [] => ret all_available
  | tool :: rest =>
      bind (call_function (_check_tool_availability exec tool))
        (fun available =>
           if negb (truthy available)
           then check_each rest false
           else check_each rest all_available)
  end.

Definition _check_dependencies : M (W:=W) unit :=
  bind (check_each ["kubectl"; "helm"] true)
    (fun all_available => return_ (PBool all_available)).

End Startup.

(** *** Helm: the repository and the values file *)

(** Among the events [pre], the repository was added and the repositories
    were updated. *)
Definition repo_ready (repo_name repo_url : string) (pre : list Event) : Prop :=
  (exists v, In (CheckOutput ["helm"; "repo"; "add"; repo_name; repo_url], Ans v) pre) /\
  (exists v, In (CheckOutput ["helm"; "repo"; "update"], Ans v) pre).

(** A call-out about the temporary values file. *)
Definition about_values_file (c : Call) : bool :=
  match c with
  | DumpValuesFile _ | PathExists _ | Unlink _ => true
  | _ => false
  end.

(** The values file that was written is looked for once the command is
    over, and removed when it is still there. *)
Definition values_file_removed (values : option (list (string * pyval)))
    (evs : list Event) : Prop :=
  forall f, In (DumpValuesFile (of_values values), Ans f) evs -> truthy f = true ->
    exists r, In (PathExists f, r) evs /\
              (forall v, r = Ans v -> truthy v = true ->
                 exists r', In (Unlink f, r') evs).

(** Every [helm <verb>] command of the run ends with [-f <file>] for the
    values file that was written. *)
Definition values_file_passed (verb : string)
    (values : option (list (string * pyval))) (evs : list Event) : Prop :=
  forall f ev argv,
    In (DumpValuesFile (of_values values), Ans (PStr f)) evs ->
    In ev evs -> is_helm verb ev = true -> fst ev = CheckOutput argv ->
    exists front, argv = (front ++ ["-f"; f])%list.

(** What the two tools do about the values: without any, no call-out is
    about a values file; with some, the file is passed and removed. *)
Definition values_handled (verb : string) (values : option (list (string * pyval)))
    (evs : list Event) : Prop :=
  (truthy (of_values values) = false ->
   Forall (fun ev => about_values_file (fst ev) = false) evs) /\
  (forall v r, In (DumpValuesFile v, r) evs -> v = of_values values) /\
  values_file_passed verb values evs /\
  values_file_removed values evs.

(** *** Connecting to GKE *)







Section Gke.

Variable expanduser : string -> string.


End Gke.

(** *** Scaling and deleting *)

(** [deployment.spec.replicas = replicas], as the updated object. *)
Definition with_replicas (deployment : pyval) (replicas : Z) : res pyval :=
  let* spec := getattr deployment "spec" in
  let* spec' := setattr spec "replicas" (PInt replicas) in
  setattr deployment "spec" spec'.

(** [v.spec.<name>] *)
Definition spec_attr (v : pyval) (name : string) : res pyval :=
  let* spec := getattr v "spec" in getattr spec name.

(** [body] is [d] but for [spec.replicas]. *)
Definition same_but_replicas (d body : pyval) : Prop :=
  (forall k, k <> "spec" -> getattr body k = getattr d k) /\
  (forall k, k <> "replicas" -> spec_attr body k = spec_attr d k).

Definition patch_deployment (name namespace : string) (body : pyval) : Call :=
  Kube "AppsV1Api" "patch_namespaced_deployment" []
    [("name", PStr name); ("namespace", PStr namespace); ("body", body)].

(** The request by which [delete_resource] deletes a resource of a type it
    supports. *)
Definition delete_request (resource_type name namespace : string) : option Call :=
  let kwargs := [("name", PStr name); ("namespace", PStr namespace)] in
  if String.eqb resource_type "pod"
  then Some (Kube "CoreV1Api" "delete_namespaced_pod" [] kwargs)
  else if String.eqb resource_type "deployment"
  then Some (Kube "AppsV1Api" "delete_namespaced_deployment" [] kwargs)
  else if String.eqb resource_type "service"
  then Some (Kube "CoreV1Api" "delete_namespaced_service" [] kwargs)
  else None.

(** *** Listings

    The row that each listing tool makes of one item. *)

Definition pod_row (pod : pyval) : res pyval :=
  let* m1 := getattr pod "metadata" in
  let* name := getattr m1 "name" in
  let* m2 := getattr pod "metadata" in
  let* ns := getattr m2 "namespace" in
  let* s1 := getattr pod "status" in
  let* phase := getattr s1 "phase" in
  let* s2 := getattr pod "status" in
  let* ip := getattr s2 "pod_ip" in
  Ok (PDict [("name", name); ("namespace", ns); ("status", phase); ("ip", ip)]).

Definition name_row (item : pyval) : res pyval :=
  let* m := getattr item "metadata" in getattr m "name".

Definition service_row (svc : pyval) : res pyval :=
  let* m1 := getattr svc "metadata" in
  let* name := getattr m1 "name" in
  let* m2 := getattr svc "metadata" in
  let* ns := getattr m2 "namespace" in
  let* s1 := getattr svc "spec" in
  let* type := getattr s1 "type" in
  let* s2 := getattr svc "spec" in
  let* ip := getattr s2 "cluster_ip" in
  Ok (PDict [("name", name); ("namespace", ns); ("type", type); ("cluster_ip", ip)]).

(** [node.status.conditions[-1].type if node.status.conditions else None] *)
Definition node_status (node : pyval) : res pyval :=
  let* s1 := getattr node "status" in
  let* conds := getattr s1 "conditions" in
  if truthy conds
  then let* s2 := getattr node "status" in
       let* cs := getattr s2 "conditions" in
       let* last := subscript_last cs in
       getattr last "type"
  else Ok PNone.

(** [[addr.address for addr in node.status.addresses]] *)
Definition node_addresses (node : pyval) : res pyval :=
  let* s3 := getattr node "status" in
  let* addrs := getattr s3 "addresses" in
  comprehension addrs (fun addr => getattr addr "address").

Definition node_row (node : pyval) : res pyval :=
  let* m := getattr node "metadata" in
  let* name := getattr m "name" in
  let* s1 := getattr node "status" in
  let* conds := getattr s1 "conditions" in
  let* status :=
    (if truthy conds
     then let* s2 := getattr node "status" in
          let* cs := getattr s2 "conditions" in
          let* last := subscript_last cs in
          getattr last "type"
     else Ok PNone) in
  let* s3 := getattr node "status" in
  let* addrs := getattr s3 "addresses" in
  let* addresses := comprehension addrs (fun addr => getattr addr "address") in
  Ok (PDict [("name", name); ("status", status); ("addresses", addresses)]).

Definition configmap_row (cm : pyval) : res pyval :=
  let* m1 := getattr cm "metadata" in
  let* name := getattr m1 "name" in
  let* m2 := getattr cm "metadata" in
  let* ns := getattr m2 "namespace" in
  let* data := getattr cm "data" in
  Ok (PDict [("name", name); ("namespace", ns); ("data", data)]).

Definition secret_row (secret : pyval) : res pyval :=
  let* m1 := getattr secret "metadata" in
  let* name := getattr m1 "name" in
  let* m2 := getattr secret "metadata" in
  let* ns := getattr m2 "namespace" in
  let* type := getattr secret "type" in
  Ok (PDict [("name", name); ("namespace", ns); ("type", type)]).

Definition event_row (event : pyval) : res pyval :=
  let* m1 := getattr event "metadata" in
  let* name := getattr m1 "name" in
  let* m2 := getattr event "metadata" in
  let* ns := getattr m2 "namespace" in
  let* type := getattr event "type" in
  let* rsn := getattr event "reason" in
  let* message := getattr event "message" in
  Ok (PDict [("name", name); ("namespace", ns); ("type", type);
             ("reason", rsn); ("message", message)]).

(** [event.last_timestamp.isoformat() if event.last_timestamp else None] *)
Definition event_timestamp (event : pyval) : res pyval :=
  let* t1 := getattr event "last_timestamp" in
  if truthy t1
  then let* t2 := getattr event "last_timestamp" in isoformat t2
  else Ok PNone.

Definition pod_event_row (event : pyval) : res pyval :=
  let* m := getattr event "metadata" in
  let* name := getattr m "name" in
  let* type := getattr event "type" in
  let* rsn := getattr event "reason" in
  let* message := getattr event "message" in
  let* t1 := getattr event "last_timestamp" in
  let* timestamp :=
    (if truthy t1
     then let* t2 := getattr event "last_timestamp" in isoformat t2
     else Ok PNone) in
  Ok (PDict [("name", name); ("type", type); ("reason", rsn);
             ("message", message); ("timestamp", timestamp)]).

Definition deployment_row (d : pyval) : res pyval :=
  let* m1 := getattr d "metadata" in
  let* name := getattr m1 "name" in
  let* m2 := getattr d "metadata" in
  let* ns := getattr m2 "namespace" in
  let* st := getattr d "status" in
  let* replicas := getattr st "replicas" in
  Ok (PDict [("name", name); ("namespace", ns); ("replicas", replicas)]).

(** The request of a tool that lists in one namespace or in all. *)
Definition list_request (api namespaced everywhere : string)
    (namespace : option string) : Call :=
  if truthy (of_opt namespace)
  then Kube api namespaced [of_opt namespace] []
  else Kube api everywhere [] [].

(** The listing tools: the key of the result, the request, and the row of
    an item. *)
Record Listing : Type := mkListing {
  result_key : string;
  request : Call;
  row : pyval -> res pyval
}.

Definition listing (t : ToolCall) : option Listing :=
  match t with
  | Get_pods ns =>
      Some (mkListing "pods"
              (list_request "CoreV1Api" "list_namespaced_pod"
                 "list_pod_for_all_namespaces" ns) pod_row)
  | Get_namespaces =>
      Some (mkListing "namespaces" (Kube "CoreV1Api" "list_namespace" [] []) name_row)
  | Get_services ns =>
      Some (mkListing "services"
              (list_request "CoreV1Api" "list_namespaced_service"
                 "list_service_for_all_namespaces" ns) service_row)
  | Get_nodes =>
      Some (mkListing "nodes" (Kube "CoreV1Api" "list_node" [] []) node_row)
  | Get_configmaps ns =>
      Some (mkListing "configmaps"
              (list_request "CoreV1Api" "list_namespaced_config_map"
                 "list_config_map_for_all_namespaces" ns) configmap_row)
  | Get_secrets ns =>
      Some (mkListing "secrets"
              (list_request "CoreV1Api" "list_namespaced_secret"
                 "list_secret_for_all_namespaces" ns) secret_row)
  | Get_rbac_roles ns =>
      Some (mkListing "roles"
              (list_request "RbacAuthorizationV1Api" "list_namespaced_role"
                 "list_role_for_all_namespaces" ns) name_row)
  | Get_cluster_roles =>
      Some (mkListing "cluster_roles"
              (Kube "RbacAuthorizationV1Api" "list_cluster_role" [] []) name_row)
  | Get_events ns =>
      Some (mkListing "events"
              (list_request "CoreV1Api" "list_namespaced_event"
                 "list_event_for_all_namespaces" ns) event_row)
  | Get_pod_events pod_name namespace =>
      Some (mkListing "events"
              (Kube "CoreV1Api" "list_namespaced_event" [PStr namespace]
                 [("field_selector", PStr ("involvedObject.name=" ++ pod_name))])
              pod_event_row)
  | Get_deployments ns =>
      Some (mkListing "deployments"
              (list_request "AppsV1Api" "list_namespaced_deployment"
                 "list_deployment_for_all_namespaces" ns) deployment_row)
  | _ => None
  end.

(** The rows of the items of what a list request answered: one for each
    item, in order. *)
Definition rows_of (f : pyval -> res pyval) (answer : pyval) (rows : list pyval)
    : Prop :=
  exists items xs,
    getattr answer "items" = Ok items /\ py_iter items = Ok xs /\
    Forall2 (fun x r => f x = Ok r) xs rows.

(** An item of the answer has no row. *)
Definition row_missing (f : pyval -> res pyval) (answer : pyval) : Prop :=
  exists items xs x e,
    getattr answer "items" = Ok items /\ py_iter items = Ok xs /\
    In x xs /\ f x = Err e.

(** What a listing tool makes of the answer to its request. *)
Definition listed (l : Listing) (o : ctl pyval) (evs : list Event) : Prop :=
  (forall c r, In (c, r) evs -> is_api_request c = true -> c = request l) /\
  (forall answer, In (request l, Ans answer) evs ->
     match (let* items := getattr answer "items" in
            comprehension items (row l)) with
     | Ok rows => o = Normal (success [(result_key l, rows)])
     | Err e => o = Normal (failure (str e))
     end) /\
  (forall d, o = Normal d -> is_success d ->
     exists answer, In (request l, Ans answer) evs).

(** A row of [get_secrets]: the name, the namespace and the type, nothing
    else. *)
Definition names_only (r : pyval) : Prop :=
  exists name ns type,
    r = PDict [("name", name); ("namespace", ns); ("type", type)].

(** The tools that take an optional namespace. *)
Definition namespaced_tools : list (option string -> ToolCall) :=
  [Get_pods; Get_services; Get_configmaps; Get_secrets; Get_rbac_roles;
   Get_events; Get_deployments; Get_resource_usage].

(** [node.status.addresses] *)
Definition addresses_of (node : pyval) : res pyval :=
  let* s := getattr node "status" in getattr s "addresses".

(** [node.status.conditions] *)
Definition conditions_of (node : pyval) : res pyval :=
  let* s := getattr node "status" in getattr s "conditions".

(** The row of a node, by its parts. *)
Definition node_reported (node r : pyval) : Prop :=
  exists name status conds addrs addresses,
    r = PDict [("name", name); ("status", status); ("addresses", addresses)] /\
    name_row node = Ok name /\
    conditions_of node = Ok conds /\
    (if truthy conds
     then exists last, subscript_last conds = Ok last /\ getattr last "type" = Ok status
     else status = PNone) /\
    addresses_of node = Ok addrs /\
    comprehension addrs (fun addr => getattr addr "address") = Ok addresses.

(** *** A pod's health, and creating a Deployment *)

Definition read_pod (pod_name namespace : string) : Call :=
  Kube "CoreV1Api" "read_namespaced_pod" [PStr pod_name; PStr namespace] [].

Definition create_deployment_request (namespace : string) (body : pyval) : Call :=
  Kube "AppsV1Api" "create_namespaced_deployment" []
    [("body", body); ("namespace", PStr namespace)].

(** [body.spec.template.metadata.labels] *)
Definition template_labels (body : pyval) : res pyval :=
  let* spec := getattr body "spec" in
  let* template := getattr spec "template" in
  let* metadata := getattr template "metadata" in
  getattr metadata "labels".

(** [body.spec.template.spec.containers] *)
Definition containers_of (body : pyval) : res pyval :=
  let* spec := getattr body "spec" in
  let* template := getattr spec "template" in
  let* pod_spec := getattr template "spec" in
  getattr pod_spec "containers".

(** Looking for the values file, or removing it. *)
Definition is_cleanup (c : Call) : bool :=
  match c with
  | PathExists _ | Unlink _ => true
  | _ => false
  end.

(** An exception raised while cleaning up is what the tool reports. *)
Definition cleanup_reported (o : ctl pyval) (evs : list Event) : Prop :=
  forall c e, is_cleanup c = true -> In (c, Throw e) evs ->
    o = Normal (failure ("Unexpected error: " ++ str e)).

(** *** More worlds *)

(** No program is found on the PATH. *)
Definition nothing_installed (c : Call) : Reply :=
  match c with
  | Which _ => Ans PNone
  | other => all_fine other
  end.

(** The API method [method] answers [v]; every other call succeeds. *)
Definition kube_answers (method : string) (v : pyval) (c : Call) : Reply :=
  match c with
  | Kube _ m _ _ => if String.eqb m method then Ans v else all_fine c
  | other => all_fine other
  end.

(** The values file cannot be removed. *)
Definition unlink_fails (c : Call) : Reply :=
  match c with
  | DumpValuesFile _ => Ans (PStr "/tmp/tmpab12")
  | PathExists _ => Ans (PBool true)
  | Unlink _ => Throw (OSError "[Errno 13] Permission denied: '/tmp/tmpab12'")
  | other => all_fine other
  end.

Definition a_secret_list : pyval :=
  PObj "V1SecretList"
    [("items", PList
        [PObj "V1Secret"
           [("metadata", PObj "V1ObjectMeta" [("name", PStr "db-password");
                                              ("namespace", PStr "default")]);
            ("type", PStr "Opaque");
            ("data", PDict [("password", PStr "czNjcjN0")])]])].

Definition a_pod : pyval :=
  PObj "V1Pod"
    [("metadata", PObj "V1ObjectMeta" [("name", PStr "web-0");
                                       ("namespace", PStr "default")]);
     ("status", PObj "V1PodStatus"
        [("phase", PStr "Running");
         ("conditions", PList [PObj "V1PodCondition" [("type", PStr "Initialized")];
                               PObj "V1PodCondition" [("type", PStr "Ready")]])])].

Definition install_with_values : ToolCall :=
  Install_helm_chart "web" "nginx" "apps" None (Some [("replicaCount", PInt 2)]).

(** *** What comes next in a run *)

(** [P seen ev rest] for every event [ev] of the list, [seen] being the
    events before it and [rest] those after it. *)
Fixpoint each_at (P : list Event -> Event -> list Event -> Prop)
    (seen evs : list Event) : Prop :=
  match evs with
  | [] => True
  | ev :: rest => P seen ev rest /\ each_at P (seen ++ [ev])%list rest
  end.

(** The event [next] comes right after: it is the head of [post]. *)
Definition followed_by (post : list Event) (P : Event -> Prop) : Prop :=
  exists next post', post = next :: post' /\ P next.

(** *** The Service that follows the labels *)





(** *** The namespace, the check and the values, step by step *)

(** The steps of [install_helm_chart] about the namespace: a check that
    fails is followed at once by the creation; once the namespace is there
    the tool goes on to the values file or to [helm install]; and the check
    itself comes right after the repositories were updated. *)
Definition namespace_step (namespace : string)
    (values : option (list (string * pyval))) (evs : list Event) : Prop :=
  forall pre ev post, evs = (pre ++ ev :: post)%list ->
    (forall e, ev = (get_namespace namespace, Throw e) ->
       isCalledProcessError e = true ->
       followed_by post (fun next => fst next = create_namespace namespace)) /\
    (forall v, ev = (get_namespace namespace, Ans v) \/
               ev = (create_namespace namespace, Ans v) ->
       followed_by post (fun next =>
         if truthy (of_values values)
         then fst next = DumpValuesFile (of_values values)
         else is_helm "install" next = true)) /\
    (forall v, ev = (CheckOutput ["helm"; "repo"; "update"], Ans v) ->
       followed_by post (fun next => fst next = get_namespace namespace)).

(** The events of a check, whole: [which] alone, or [which] that found the
    program and then the command that tries it out. *)
Definition check_events (tool : string) (evs : list Event) : Prop :=
  (exists r, evs = [(Which tool, r)]) \/
  (exists path argv r,
     is_none path = false /\ version_command tool = Some argv /\
     evs = [(Which tool, Ans path); (CheckOutput argv, r)]).

(** What [helm <verb>] is run with: the file of the values when there are
    values, written before and looked for right after; no file
    otherwise. *)
Definition values_used (verb name namespace : string)
    (values : option (list (string * pyval))) (evs : list Event) : Prop :=
  forall pre ev post, evs = (pre ++ ev :: post)%list ->
    (is_helm verb ev = true ->
     exists chart,
       if truthy (of_values values)
       then exists f,
              In (DumpValuesFile (of_values values), Ans (PStr f)) pre /\
              fst ev = CheckOutput ["helm"; verb; name; chart; "-n"; namespace;
                                    "-f"; f] /\
              (f <> "" ->
               followed_by post (fun next => fst next = PathExists (PStr f)))
       else fst ev = CheckOutput ["helm"; verb; name; chart; "-n"; namespace]) /\
    (forall f, ev = (DumpValuesFile (of_values values), Ans (PStr f)) ->
       followed_by post (fun next => is_helm verb next = true)).

(** Once [helm version] has answered (the availability check is passed)
    and there is no repository to add, or once the repositories were
    updated, the run goes on with an event that is [P]. *)
Definition proceeds (repo : option string) (evs : list Event) (P : Event -> Prop)
    : Prop :=
  forall pre ev post, evs = (pre ++ ev :: post)%list ->
    (forall v, ev = (CheckOutput ["helm"; "version"], Ans v) ->
       truthy (of_opt repo) = false -> followed_by post P) /\
    (forall v, ev = (CheckOutput ["helm"; "repo"; "update"], Ans v) ->
       followed_by post P).

(** The values file when there are values, the command itself otherwise. *)
Definition values_or_helm (verb : string) (values : option (list (string * pyval)))
    (next : Event) : Prop :=
  if truthy (of_values values)
  then fst next = DumpValuesFile (of_values values)
  else is_helm verb next = true.



(* ------------------------------------------------------------------ *)
(** ** Reasoning about runs

    [wp m Q s]: running [m] from [s] ends in an outcome and a state that
    satisfy [Q].  One rule per combinator; [run_paths] applies them until
    every path through the body is a goal of its own. *)

Section Reasoning.

Context {W : Type}.
Variable exec : Call -> W -> Reply * W.
Implicit Type s : State (W:=W).

Lemma wp_ret A (a : A) Q s : Q (Normal a) s -> wp (ret a) Q s.
Proof. exact (fun H => H). Qed.

Lemma wp_return A v (Q : ctl A -> State -> Prop) s :
  Q (Return v) s -> wp (return_ v) Q s.
Proof. exact (fun H => H). Qed.

Lemma wp_raise A e (Q : ctl A -> State -> Prop) s :
  Q (Raise e) s -> wp (raise e) Q s.
Proof. exact (fun H => H). Qed.

Lemma wp_bind A B (m : M A) (k : A -> M B) Q s :
  wp m (fun o s' =>
          match o with
          | Normal a => wp (k a) Q s'
          | Return v => Q (Return v) s'
          | Raise e => Q (Raise e) s'
          end) s ->
  wp (bind m k) Q s.
Proof.
  unfold wp, bind. destruct (m s) as [[a|v|e] s']; simpl; auto.
Qed.

Lemma wp_lift A (r : res A) Q s :
  (forall a, r = Ok a -> Q (Normal a) s) ->
  (forall e, r = Err e -> Q (Raise e) s) ->
  wp (lift r) Q s.
Proof.
  intros Hok Herr. destruct r; [apply Hok | apply Herr]; reflexivity.
Qed.

Lemma wp_extern c Q s :
  (forall v w', exec c (world s) = (Ans v, w') ->
     Q (Normal v) (mkState w' (log s ++ [(c, Ans v)]) (children s))) ->
  (forall e w', exec c (world s) = (Throw e, w') ->
     Q (Raise e) (mkState w' (log s ++ [(c, Throw e)]) (children s))) ->
  wp (extern exec c) Q s.
Proof.
  intros Hans Hthrow. unfold wp, extern.
  destruct (exec c (world s)) as [[v|e] w'] eqn:E; simpl; auto.
Qed.

Lemma wp_popen argv Q s :
  (forall v w', exec (Popen argv) (world s) = (Ans v, w') ->
     Q (Normal v) (mkState w' (log s ++ [(Popen argv, Ans v)])
                     (children s ++ [argv]))) ->
  (forall e w', exec (Popen argv) (world s) = (Throw e, w') ->
     Q (Raise e) (mkState w' (log s ++ [(Popen argv, Throw e)]) (children s))) ->
  wp (popen exec argv) Q s.
Proof.
  intros Hans Hthrow. unfold wp, popen, bind, extern.
  destruct (exec (Popen argv) (world s)) as [[v|e] w'] eqn:E; simpl; auto.
Qed.

Lemma wp_try_except A (m : M A) h Q s :
  wp m (fun o s' =>
          match o with
          | Raise e => match h e with
                       | Some handler => wp handler Q s'
                       | None => Q (Raise e) s'
                       end
          | other => Q other s'
          end) s ->
  wp (try_except m h) Q s.
Proof.
  unfold wp, try_except. destruct (m s) as [[a|v|e] s']; simpl; auto.
  destruct (h e); auto.
Qed.

Lemma wp_try_finally A (m : M A) f Q s :
  wp m (fun o s' =>
          wp f (fun o' s'' =>
                  match o' with
                  | Normal _ => Q o s''
                  | Return v => Q (Return v) s''
                  | Raise e => Q (Raise e) s''
                  end) s') s ->
  wp (try_finally m f) Q s.
Proof.
  unfold wp, try_finally. destruct (m s) as [o s']; simpl.
  destruct (f s') as [[a|v|e] s'']; simpl; auto.
Qed.

Lemma wp_call_function (m : M unit) Q s :
  wp m (fun o s' =>
          match o with
          | Normal _ => Q (Normal PNone) s'
          | Return v => Q (Normal v) s'
          | Raise e => Q (Raise e) s'
          end) s ->
  wp (call_function m) Q s.
Proof.
  unfold wp, call_function. destruct (m s) as [[a|v|e] s']; simpl; auto.
Qed.

(** The same when the answer of the world is known. *)
Lemma wp_extern_ans c v w' (Q : ctl pyval -> State -> Prop) s :
  exec c (world s) = (Ans v, w') ->
  Q (Normal v) (mkState w' (log s ++ [(c, Ans v)]) (children s)) ->
  wp (extern exec c) Q s.
Proof. intros E H. unfold wp, extern. rewrite E. exact H. Qed.

Lemma wp_extern_throw c e w' (Q : ctl pyval -> State -> Prop) s :
  exec c (world s) = (Throw e, w') ->
  Q (Raise e) (mkState w' (log s ++ [(c, Throw e)]) (children s)) ->
  wp (extern exec c) Q s.
Proof. intros E H. unfold wp, extern. rewrite E. exact H. Qed.

Lemma wp_lift_ok A (r : res A) a (Q : ctl A -> State -> Prop) s :
  r = Ok a -> Q (Normal a) s -> wp (lift r) Q s.
Proof. intros -> H. exact H. Qed.

Lemma wp_if A (b : bool) (m1 m2 : M A) Q s :
  (b = true -> wp m1 Q s) -> (b = false -> wp m2 Q s) ->
  wp (if b then m1 else m2) Q s.
Proof. destruct b; auto. Qed.

End Reasoning.

Ltac wp_step :=
  lazymatch goal with
  | |- wp (bind _ _) _ _ => apply wp_bind
  | |- wp (ret _) _ _ => apply wp_ret
  | |- wp (return_ _) _ _ => apply wp_return
  | |- wp (raise _) _ _ => apply wp_raise
  | |- wp (lift _) _ _ => apply wp_lift; [intros ? ? | intros ? ?]
  | |- wp (extern _ _) _ _ => apply wp_extern; [intros ? ? ? | intros ? ? ?]
  | |- wp (popen _ _) _ _ => apply wp_popen; [intros ? ? ? | intros ? ? ?]
  | |- wp (try_except _ _) _ _ => apply wp_try_except
  | |- wp (try_finally _ _) _ _ => apply wp_try_finally
  | |- wp (call_function _) _ _ => apply wp_call_function
  | |- wp (if ?b then _ else _) _ _ =>
      let E := fresh "E" in
      apply wp_if; intros E; try solve [cbn in E; discriminate E]
  | |- wp (let _ := _ in _) _ _ => cbv zeta
  | |- match (if ?b then _ else _) with Some _ => _ | None => _ end =>
      let E := fresh "E" in
      destruct b eqn:E; try solve [cbn in E; discriminate E]
  | |- match except_Exception _ with Some _ => _ | None => _ end =>
      unfold except_Exception
  end.

(** Every path through the body, each with the state it ends in. *)
Ltac run_paths :=
  unfold start;
  repeat (wp_step; cbn [world log children app]).

Ltac unfold_tools :=
  unfold run_tool, tool_body,
    get_pods, get_namespaces, get_services, expose_deployment_with_service,
    get_nodes, get_configmaps, get_secrets, install_helm_chart,
    upgrade_helm_chart, uninstall_helm_chart, get_rbac_roles, get_cluster_roles,
    get_events, get_resource_usage, switch_context, connect_to_gke,
    get_current_context, kubectl_explain, get_api_resources, health_check,
    get_pod_events, check_pod_health, get_deployments, create_deployment,
    delete_resource, get_logs, port_forward, scale_deployment,
    helm_repo_step, helm_run,
    _check_helm_availability, _check_kubectl_availability, _check_tool_availability,
    import_kubernetes, load_kube_config, kube, check_output, subprocess_run.

(* ------------------------------------------------------------------ *)
(** ** Rules that follow the shape of a body *)

Lemma requests_app l1 l2 : requests (l1 ++ l2) = requests l1 + requests l2.
Proof. unfold requests. rewrite filter_app, length_app. reflexivity. Qed.

Lemma failure_is_failure msg : is_failure (failure msg).
Proof. split; [reflexivity | exists msg; reflexivity]. Qed.

Lemma success_is_success fields : is_success (success fields).
Proof. reflexivity. Qed.

Lemma clean_snoc_ans l c v : clean l -> clean (l ++ [(c, Ans v)]).
Proof. unfold clean. intros H. rewrite existsb_app, H. reflexivity. Qed.

Lemma clean_snoc_recovered l c e :
  clean l -> recovered (c, Throw e) = true -> clean (l ++ [(c, Throw e)]).
Proof.
  unfold clean. intros H R. rewrite existsb_app, H. simpl.
  unfold unrecovered. rewrite R. reflexivity.
Qed.

Section KeepsRules.

Context {W : Type}.
Variable exec : Call -> W -> Reply * W.
Implicit Type s : State (W:=W).

Lemma keeps_ret A (a : A) : keeps (ret (W:=W) a).
Proof. intros s; reflexivity. Qed.
Lemma keeps_return A v : keeps (return_ (W:=W) (A:=A) v).
Proof. intros s; reflexivity. Qed.
Lemma keeps_raise A e : keeps (raise (W:=W) (A:=A) e).
Proof. intros s; reflexivity. Qed.
Lemma keeps_lift A (r : res A) : keeps (lift (W:=W) r).
Proof. intros s; destruct r; reflexivity. Qed.
Lemma keeps_extern c : keeps (extern exec c).
Proof.
  intros s; unfold extern. destruct (exec c (world s)) as [[v|e] w']; reflexivity.
Qed.
Lemma keeps_bind A B (m : M (W:=W) A) (k : A -> M (W:=W) B) :
  keeps m -> (forall a, keeps (k a)) -> keeps (bind m k).
Proof.
  intros Hm Hk s. unfold bind. specialize (Hm s).
  destruct (m s) as [[a|v|e] s']; simpl in *; auto.
  rewrite Hk. exact Hm.
Qed.
Lemma keeps_if A (b : bool) (m1 m2 : M (W:=W) A) :
  keeps m1 -> keeps m2 -> keeps (if b then m1 else m2).
Proof. destruct b; auto. Qed.
Lemma keeps_try_except A (m : M (W:=W) A) h :
  keeps m -> hkeeps h -> keeps (try_except m h).
Proof.
  intros Hm Hh s. unfold try_except. specialize (Hm s).
  destruct (m s) as [[a|v|e] s']; simpl in *; auto.
  destruct (h e) as [hm|] eqn:E; simpl; auto.
  rewrite (Hh _ _ E). exact Hm.
Qed.
Lemma keeps_try_finally A (m : M (W:=W) A) f :
  keeps m -> keeps f -> keeps (try_finally m f).
Proof.
  intros Hm Hf s. unfold try_finally. specialize (Hm s).
  destruct (m s) as [o s']; simpl in *. specialize (Hf s').
  destruct (f s') as [[a|v|e] s'']; simpl in *; congruence.
Qed.
Lemma keeps_call_function (m : M (W:=W) unit) : keeps m -> keeps (call_function m).
Proof.
  intros Hm s. unfold call_function. specialize (Hm s).
  destruct (m s) as [[a|v|e] s']; simpl in *; auto.
Qed.
Lemma hkeeps_if A (c : Exn -> bool) (h1 h2 : Exn -> option (M (W:=W) A)) :
  hkeeps h1 -> hkeeps h2 -> hkeeps (fun e => if c e then h1 e else h2 e).
Proof. intros H1 H2 e hm. destruct (c e); [apply H1 | apply H2]. Qed.
Lemma hkeeps_some A (f : Exn -> M (W:=W) A) :
  (forall e, keeps (f e)) -> hkeeps (fun e => Some (f e)).
Proof. intros H e hm [= <-]. apply H. Qed.
Lemma hkeeps_none A : hkeeps (fun _ => @None (M (W:=W) A)).
Proof. intros e hm [=]. Qed.

End KeepsRules.

Ltac keeps_step :=
  lazymatch goal with
  | |- keeps (bind _ _) => apply keeps_bind; [ | intros ? ]
  | |- keeps (ret _) => apply keeps_ret
  | |- keeps (return_ _) => apply keeps_return
  | |- keeps (raise _) => apply keeps_raise
  | |- keeps (lift _) => apply keeps_lift
  | |- keeps (extern _ _) => apply keeps_extern
  | |- keeps (kube _ _ _ _ _) => apply keeps_extern
  | |- keeps (try_except _ _) => apply keeps_try_except
  | |- keeps (try_finally _ _) => apply keeps_try_finally
  | |- keeps (call_function _) => apply keeps_call_function
  | |- keeps (if _ then _ else _) => apply keeps_if
  | |- hkeeps (fun e => if _ then _ else _) => apply hkeeps_if
  | |- hkeeps (fun e => Some _) => apply hkeeps_some; intros ?
  | |- hkeeps (fun _ => None) => apply hkeeps_none
  end.

Lemma keeps_check_tool W (exec : Call -> W -> Reply * W) tool :
  keeps (_check_tool_availability exec tool).
Proof. unfold _check_tool_availability, check_output. repeat keeps_step. Qed.

Ltac keeps_solve := repeat first [ apply keeps_check_tool | keeps_step ].

Section CallsRules.

Context {W : Type}.
Variable exec : Call -> W -> Reply * W.
Implicit Type s : State (W:=W).

Lemma calls_ret A (a : A) : calls_le 0 (ret (W:=W) a).
Proof. intros s; simpl; lia. Qed.
Lemma calls_return A v : calls_le 0 (return_ (W:=W) (A:=A) v).
Proof. intros s; simpl; lia. Qed.
Lemma calls_raise A e : calls_le 0 (raise (W:=W) (A:=A) e).
Proof. intros s; simpl; lia. Qed.
Lemma calls_lift A (r : res A) : calls_le 0 (lift (W:=W) r).
Proof. intros s; destruct r; simpl; lia. Qed.
Lemma calls_extern c :
  calls_le (if is_api_request c || is_command c then 1 else 0) (extern exec c).
Proof.
  intros s; unfold extern.
  destruct (exec c (world s)) as [[v|e] w']; simpl; rewrite requests_app;
    unfold requests at 2; simpl; unfold is_request; simpl;
    destruct (is_api_request c || is_command c); simpl; lia.
Qed.
Lemma calls_weaken A n n' (m : M (W:=W) A) : calls_le n m -> n <= n' -> calls_le n' m.
Proof. intros H Hle s. specialize (H s). lia. Qed.
Lemma calls_extern_request c : calls_le 1 (extern exec c).
Proof.
  eapply calls_weaken; [apply calls_extern | destruct (_ || _); lia].
Qed.
Lemma calls_extern_other c :
  is_api_request c || is_command c = false -> calls_le 0 (extern exec c).
Proof. intros E. pose proof (calls_extern c) as H. rewrite E in H. exact H. Qed.
Lemma calls_popen argv : calls_le 1 (popen exec argv).
Proof.
  intros s; unfold popen, bind, extern.
  destruct (exec (Popen argv) (world s)) as [[v|e] w']; simpl; rewrite requests_app;
    unfold requests at 2; simpl; lia.
Qed.
Lemma calls_bind A B n k (m : M (W:=W) A) (f : A -> M (W:=W) B) :
  calls_le n m -> (forall a, calls_le k (f a)) -> calls_le (n + k) (bind m f).
Proof.
  intros Hm Hf s. unfold bind. specialize (Hm s).
  destruct (m s) as [[a|v|e] s']; simpl in *; try lia.
  specialize (Hf a s'). lia.
Qed.
Lemma calls_if A n1 n2 (b : bool) (m1 m2 : M (W:=W) A) :
  calls_le n1 m1 -> calls_le n2 m2 -> calls_le (Nat.max n1 n2) (if b then m1 else m2).
Proof. intros H1 H2 s. destruct b; [specialize (H1 s) | specialize (H2 s)]; lia. Qed.
Lemma calls_try_except A n k (m : M (W:=W) A) h :
  calls_le n m -> hcalls_le k h -> calls_le (n + k) (try_except m h).
Proof.
  intros Hm Hh s. unfold try_except. specialize (Hm s).
  destruct (m s) as [[a|v|e] s']; simpl in *; try lia.
  destruct (h e) as [hm|] eqn:E; simpl; try lia.
  specialize (Hh _ _ E s'). lia.
Qed.
Lemma calls_try_finally A n k (m : M (W:=W) A) f :
  calls_le n m -> calls_le k f -> calls_le (n + k) (try_finally m f).
Proof.
  intros Hm Hf s. unfold try_finally. specialize (Hm s).
  destruct (m s) as [o s']; simpl in *. specialize (Hf s').
  destruct (f s') as [[a|v|e] s'']; simpl in *; lia.
Qed.
Lemma calls_call_function n (m : M (W:=W) unit) : calls_le n m -> calls_le n (call_function m).
Proof.
  intros Hm s. unfold call_function. specialize (Hm s).
  destruct (m s) as [[a|v|e] s']; simpl in *; auto.
Qed.
Lemma hcalls_if A n1 n2 (c : Exn -> bool) (h1 h2 : Exn -> option (M (W:=W) A)) :
  hcalls_le n1 h1 -> hcalls_le n2 h2 ->
  hcalls_le (Nat.max n1 n2) (fun e => if c e then h1 e else h2 e).
Proof.
  intros H1 H2 e hm E s. destruct (c e);
    [specialize (H1 _ _ E s) | specialize (H2 _ _ E s)]; lia.
Qed.
Lemma hcalls_some A n (f : Exn -> M (W:=W) A) :
  (forall e, calls_le n (f e)) -> hcalls_le n (fun e => Some (f e)).
Proof. intros H e hm [= <-]. apply H. Qed.
Lemma hcalls_none A : hcalls_le 0 (fun _ => @None (M (W:=W) A)).
Proof. intros e hm [=]. Qed.
End CallsRules.

Ltac calls_step :=
  lazymatch goal with
  | |- calls_le _ (bind _ _) => eapply calls_bind; [ | intros ? ]
  | |- calls_le _ (ret _) => apply calls_ret
  | |- calls_le _ (return_ _) => apply calls_return
  | |- calls_le _ (raise _) => apply calls_raise
  | |- calls_le _ (lift _) => apply calls_lift
  | |- calls_le _ (extern _ _) =>
      first [ apply calls_extern_other; reflexivity | apply calls_extern_request ]
  | |- calls_le _ (kube _ _ _ _ _) => apply calls_extern_request
  | |- calls_le _ (popen _ _) => apply calls_popen
  | |- calls_le _ (try_except _ _) => eapply calls_try_except
  | |- calls_le _ (try_finally _ _) => eapply calls_try_finally
  | |- calls_le _ (call_function _) => eapply calls_call_function
  | |- calls_le _ (if _ then _ else _) => eapply calls_if
  | |- hcalls_le _ (fun e => if _ then _ else _) => eapply hcalls_if
  | |- hcalls_le _ (fun e => Some _) => eapply hcalls_some; intros ?
  | |- hcalls_le _ (fun _ => None) => apply hcalls_none
  end.

Lemma calls_check_tool W (exec : Call -> W -> Reply * W) tool :
  calls_le 1 (_check_tool_availability exec tool).
Proof.
  eapply calls_weaken.
  - unfold _check_tool_availability, check_output. repeat calls_step.
  - cbn. lia.
Qed.

Ltac calls_solve := repeat first [ apply calls_check_tool | calls_step ].

Section GoodRules.

Context {W : Type}.
Variable exec : Call -> W -> Reply * W.
Implicit Type s : State (W:=W).

Lemma good_ret A (a : A) : good (ret (W:=W) a).
Proof. intros s H; exact H. Qed.
Lemma good_return A d :
  is_failure d \/ is_success d -> good (return_ (W:=W) (A:=A) d).
Proof. intros [H|H] s Hc; simpl; auto. Qed.
Lemma good_raise A e : good (raise (W:=W) (A:=A) e).
Proof. intros s H; exact I. Qed.
Lemma good_lift A (r : res A) : good (lift (W:=W) r).
Proof. intros s H; destruct r; simpl; auto. Qed.
Lemma good_extern c : good (extern exec c).
Proof.
  intros s H; unfold extern.
  destruct (exec c (world s)) as [[v|e] w']; simpl; auto using clean_snoc_ans.
Qed.
Lemma good_popen argv : good (popen exec argv).
Proof.
  intros s H; unfold popen, bind, extern.
  destruct (exec (Popen argv) (world s)) as [[v|e] w']; simpl; auto using clean_snoc_ans.
Qed.
Lemma good_bind A B (m : M (W:=W) A) (k : A -> M (W:=W) B) :
  good m -> (forall a, good (k a)) -> good (bind m k).
Proof.
  intros Hm Hk s Hc. unfold bind. specialize (Hm s Hc).
  destruct (m s) as [[a|v|e] s']; simpl in *; auto.
  apply Hk; exact Hm.
Qed.
Lemma good_if A (b : bool) (m1 m2 : M (W:=W) A) :
  good m1 -> good m2 -> good (if b then m1 else m2).
Proof. destruct b; auto. Qed.
Lemma good_try_except A (m : M (W:=W) A) h :
  good m -> hfailing h -> good (try_except m h).
Proof.
  intros Hm Hh s Hc. unfold try_except. specialize (Hm s Hc).
  destruct (m s) as [[a|v|e] s']; simpl in *; auto.
  destruct (h e) as [hm|] eqn:E; simpl; auto.
  specialize (Hh _ _ E s'). destruct (hm s') as [[a|v|e'] s'']; simpl in *; tauto.
Qed.
Lemma good_try_finally A (m : M (W:=W) A) f :
  good m -> good f -> no_return f -> good (try_finally m f).
Proof.
  intros Hm Hf Hn s Hc. unfold try_finally. specialize (Hm s Hc).
  destruct (m s) as [o s']; simpl in *.
  specialize (Hf s'). specialize (Hn s').
  destruct (f s') as [[a|v|e] s'']; simpl in *; try tauto.
  destruct o as [a'|d|e]; simpl in *; auto.
  destruct Hm as [Hm|[Hs Hm]]; auto.
Qed.

Lemma pure_lift A B (f : A -> res B) : pure (fun a => lift (W:=W) (f a)).
Proof. intros a s. destruct (f a); reflexivity. Qed.
Lemma pure_ret A B (b : B) : pure (fun _ : A => ret (W:=W) b).
Proof. intros a s. reflexivity. Qed.

(** Recovery: the handler carries on after the one call of the [try] block
    has raised an exception of the class [R]. *)
Lemma good_recover A c (k : pyval -> M (W:=W) A) (R : Exn -> bool) (hm : M (W:=W) A) :
  (forall e, R e = true -> recovered (c, Throw e) = true) ->
  pure k -> (forall v, good (k v)) -> good hm ->
  good (try_except (bind (extern exec c) k) (fun e => if R e then Some hm else None)).
Proof.
  intros HR Hp Hk Hhm s Hc. unfold try_except, bind, extern.
  destruct (exec c (world s)) as [[v|e] w'] eqn:E; simpl.
  - set (s1 := mkState w' (log s ++ [(c, Ans v)]) (children s)).
    assert (Hc1 : clean (log s1)) by (apply clean_snoc_ans, Hc).
    specialize (Hp v s1). specialize (Hk v s1 Hc1).
    destruct (k v s1) as [[a|d|e] s2] eqn:Ek; simpl in *; subst s2; auto.
    destruct (R e); simpl; auto.
  - destruct (R e) eqn:ER; simpl; auto.
    apply Hhm. simpl. apply clean_snoc_recovered; auto.
Qed.

(** The Service lookup of [expose_deployment_with_service]: a 404 means
    there is no such Service yet. *)
Lemma good_service_lookup args kwargs :
  good (try_except
          (kube exec "CoreV1Api" "read_namespaced_service" args kwargs)
          (fun e =>
             if isApiException e then
               Some (if negb (Z.eqb (status e) 404) then raise e else ret PNone)
             else None)).
Proof.
  intros s Hc. unfold try_except, kube, extern.
  destruct (exec _ (world s)) as [[v|e] w'] eqn:E; simpl.
  - apply clean_snoc_ans, Hc.
  - destruct (isApiException e) eqn:Ea; simpl; auto.
    destruct (Z.eqb (status e) 404) eqn:Es; simpl; auto.
    apply clean_snoc_recovered; auto.
    simpl. rewrite Ea, Es. reflexivity.
Qed.

Lemma check_tool_cases tool s :
  clean (log s) -> wp (_check_tool_availability exec tool) checked s.
Proof.
  intros Hc. unfold _check_tool_availability, check_output.
  repeat (wp_step; cbn [world log children]);
    unfold checked; cbn [log]; repeat apply clean_snoc_ans; auto.
Qed.

Lemma good_prechecked tool msg (body : M (W:=W) unit) :
  good body ->
  good (bind (call_function
                (bind (call_function (_check_tool_availability exec tool))
                      (fun b => return_ b)))
             (fun available =>
                if negb (truthy available) then return_ (failure msg) else body)).
Proof.
  intros Hb s Hc. pose proof (@check_tool_cases tool s Hc) as H.
  unfold wp, checked in H. unfold bind, call_function.
  destruct (_check_tool_availability exec tool s) as [[a|[| [|] | | | | |]|e] s'];
    simpl in *; try contradiction; auto.
  left. apply failure_is_failure.
Qed.

Lemma failing_return A d : is_failure d -> failing (return_ (W:=W) (A:=A) d).
Proof. intros H s; exact H. Qed.
Lemma failing_raise A e : failing (raise (W:=W) (A:=A) e).
Proof. intros s; exact I. Qed.
Lemma failing_if A (b : bool) (m1 m2 : M (W:=W) A) :
  failing m1 -> failing m2 -> failing (if b then m1 else m2).
Proof. destruct b; auto. Qed.
Lemma hfailing_if A (c : Exn -> bool) (h1 h2 : Exn -> option (M (W:=W) A)) :
  hfailing h1 -> hfailing h2 -> hfailing (fun e => if c e then h1 e else h2 e).
Proof. intros H1 H2 e hm. destruct (c e); [apply H1 | apply H2]. Qed.
Lemma hfailing_some A (f : Exn -> M (W:=W) A) :
  (forall e, failing (f e)) -> hfailing (fun e => Some (f e)).
Proof. intros H e hm [= <-]. apply H. Qed.
Lemma hfailing_none A : hfailing (fun _ => @None (M (W:=W) A)).
Proof. intros e hm [=]. Qed.

Lemma no_return_ret A (a : A) : no_return (ret (W:=W) a).
Proof. intros s; exact I. Qed.
Lemma no_return_extern c : no_return (extern exec c).
Proof. intros s; unfold extern. destruct (exec c (world s)) as [[v|e] w']; exact I. Qed.
Lemma no_return_bind A B (m : M (W:=W) A) (k : A -> M (W:=W) B) :
  no_return m -> (forall a, no_return (k a)) -> no_return (bind m k).
Proof.
  intros Hm Hk s. unfold bind. specialize (Hm s).
  destruct (m s) as [[a|v|e] s']; simpl in *; auto. apply Hk.
Qed.
Lemma no_return_if A (b : bool) (m1 m2 : M (W:=W) A) :
  no_return m1 -> no_return m2 -> no_return (if b then m1 else m2).
Proof. destruct b; auto. Qed.

End GoodRules.

Ltac no_return_step :=
  lazymatch goal with
  | |- no_return (bind _ _) => apply no_return_bind; [ | intros ? ]
  | |- no_return (ret _) => apply no_return_ret
  | |- no_return (extern _ _) => apply no_return_extern
  | |- no_return (if _ then _ else _) => apply no_return_if
  end.

Ltac envelope :=
  first [ apply failure_is_failure
        | apply success_is_success
        | split; [reflexivity | eexists; reflexivity] ].

Ltac good_step :=
  lazymatch goal with
  | |- good (bind (call_function
                     (bind (call_function (_check_tool_availability _ _)) _)) _) =>
      apply good_prechecked
  | |- good (bind _ _) => apply good_bind; [ | intros ? ]
  | |- good (ret _) => apply good_ret
  | |- good (return_ _) =>
      apply good_return; first [ left; envelope | right; envelope ]
  | |- good (raise _) => apply good_raise
  | |- good (lift _) => apply good_lift
  | |- good (extern _ _) => apply good_extern
  | |- good (kube _ _ _ _ _) => apply good_extern
  | |- good (popen _ _) => apply good_popen
  | |- good (try_except (kube _ "CoreV1Api" "read_namespaced_service" _ _) _) =>
      apply good_service_lookup
  | |- good (try_except _ _) =>
      first [ apply good_recover;
              [ intros ? HR; cbn; rewrite HR; reflexivity
              | first [ apply pure_lift | apply pure_ret ]
              | intros ?
              | ]
            | apply good_try_except ]
  | |- good (try_finally _ _) =>
      apply good_try_finally; [ | | repeat no_return_step ]
  | |- good (if _ then _ else _) => apply good_if
  | |- failing (return_ _) => apply failing_return; envelope
  | |- failing (raise _) => apply failing_raise
  | |- failing (if _ then _ else _) => apply failing_if
  | |- hfailing (fun e => if _ then _ else _) => apply hfailing_if
  | |- hfailing (fun e => Some _) => apply hfailing_some; intros ?
  | |- hfailing (fun _ => None) => apply hfailing_none
  end.

Section ReturningRules.

Context {W : Type}.
Variable exec : Call -> W -> Reply * W.
Implicit Type s : State (W:=W).

Lemma never_return A v : never_normal (return_ (W:=W) (A:=A) v).
Proof. intros s; exact I. Qed.
Lemma never_raise A e : never_normal (raise (W:=W) (A:=A) e).
Proof. intros s; exact I. Qed.
Lemma never_bind_r A B (m : M (W:=W) A) (k : A -> M (W:=W) B) :
  (forall a, never_normal (k a)) -> never_normal (bind m k).
Proof.
  intros Hk s. unfold bind. destruct (m s) as [[a|v|e] s']; simpl; auto. apply Hk.
Qed.
Lemma never_bind_l A B (m : M (W:=W) A) (k : A -> M (W:=W) B) :
  never_normal m -> never_normal (bind m k).
Proof.
  intros Hm s. unfold bind. specialize (Hm s).
  destruct (m s) as [[a|v|e] s']; simpl in *; auto. contradiction.
Qed.
Lemma never_if A (b : bool) (m1 m2 : M (W:=W) A) :
  never_normal m1 -> never_normal m2 -> never_normal (if b then m1 else m2).
Proof. destruct b; auto. Qed.
Lemma never_try_except A (m : M (W:=W) A) h :
  never_normal m -> hnever_normal h -> never_normal (try_except m h).
Proof.
  intros Hm Hh s. unfold try_except. specialize (Hm s).
  destruct (m s) as [[a|v|e] s']; simpl in *; auto.
  destruct (h e) as [hm|] eqn:E; simpl; auto. apply (Hh _ _ E).
Qed.
Lemma never_try_finally A (m : M (W:=W) A) f :
  never_normal m -> never_normal (try_finally m f).
Proof.
  intros Hm s. unfold try_finally. specialize (Hm s).
  destruct (m s) as [o s']; simpl in *.
  destruct (f s') as [[a|v|e] s'']; simpl; auto.
Qed.
Lemma hnever_if A (c : Exn -> bool) (h1 h2 : Exn -> option (M (W:=W) A)) :
  hnever_normal h1 -> hnever_normal h2 ->
  hnever_normal (fun e => if c e then h1 e else h2 e).
Proof. intros H1 H2 e hm. destruct (c e); [apply H1 | apply H2]. Qed.
Lemma hnever_some A (f : Exn -> M (W:=W) A) :
  (forall e, never_normal (f e)) -> hnever_normal (fun e => Some (f e)).
Proof. intros H e hm [= <-]. apply H. Qed.
Lemma hnever_none A : hnever_normal (fun _ => @None (M (W:=W) A)).
Proof. intros e hm [=]. Qed.

Lemma returning_return A v : returning (return_ (W:=W) (A:=A) v).
Proof. intros s; exact I. Qed.
Lemma returning_if A (b : bool) (m1 m2 : M (W:=W) A) :
  returning m1 -> returning m2 -> returning (if b then m1 else m2).
Proof. destruct b; auto. Qed.
Lemma htotal_if A (c : Exn -> bool) (h1 h2 : Exn -> option (M (W:=W) A)) :
  htotal h1 -> htotal h2 -> htotal (fun e => if c e then h1 e else h2 e).
Proof. intros H1 H2 e. destruct (c e); [apply H1 | apply H2]. Qed.
Lemma htotal_some A (f : Exn -> M (W:=W) A) :
  (forall e, returning (f e)) -> htotal (fun e => Some (f e)).
Proof. intros H e. apply H. Qed.
Lemma returning_try_except A (m : M (W:=W) A) h :
  never_normal m -> htotal h -> returning (try_except m h).
Proof.
  intros Hm Hh s. unfold try_except. specialize (Hm s).
  destruct (m s) as [[a|v|e] s']; simpl in *; auto.
  specialize (Hh e). destruct (h e) as [hm|]; [apply Hh | contradiction].
Qed.

Lemma returning_here A (m : M (W:=W) A) s : returning m -> returning_at m s.
Proof. intros H; apply H. Qed.

(** A tool with an availability check returns whenever the check gives
    its answer. *)
Lemma returning_prechecked tool msg (body : M (W:=W) unit) s :
  returning body ->
  (exists b s', call_function (_check_tool_availability exec tool) s = (Normal b, s')) ->
  returning_at
    (bind (call_function
             (bind (call_function (_check_tool_availability exec tool))
                   (fun b => return_ b)))
          (fun available =>
             if negb (truthy available) then return_ (failure msg) else body)) s.
Proof.
  intros Hb (b & s' & E). unfold returning_at, bind. unfold call_function at 1.
  unfold bind. rewrite E. simpl.
  destruct (negb (truthy b)); simpl; auto. apply Hb.
Qed.

End ReturningRules.

Ltac never_solve :=
  lazymatch goal with
  | |- never_normal (bind _ _) =>
      first [ apply never_bind_r; intros ?; never_solve
            | apply never_bind_l; never_solve ]
  | |- never_normal (return_ _) => apply never_return
  | |- never_normal (raise _) => apply never_raise
  | |- never_normal (if _ then _ else _) => apply never_if; never_solve
  | |- never_normal (try_except _ _) => apply never_try_except; never_solve
  | |- never_normal (try_finally _ _) => apply never_try_finally; never_solve
  | |- hnever_normal (fun e => if _ then _ else _) => apply hnever_if; never_solve
  | |- hnever_normal (fun e => Some _) => apply hnever_some; intros ?; never_solve
  | |- hnever_normal (fun _ => None) => apply hnever_none
  end.

Ltac returning_solve :=
  lazymatch goal with
  | |- returning (try_except _ _) =>
      apply returning_try_except; [ never_solve | returning_solve ]
  | |- returning (return_ _) => apply returning_return
  | |- returning (if _ then _ else _) => apply returning_if; returning_solve
  | |- htotal (fun e => if _ then _ else _) => apply htotal_if; returning_solve
  | |- htotal (fun e => Some _) => apply htotal_some; intros ?; returning_solve
  end.

(** The tools, down to the combinators; [kube] is kept for the rules that
    look at the method called. *)
Ltac open_tools :=
  unfold tool_body,
    get_pods, get_namespaces, get_services, expose_deployment_with_service,
    get_nodes, get_configmaps, get_secrets, install_helm_chart,
    upgrade_helm_chart, uninstall_helm_chart, get_rbac_roles, get_cluster_roles,
    get_events, get_resource_usage, switch_context, connect_to_gke,
    get_current_context, kubectl_explain, get_api_resources, health_check,
    get_pod_events, check_pod_health, get_deployments, create_deployment,
    delete_resource, get_logs, port_forward, scale_deployment,
    helm_repo_step, helm_run,
    _check_helm_availability, _check_kubectl_availability,
    import_kubernetes, load_kube_config, check_output, subprocess_run,
    except_Exception;
  cbv zeta.

(* ------------------------------------------------------------------ *)
(** ** All tools *)

Section AllTools.

Context {W : Type}.
Variable exec : Call -> W -> Reply * W.
Variable json_loads : string -> option pyval.
Variable str_strip : string -> string.
Variable expanduser : string -> string.

Lemma tools_keep (t : ToolCall) :
  is_port_forward t = false ->
  keeps (tool_body exec json_loads str_strip expanduser t).
Proof.
  destruct t; intros Hpf; try discriminate Hpf; open_tools; keeps_solve.
Qed.

Lemma tools_call (t : ToolCall) :
  calls_le (request_bound t) (tool_body exec json_loads str_strip expanduser t).
Proof.
  destruct t;
    (eapply calls_weaken; [ open_tools; calls_solve | cbn; lia ]).
Qed.

Lemma tools_good (t : ToolCall) :
  good (tool_body exec json_loads str_strip expanduser t).
Proof. destruct t; open_tools; repeat good_step. Qed.

Lemma tools_return (t : ToolCall) (s : State) :
  match precheck t with
  | Some tool =>
      exists b s',
        call_function (_check_tool_availability exec tool) s = (Normal b, s')
  | None => True
  end ->
  returning_at (tool_body exec json_loads str_strip expanduser t) s.
Proof.
  destruct t; cbn [precheck]; intros Hp; open_tools;
    first [ apply returning_prechecked; [ returning_solve | exact Hp ]
          | apply returning_here; returning_solve ].
Qed.

(** C1 (as amended).  Whenever the availability check of a tool that has
    one gives its answer, the tool lets no exception through: it returns a
    dictionary whose ["success"] is [True], or is [False] next to an
    ["error"] message; and it is the latter as soon as one call-out of the
    run raised an exception that is not one the tool recovers from (a 404
    on the Service lookup, the JSON form of [kubectl top] failing,
    [kubectl get namespace] failing). *)
Theorem exceptions_become_failures (t : ToolCall) (w : W) :
  precheck_returns exec t w ->
  exists d,
    result_of exec json_loads str_strip expanduser t w = Normal d /\
    (is_success d \/ is_failure d) /\
    (existsb unrecovered (events_of exec json_loads str_strip expanduser t w) = true ->
     is_failure d).
Proof.
  intros Hp.
  pose proof (@tools_return t (start w) Hp) as Hr.
  pose proof (@tools_good t (start w) eq_refl) as Hg.
  unfold result_of, events_of, run, run_tool, call_function, returning_at in *.
  destruct (tool_body exec json_loads str_strip expanduser t (start w))
    as [[a|d|e] s']; simpl in *; try contradiction.
  exists d. split; [reflexivity|].
  destruct Hg as [Hf|[Hs Hc]].
  - split; [right; exact Hf | intros _; exact Hf].
  - split; [left; exact Hs | unfold clean in Hc; congruence].
Qed.

(** C2 (as amended).  A call of a tool makes at most one request (a
    request to the API server or an external command), except that
    [expose_deployment_with_service] makes up to three,
    [scale_deployment] and [uninstall_helm_chart] up to two,
    [upgrade_helm_chart] up to four, [get_resource_usage] up to five and
    [install_helm_chart] up to six. *)
Theorem requests_bounded (t : ToolCall) (w : W) :
  requests (events_of exec json_loads str_strip expanduser t w) <= request_bound t.
Proof.
  pose proof (@tools_call t (start w)) as H.
  unfold events_of, run, run_tool, call_function.
  destruct (tool_body exec json_loads str_strip expanduser t (start w))
    as [[a|d|e] s']; simpl in *; exact H.
Qed.

(** C6 (as amended).  Every tool other than [port_forward] has waited for
    each command it started by the time it returns: none is left
    running. *)
Theorem tools_wait_for_their_commands (t : ToolCall) (w : W) :
  is_port_forward t = false ->
  left_running exec json_loads str_strip expanduser t w = [].
Proof.
  intros Hpf. pose proof (@tools_keep t Hpf (start w)) as H.
  unfold left_running, run, run_tool, call_function.
  destruct (tool_body exec json_loads str_strip expanduser t (start w))
    as [[a|d|e] s']; simpl in *; exact H.
Qed.

(** C7.  [switch_context] makes one call-out, the command
    [kubectl config use-context <context_name>]; when the command succeeds
    the tool returns ["success": True] and a message that names the
    context. *)
Theorem switch_context_runs_use_context (context_name : string) (w : W) :
  exists r,
    events_of exec json_loads str_strip expanduser (Switch_context context_name) w
      = [(CheckOutput ["kubectl"; "config"; "use-context"; context_name], r)] /\
    (forall v, r = Ans v ->
       result_of exec json_loads str_strip expanduser (Switch_context context_name) w
         = Normal (PDict [("success", PBool true);
                          ("message", PStr ("Switched context to " ++ context_name))])).
Proof.
  unfold events_of, result_of, run, run_tool, call_function, tool_body,
    switch_context, check_output, try_except, bind, extern, start; simpl.
  destruct (exec (CheckOutput ["kubectl"; "config"; "use-context"; context_name]) w)
    as [[v|e] w']; simpl; eexists; (split; [reflexivity|]).
  - intros v' _. reflexivity.
  - intros v' [=].
Qed.

End AllTools.

(* ------------------------------------------------------------------ *)
(** ** Single tools, path by path *)

(** A hypothesis that computes to [false = true]. *)
Ltac absurd_hyp :=
  match goal with
  | H : _ = true |- _ => solve [cbn in H; discriminate H]
  | H : _ = false |- _ => solve [cbn in H; discriminate H]
  end.

(** Which event of a given log a hypothesis [In ev log] speaks of. *)
Ltac in_log H :=
  cbn [In] in H;
  repeat (destruct H as [H|H];
          [ try discriminate H; try (inversion H; subst; clear H) | ]);
  try contradiction.


Lemma each_after_split P evs :
  forall seen, each_after P seen evs ->
  forall pre ev post, evs = (pre ++ ev :: post)%list -> P (seen ++ pre)%list ev.
Proof.
  induction evs as [|x evs IH]; intros seen H pre ev post E.
  - destruct pre; discriminate E.
  - destruct H as [Hx Hrest]. destruct pre as [|y pre]; simpl in E.
    + injection E as -> ->. rewrite app_nil_r. exact Hx.
    + injection E as -> ->.
      specialize (IH _ Hrest pre ev post eq_refl).
      rewrite <- app_assoc in IH. exact IH.
Qed.

Lemma each_after_all (P : list Event -> Event -> Prop) evs :
  each_after P [] evs ->
  forall pre ev post, evs = (pre ++ ev :: post)%list -> P pre ev.
Proof. intros H pre ev post E. exact (@each_after_split P evs [] H pre ev post E). Qed.

Lemma split_nonempty r a b : split "=" r = [a; b] -> truthy (of_opt (Some r)) = true.
Proof. destruct r; [discriminate | reflexivity]. Qed.

Lemma each_at_split P evs :
  forall seen, each_at P seen evs ->
  forall pre ev post, evs = (pre ++ ev :: post)%list -> P (seen ++ pre)%list ev post.
Proof.
  induction evs as [|x evs IH]; intros seen H pre ev post E.
  - destruct pre; discriminate E.
  - destruct H as [Hx Hrest]. destruct pre as [|y pre]; simpl in E.
    + injection E as -> ->. rewrite app_nil_r. exact Hx.
    + injection E as -> ->.
      specialize (IH _ Hrest pre ev post eq_refl).
      rewrite <- app_assoc in IH. exact IH.
Qed.

Lemma each_at_all (P : list Event -> Event -> list Event -> Prop) evs :
  each_at P [] evs ->
  forall pre ev post, evs = (pre ++ ev :: post)%list -> P pre ev post.
Proof. intros H pre ev post E. exact (@each_at_split P evs [] H pre ev post E). Qed.

Ltac next_event := unfold followed_by; eexists; eexists; split; [ reflexivity | ].

Ltac proceeds_leaf repo P :=
  apply (@each_at_all
     (fun pre ev post =>
        (forall v, ev = (CheckOutput ["helm"; "version"], Ans v) ->
           truthy (of_opt repo) = false -> followed_by post P) /\
        (forall v, ev = (CheckOutput ["helm"; "repo"; "update"], Ans v) ->
           followed_by post P)));
  cbn [each_at app];
  repeat match goal with |- _ /\ _ => split | |- True => exact I end;
  try (let Hev := fresh "Hev" in let Hr := fresh "Hr" in
       intros ? Hev Hr; inversion Hev; subst;
       first [ congruence
             | next_event; unfold values_or_helm;
               repeat match goal with
                      | E : truthy (of_values _) = _ |- _ => rewrite E
                      end; reflexivity ]);
  try (let Hev := fresh "Hev" in
       intros ? Hev; inversion Hev; subst;
       next_event; unfold values_or_helm;
       repeat match goal with
              | E : truthy (of_values _) = _ |- _ => rewrite E
              end; reflexivity).

Section JsonFacts.

Variable json_loads : string -> option pyval.




End JsonFacts.










Ltac prefixed_leaf :=
  repeat (apply Forall_cons;
          [ cbn; first [ discriminate | intros ? [= <-]; reflexivity | intros ? [=] ] | ]);
  apply Forall_nil.

Section SingleTools.

Context {W : Type}.
Variable exec : Call -> W -> Reply * W.
Variable json_loads : string -> option pyval.
Variable str_strip : string -> string.
Variable expanduser : string -> string.






(** C8 (as amended).  For a [resource_type] other than ["pod"],
    ["deployment"] and ["service"], [delete_resource] makes no request to the
    API server and returns a failure; when the client library is imported
    and the kubeconfig is loaded, nothing else happens and the error is
    [Unsupported resource type: <resource_type>]. *)
Theorem delete_resource_rejects_other_types
    (resource_type name namespace : string) (w : W) :
  resource_type <> "pod" -> resource_type <> "deployment" ->
  resource_type <> "service" ->
  let t := Delete_resource resource_type name namespace in
  let evs := events_of exec json_loads str_strip expanduser t w in
  let result := result_of exec json_loads str_strip expanduser t w in
  no_api_request evs /\
  (exists d, result = Normal d /\ is_failure d) /\
  (forall v1 v2 rest,
     evs = (ImportKubernetes, Ans v1) :: (LoadKubeConfig, Ans v2) :: rest ->
     rest = [] /\
     result = Normal (failure ("Unsupported resource type: " ++ resource_type))).
Proof.
  intros Hpod Hdep Hsvc t evs result.
  set (Q := fun (o : ctl pyval) (s' : State (W:=W)) =>
    no_api_request (log s') /\
    (exists d, o = Normal d /\ is_failure d) /\
    (forall v1 v2 rest,
       log s' = (ImportKubernetes, Ans v1) :: (LoadKubeConfig, Ans v2) :: rest ->
       rest = [] /\
       o = Normal (failure ("Unsupported resource type: " ++ resource_type)))).
  change (wp (run_tool exec json_loads str_strip expanduser t) Q (start w)).
  unfold t, run_tool, tool_body, delete_resource, import_kubernetes,
    load_kube_config, kube.
  run_paths; subst Q; cbv beta; cbn [log].
  all: try match goal with
         | H : String.eqb _ _ = true |- _ =>
             apply String.eqb_eq in H; contradiction
         end.
  all: repeat split.
  all: try (repeat constructor; fail).
  all: try (eexists; split; [reflexivity | apply failure_is_failure]; fail).
  all: first [ congruence
             | match goal with
               | H : _ = _ :: _ :: _ |- _ => inversion H; subst; reflexivity
               end ].
Qed.

Lemma install_rejects_repo name chart namespace r values (w : W) b s1 :
  r <> "" -> length (split "=" r) <> 2 ->
  call_function (_check_tool_availability exec "helm") (start w) = (Normal b, s1) ->
  truthy b = true ->
  run exec json_loads str_strip expanduser
    (Install_helm_chart name chart namespace (Some r) values) w
  = (Normal (failure "Repository format should be 'repo_name=repo_url'"), s1).
Proof.
  intros Hr Hlen Hchk Hb.
  unfold run, run_tool, tool_body, install_helm_chart, _check_helm_availability,
    helm_repo_step.
  unfold call_function at 1. unfold bind at 1. unfold call_function at 1.
  unfold bind at 1. rewrite Hchk. cbn [return_].
  rewrite Hb. cbn [negb].
  assert (Ht : truthy (of_opt (Some r)) = true).
  { destruct r; [contradiction | reflexivity]. }
  rewrite Ht. cbn [fmt_opt].
  destruct (Nat.eqb (length (split "=" r)) 2) eqn:E.
  - apply Nat.eqb_eq in E. contradiction.
  - reflexivity.
Qed.

Lemma upgrade_rejects_repo name chart namespace r values (w : W) b s1 :
  r <> "" -> length (split "=" r) <> 2 ->
  call_function (_check_tool_availability exec "helm") (start w) = (Normal b, s1) ->
  truthy b = true ->
  run exec json_loads str_strip expanduser
    (Upgrade_helm_chart name chart namespace (Some r) values) w
  = (Normal (failure "Repository format should be 'repo_name=repo_url'"), s1).
Proof.
  intros Hr Hlen Hchk Hb.
  unfold run, run_tool, tool_body, upgrade_helm_chart, _check_helm_availability,
    helm_repo_step.
  unfold call_function at 1. unfold bind at 1. unfold call_function at 1.
  unfold bind at 1. rewrite Hchk. cbn [return_].
  rewrite Hb. cbn [negb].
  assert (Ht : truthy (of_opt (Some r)) = true).
  { destruct r; [contradiction | reflexivity]. }
  rewrite Ht. cbn [fmt_opt].
  destruct (Nat.eqb (length (split "=" r)) 2) eqn:E.
  - apply Nat.eqb_eq in E. contradiction.
  - reflexivity.
Qed.

Lemma install_prefixes_chart name chart namespace r repo_name repo_url values (w : W) :
  split "=" r = [repo_name; repo_url] -> contains "/" chart = false ->
  prefixed "install" repo_name chart
    (events_of exec json_loads str_strip expanduser
       (Install_helm_chart name chart namespace (Some r) values) w).
Proof.
  intros Hsplit Hchart. pose proof (@split_nonempty _ _ _ Hsplit) as Ht.
  set (Q := fun (o : ctl pyval) (s' : State (W:=W)) =>
              prefixed "install" repo_name chart (log s')).
  change (wp (run_tool exec json_loads str_strip expanduser
                (Install_helm_chart name chart namespace (Some r) values)) Q (start w)).
  unfold run_tool, tool_body, install_helm_chart, helm_repo_step, helm_run,
    _check_helm_availability, _check_tool_availability, check_output.
  rewrite Ht. cbn [fmt_opt]. rewrite Hsplit, Hchart. cbn [length Nat.eqb negb nth].
  run_paths.
  all: subst Q; cbv beta; cbn [log]; unfold prefixed.
  all: prefixed_leaf.
Qed.

Lemma upgrade_prefixes_chart name chart namespace r repo_name repo_url values (w : W) :
  split "=" r = [repo_name; repo_url] -> contains "/" chart = false ->
  prefixed "upgrade" repo_name chart
    (events_of exec json_loads str_strip expanduser
       (Upgrade_helm_chart name chart namespace (Some r) values) w).
Proof.
  intros Hsplit Hchart. pose proof (@split_nonempty _ _ _ Hsplit) as Ht.
  set (Q := fun (o : ctl pyval) (s' : State (W:=W)) =>
              prefixed "upgrade" repo_name chart (log s')).
  change (wp (run_tool exec json_loads str_strip expanduser
                (Upgrade_helm_chart name chart namespace (Some r) values)) Q (start w)).
  unfold run_tool, tool_body, upgrade_helm_chart, helm_repo_step, helm_run,
    _check_helm_availability, _check_tool_availability, check_output.
  rewrite Ht. cbn [fmt_opt]. rewrite Hsplit, Hchart. cbn [length Nat.eqb negb nth].
  run_paths.
  all: subst Q; cbv beta; cbn [log]; unfold prefixed.
  all: prefixed_leaf.
Qed.

(** C9 (as amended).  In [install_helm_chart] and [upgrade_helm_chart],
    with a [repo] that is given: when it does not split on ['='] into
    exactly two parts and the availability check has said yes, the tool
    returns the failure [Repository format should be 'repo_name=repo_url']
    in the state the check left, that is without a further call-out; when it
    splits into [repo_name] and [repo_url] and the chart name has no ['/'],
    every [helm install] (or [helm upgrade]) command of the run names the
    chart [<repo_name>/<chart>]. *)
Theorem helm_repo_argument (name chart namespace r : string)
    (values : option (list (string * pyval))) (w : W) :
  let install := Install_helm_chart name chart namespace (Some r) values in
  let upgrade := Upgrade_helm_chart name chart namespace (Some r) values in
  (r <> "" -> length (split "=" r) <> 2 ->
   forall b s1,
     call_function (_check_tool_availability exec "helm") (start w) = (Normal b, s1) ->
     truthy b = true ->
     run exec json_loads str_strip expanduser install w
       = (Normal (failure "Repository format should be 'repo_name=repo_url'"), s1) /\
     run exec json_loads str_strip expanduser upgrade w
       = (Normal (failure "Repository format should be 'repo_name=repo_url'"), s1)) /\
  (forall repo_name repo_url,
     split "=" r = [repo_name; repo_url] -> contains "/" chart = false ->
     prefixed "install" repo_name chart
       (events_of exec json_loads str_strip expanduser install w) /\
     prefixed "upgrade" repo_name chart
       (events_of exec json_loads str_strip expanduser upgrade w)).
Proof.
  intros install upgrade. split.
  - intros Hr Hlen b s1 Hchk Hb. split.
    + eapply install_rejects_repo; eassumption.
    + eapply upgrade_rejects_repo; eassumption.
  - intros repo_name repo_url Hsplit Hchart. split.
    + eapply install_prefixes_chart; eassumption.
    + eapply upgrade_prefixes_chart; eassumption.
Qed.



(** The steps about the namespace, one after the other. *)
Lemma install_steps_to_the_namespace name chart namespace repo values (w : W) :
  namespace_step namespace values
    (events_of exec json_loads str_strip expanduser
       (Install_helm_chart name chart namespace repo values) w).
Proof.
  set (Q := fun (o : ctl pyval) (s' : State (W:=W)) =>
              namespace_step namespace values (log s')).
  change (wp (run_tool exec json_loads str_strip expanduser
                (Install_helm_chart name chart namespace repo values)) Q (start w)).
  unfold run_tool, tool_body, install_helm_chart, helm_repo_step, helm_run,
    _check_helm_availability, _check_tool_availability, check_output.
  run_paths.
  all: subst Q; cbv beta; cbn [log]; unfold namespace_step, get_namespace,
    create_namespace.
  all: try congruence.
  all: apply (@each_at_all
     (fun pre ev post =>
        (forall e, ev = (CheckOutput ["kubectl"; "get"; "namespace"; namespace], Throw e) ->
           isCalledProcessError e = true ->
           followed_by post (fun next =>
             fst next = CheckOutput ["kubectl"; "create"; "namespace"; namespace])) /\
        (forall v, ev = (CheckOutput ["kubectl"; "get"; "namespace"; namespace], Ans v) \/
                   ev = (CheckOutput ["kubectl"; "create"; "namespace"; namespace], Ans v) ->
           followed_by post (fun next =>
             if truthy (of_values values)
             then fst next = DumpValuesFile (of_values values)
             else is_helm "install" next = true)) /\
        (forall v, ev = (CheckOutput ["helm"; "repo"; "update"], Ans v) ->
           followed_by post (fun next =>
             fst next = CheckOutput ["kubectl"; "get"; "namespace"; namespace]))));
    cbn [each_at app].
  all: repeat match goal with |- _ /\ _ => split | |- True => exact I end.
  all: try (intros e' Hev Hc; inversion Hev; subst;
            first [ congruence | next_event; reflexivity ]).
  all: try (intros v' [Hev|Hev]; inversion Hev; subst;
            next_event;
            repeat match goal with E : truthy (of_values _) = _ |- _ => rewrite E end;
            reflexivity).
  all: try (intros v' Hev; inversion Hev; subst; next_event; reflexivity).
Qed.



End SingleTools.

(* ------------------------------------------------------------------ *)
(** ** Exposing a Deployment twice

    [expose_deployment_with_service] against the cluster of [api_server]. *)

Lemma find_put_same key o st : find_object key (put_object key o st) = Some o.
Proof.
  destruct key as [ns n]. induction st as [|[[ns' n'] o'] st IH]; cbn.
  - now rewrite !String.eqb_refl.
  - destruct (String.eqb ns' ns && String.eqb n' n) eqn:E; cbn.
    + now rewrite !String.eqb_refl.
    + now rewrite E.
Qed.

Lemma put_put_same key o o' st :
  put_object key o (put_object key o' st) = put_object key o st.
Proof.
  destruct key as [ns n]. induction st as [|[[ns' n'] o''] st IH]; cbn.
  - now rewrite !String.eqb_refl.
  - destruct (String.eqb ns' ns && String.eqb n' n) eqn:E; cbn.
    + now rewrite !String.eqb_refl.
    + now rewrite E, IH.
Qed.

Lemma chosen_selector_cases
    (selector_labels : option (list (string * string))) deployment selector :
  chosen_selector selector_labels deployment = Some selector ->
  (is_none (of_labels selector_labels) = true ->
     match_labels deployment = Ok selector /\ truthy selector = true) /\
  (is_none (of_labels selector_labels) = false ->
     of_labels selector_labels = selector).
Proof.
  unfold chosen_selector. destruct selector_labels as [l|]; cbn.
  - intros [= <-]. split; [discriminate | reflexivity].
  - destruct (match_labels deployment) as [l|e]; [|discriminate].
    destruct (truthy l) eqn:T; [|discriminate].
    intros [= <-]. split; [auto | discriminate].
Qed.

Lemma service_body_name deployment_name service_name target_port protocol
    service_type namespace port selector b :
  service_body deployment_name (Some service_name) target_port protocol
    service_type namespace port selector = Ok b ->
  name_of b = Some (PStr service_name).
Proof.
  unfold service_body. destruct (V1ServicePort _ _ _); [|discriminate].
  cbn. intros [= <-]. reflexivity.
Qed.

Lemma stored_presentable accepted patched b existing :
  server_fit accepted patched b ->
  (forall o, existing = Some o -> presentable o) ->
  presentable (stored_service accepted patched existing b).
Proof.
  intros Hfit Hex. destruct existing as [o|]; cbn.
  - apply (patched_presentable Hfit). apply Hex. reflexivity.
  - apply (accepted_presentable Hfit).
Qed.

Lemma stored_fixed accepted patched b existing :
  server_fit accepted patched b ->
  patched (stored_service accepted patched existing b) b
    = stored_service accepted patched existing b.
Proof.
  intros Hfit. destruct existing as [o|]; cbn.
  - apply (patched_twice Hfit).
  - apply (patched_accepted Hfit).
Qed.

Section Idempotence.

Variable json_loads : string -> option pyval.
Variable str_strip : string -> string.
Variable expanduser : string -> string.
Variable accepted : pyval -> pyval.
Variable patched : pyval -> pyval -> pyval.

(** One call: it succeeds, writes the Service once, by a create when there
    is none and by a patch when there is one, and the cluster then holds
    what the server made of it. *)
Lemma expose_once
    (deployment_name service_name namespace : string) (target_port : option Z)
    (protocol : string) (service_type : option string) (port : option Z)
    (selector_labels : option (list (string * string)))
    (cl : Cluster) (deployment selector b : pyval) :
  let t := Expose_deployment_with_service (Some deployment_name) (Some service_name)
             target_port protocol service_type (Some namespace) port selector_labels in
  let existing := find_object (namespace, service_name) (services cl) in
  find_object (namespace, deployment_name) (deployments cl) = Some deployment ->
  chosen_selector selector_labels deployment = Some selector ->
  service_body (Some deployment_name) (Some service_name) target_port protocol
    service_type (Some namespace) (chosen_port port target_port) selector = Ok b ->
  server_fit accepted patched b ->
  (forall o, existing = Some o -> presentable o) ->
  wp (run_tool (api_server accepted patched) json_loads str_strip expanduser t)
     (fun o s' =>
        (exists d, o = Normal d /\ is_success d) /\
        writes (log s') = [write_of existing service_name namespace b] /\
        world s' = mkCluster (deployments cl)
                     (put_object (namespace, service_name)
                        (stored_service accepted patched existing b) (services cl)))
     (start cl).
Proof.
  intros t existing Hd Hsel Hb Hfit Hex.
  destruct (chosen_selector_cases _ _ Hsel) as [Hnone Hsome].
  pose proof (service_body_name _ _ _ _ _ _ _ _ Hb) as Hname.
  destruct Hfit as [[Hat [da Hda]] Hp Hpp Hpa].
  unfold t, run_tool, tool_body, expose_deployment_with_service, import_kubernetes,
    load_kube_config, kube, start.
  apply wp_call_function, wp_try_except, wp_bind.
  eapply wp_extern_ans; [reflexivity|]. cbn [world log children app].
  apply wp_bind. eapply wp_extern_ans; [reflexivity|]. cbn [world log children app].
  apply wp_bind, wp_try_except, wp_bind.
  eapply wp_extern_ans; [cbn; rewrite Hd; reflexivity|]. cbn [world log children app].
  assert (Hstep : forall (Q : ctl pyval -> State (W:=Cluster) -> Prop) s,
            Q (Normal selector) s ->
            wp (if is_none (of_labels selector_labels)
                then bind (lift (let* spec := getattr deployment "spec" in
                                 let* selector := getattr spec "selector" in
                                 getattr selector "match_labels"))
                       (fun labels =>
                          if negb (truthy labels)
                          then raise (ValueError
                                 ("No selector labels found for Deployment '"
                                  ++ fmt_opt (Some deployment_name)
                                  ++ "' or provided manually. Cannot create Service."))
                          else ret labels)
                else ret (of_labels selector_labels)) Q s).
  { intros Q s HQ. destruct (is_none (of_labels selector_labels)) eqn:E.
    - destruct (Hnone eq_refl) as [Hm Ht]. unfold match_labels in Hm.
      apply wp_bind. eapply wp_lift_ok; [exact Hm|]. rewrite Ht. exact HQ.
    - rewrite (Hsome eq_refl). exact HQ. }
  apply Hstep. clear Hstep.
  cbv zeta. apply wp_bind. eapply wp_lift_ok; [exact Hb|].
  apply wp_try_except, wp_bind, wp_try_except.
  subst existing.
  destruct (find_object (namespace, service_name) (services cl)) as [o|] eqn:Hf.
  - destruct (Hex o eq_refl) as [Ho _].
    eapply wp_extern_ans; [cbn; rewrite Hf; reflexivity|]. cbn [world log children app].
    rewrite Ho.
    apply wp_bind. eapply wp_extern_ans; [cbn; rewrite Hf; reflexivity|].
    cbn [world log children app services deployments].
    destruct (Hp o (Hex o eq_refl)) as [_ [d Hdd]].
    apply wp_bind. eapply wp_lift_ok; [exact Hdd|].
    split; [eexists; split; reflexivity|]. split; reflexivity.
  - eapply wp_extern_throw; [cbn; rewrite Hf; reflexivity|]. cbn [world log children app].
    cbn [isApiException not_found status Z.eqb negb Pos.eqb].
    apply wp_bind.
    eapply wp_extern_ans; [cbn; rewrite Hname; cbn; rewrite Hf; reflexivity|].
    cbn [world log children app services deployments].
    apply wp_bind. eapply wp_lift_ok; [exact Hda|].
    split; [eexists; split; reflexivity|]. split; reflexivity.
Qed.

(** C4.  Against a cluster that holds the Deployment, with a selector to
    use and a server that hands back Service objects and for which patching
    with the body is idempotent: the call returns ["success": True] and
    writes the Service by one request, a create of the body when no Service
    of that name is in the namespace and a patch with the same body when one
    is; a second call with the same arguments returns ["success": True] too,
    patches with that body, and leaves the cluster as the first call left
    it. *)
Theorem expose_is_idempotent_create_or_patch
    (deployment_name service_name namespace : string) (target_port : option Z)
    (protocol : string) (service_type : option string) (port : option Z)
    (selector_labels : option (list (string * string)))
    (cl : Cluster) (deployment selector b : pyval) :
  let t := Expose_deployment_with_service (Some deployment_name) (Some service_name)
             target_port protocol service_type (Some namespace) port selector_labels in
  let existing := find_object (namespace, service_name) (services cl) in
  let server := api_server accepted patched in
  let once := world_after server json_loads str_strip expanduser t cl in
  find_object (namespace, deployment_name) (deployments cl) = Some deployment ->
  chosen_selector selector_labels deployment = Some selector ->
  service_body (Some deployment_name) (Some service_name) target_port protocol
    service_type (Some namespace) (chosen_port port target_port) selector = Ok b ->
  server_fit accepted patched b ->
  (forall o, existing = Some o -> presentable o) ->
  (exists d, result_of server json_loads str_strip expanduser t cl = Normal d /\
             is_success d) /\
  writes (events_of server json_loads str_strip expanduser t cl)
    = [match existing with
       | Some _ => patch_service service_name namespace b
       | None => create_service namespace b
       end] /\
  (exists d, result_of server json_loads str_strip expanduser t once = Normal d /\
             is_success d) /\
  writes (events_of server json_loads str_strip expanduser t once)
    = [patch_service service_name namespace b] /\
  world_after server json_loads str_strip expanduser t once = once /\
  find_object (namespace, service_name) (services once)
    = Some (stored_service accepted patched existing b).
Proof.
  intros t existing server once Hd Hsel Hb Hfit Hex.
  pose proof (expose_once deployment_name service_name namespace target_port
                protocol service_type port selector_labels cl Hd Hsel Hb Hfit Hex)
    as [Hres [Hw Hcl]].
  fold t existing in Hres, Hw, Hcl.
  change (world (snd (run_tool (api_server accepted patched) json_loads str_strip
                        expanduser t (start cl)))) with once in Hcl.
  assert (Hfind : find_object (namespace, service_name) (services once)
                  = Some (stored_service accepted patched existing b)).
  { rewrite Hcl. cbn [services]. apply find_put_same. }
  assert (Hd' : find_object (namespace, deployment_name) (deployments once)
                = Some deployment).
  { rewrite Hcl. exact Hd. }
  assert (Hex' : forall o, find_object (namespace, service_name) (services once) = Some o ->
                           presentable o).
  { intros o Ho. rewrite Hfind in Ho. injection Ho as <-.
    apply stored_presentable; assumption. }
  pose proof (expose_once deployment_name service_name namespace target_port
                protocol service_type port selector_labels once Hd' Hsel Hb Hfit Hex')
    as [Hres2 [Hw2 Hcl2]].
  fold t in Hres2, Hw2, Hcl2.
  rewrite Hfind in Hw2, Hcl2. cbn [write_of stored_service] in Hw2, Hcl2.
  rewrite (stored_fixed existing Hfit) in Hcl2.
  split; [exact Hres|]. split; [exact Hw|]. split; [exact Hres2|].
  split; [exact Hw2|]. split; [|exact Hfind].
  unfold world_after, run, server. etransitivity; [exact Hcl2|].
  rewrite Hcl. cbn [deployments services]. rewrite put_put_same. reflexivity.
Qed.

End Idempotence.

(* ------------------------------------------------------------------ *)
(** ** The rest of the tools *)

(** *** Requests come after the kubeconfig *)

Section Kubeconfig.
Context {W : Type}.
Variable exec : Call -> W -> Reply * W.
Variable json_loads : string -> option pyval.
Variable str_strip : string -> string.
Variable expanduser : string -> string.

Ltac configured_leaf :=
  apply (@each_after_all
           (fun pre ev => is_api_request (fst ev) = true -> configured pre));
  cbn [each_after app];
  repeat match goal with |- _ /\ _ => split | |- True => exact I end;
  intros Hh;
  try (cbn in Hh; discriminate Hh);
  unfold configured; split; eexists; cbn [In]; solve [eauto 12].

(** X1.  Whatever the tool: by the time it sends a request to the API server,
    the client library has been imported and the kubeconfig has been
    loaded, both without an exception. *)
Theorem api_requests_follow_the_kubeconfig (t : ToolCall) (w : W) pre ev post :
  events_of exec json_loads str_strip expanduser t w = (pre ++ ev :: post)%list ->
  is_api_request (fst ev) = true ->
  configured pre.
Proof.
  revert pre ev post.
  set (Q := fun (o : ctl pyval) (s' : State (W:=W)) =>
              forall pre ev post, log s' = (pre ++ ev :: post)%list ->
                is_api_request (fst ev) = true -> configured pre).
  change (wp (run_tool exec json_loads str_strip expanduser t) Q (start w)).
  destruct t; unfold_tools; run_paths.
  all: subst Q; cbv beta; cbn [log].
  all: configured_leaf.
  Qed.
End Kubeconfig.

(** *** The availability checks *)

Section Availability.
Context {W : Type}.
Variable exec : Call -> W -> Reply * W.
Variable json_loads : string -> option pyval.
Variable str_strip : string -> string.
Variable expanduser : string -> string.

(** X2.  The call-outs of [_check_tool_availability] are [shutil.which(tool)]
    alone, or [which] that found the program followed by one command,
    [kubectl version --client] for [kubectl] and [helm version] for [helm];
    nothing else is called, for any other tool [which] is all there is, and
    no command is left running. *)
Theorem check_tool_availability_runs (tool : string) (w : W) :
  let outcome := call_function (_check_tool_availability exec tool) (start w) in
  let evs := log (snd outcome) in
  check_events tool evs /\
  (version_command tool = None -> exists r, evs = [(Which tool, r)]) /\
  children (snd outcome) = [] /\
  (exists r, hd_error evs = Some (Which tool, r)) /\
  (forall argv r, In (CheckOutput argv, r) evs ->
     version_command tool = Some argv /\
     exists path, evs = [(Which tool, Ans path); (CheckOutput argv, r)] /\
                  is_none path = false) /\
  Forall (fun ev => fst ev = Which tool \/ is_command (fst ev) = true) evs.
Proof.
  intros outcome evs. subst outcome evs.
  set (Q := fun (o : ctl pyval) (s' : State (W:=W)) =>
    check_events tool (log s') /\
    (version_command tool = None -> exists r, log s' = [(Which tool, r)]) /\
    children s' = [] /\
    (exists r, hd_error (log s') = Some (Which tool, r)) /\
    (forall argv r, In (CheckOutput argv, r) (log s') ->
       version_command tool = Some argv /\
       exists path, log s' = [(Which tool, Ans path); (CheckOutput argv, r)] /\
                    is_none path = false) /\
    Forall (fun ev => fst ev = Which tool \/ is_command (fst ev) = true) (log s')).
  change (wp (call_function (_check_tool_availability exec tool)) Q (start w)).
  unfold _check_tool_availability, check_output.
  run_paths.
  all: subst Q; cbv beta; cbn [log children]; unfold check_events, version_command.
  all: repeat match goal with E : String.eqb _ _ = _ |- _ => rewrite E; clear E end.
  all: split;
    [ first [ left; eexists; reflexivity
            | right; eexists; eexists; eexists;
              (split; [ eassumption | split; reflexivity ]) ] | ].
  all: split; [ intros Hn; first [ discriminate Hn | eexists; reflexivity ] | ].
  all: split; [ reflexivity | ].
  all: split; [eexists; reflexivity|].
  all: split; [ intros argv r Hin; in_log Hin | ].
  all: try (split; [reflexivity | eexists; split; [reflexivity | assumption]]).
  all: repeat (apply Forall_cons; [ cbn; auto | ]); try apply Forall_nil.
Qed.

(** X3.  [_check_tool_availability] gives [True] exactly when [which] found
    the program and the command that tries it out (if the tool has one)
    answered; when [which] finds nothing it gives [False] and nothing else
    is called; an exception that is a [SubprocessError] or a
    [FileNotFoundError] makes it [False], any other is let through; and
    what it returns is [True] or [False]. *)
Theorem check_tool_availability_answers (tool : string) (w : W) :
  let outcome := call_function (_check_tool_availability exec tool) (start w) in
  let evs := log (snd outcome) in
  (fst outcome = Normal (PBool true) <-> found_and_tried tool evs) /\
  (In (Which tool, Ans PNone) evs ->
   fst outcome = Normal (PBool false) /\ evs = [(Which tool, Ans PNone)]) /\
  (forall c e, In (c, Throw e) evs ->
     if isSubprocessError e || isFileNotFoundError e
     then fst outcome = Normal (PBool false)
     else fst outcome = Raise e) /\
  (forall d, fst outcome = Normal d -> d = PBool true \/ d = PBool false).
Proof.
  intros outcome evs. subst outcome evs.
  set (Q := fun (o : ctl pyval) (s' : State (W:=W)) =>
    (o = Normal (PBool true) <-> found_and_tried tool (log s')) /\
    (In (Which tool, Ans PNone) (log s') ->
     o = Normal (PBool false) /\ log s' = [(Which tool, Ans PNone)]) /\
    (forall c e, In (c, Throw e) (log s') ->
       if isSubprocessError e || isFileNotFoundError e
       then o = Normal (PBool false)
       else o = Raise e) /\
    (forall d, o = Normal d -> d = PBool true \/ d = PBool false)).
  change (wp (call_function (_check_tool_availability exec tool)) Q (start w)).
  unfold _check_tool_availability, check_output.
  run_paths.
  all: subst Q; cbv beta; cbn [log]; unfold found_and_tried, version_command.
  all: split; [ split; [ intros Ho; try discriminate Ho
                       | intros (path & Hp & Hev) ] | ].
  all: repeat match goal with
              | E : String.eqb _ _ = _ |- _ => rewrite E in *; clear E
              end.
  all: try solve [ eexists; (split; [ eassumption | ]);
                   first [ eexists; reflexivity | reflexivity ] ].
  all: try solve [ reflexivity ].
  all: try solve [ exfalso;
                   repeat match type of Hev with
                          | context [String.eqb ?a ?b] => destruct (String.eqb a b)
                          end;
                   try match type of Hev with
                       | ex _ => destruct Hev as [out Hev]
                       end;
                   inversion Hev; subst; congruence ].
  all: split; [ intros Hin; in_log Hin; try absurd_hyp; split; reflexivity | ].
  all: split; [ intros c e' Hin; in_log Hin;
                repeat match goal with
                       | E : _ || _ = _ |- _ => rewrite E
                       end; reflexivity
              | intros d Hd; inversion Hd; auto ].
Qed.

(** X4.  The three Helm tools and [get_resource_usage]: when the
    availability check says no, the tool returns the failure that names the
    program, in the state the check left, that is without another
    call-out. *)
Theorem tools_stop_when_the_program_is_missing (t : ToolCall) (tool : string)
    (w : W) (b : pyval) (s1 : State) :
  precheck t = Some tool ->
  call_function (_check_tool_availability exec tool) (start w) = (Normal b, s1) ->
  truthy b = false ->
  run exec json_loads str_strip expanduser t w
    = (Normal (failure (unavailable_message tool)), s1).
Proof.
  intros Hp Hchk Hb.
  destruct t; try discriminate Hp; injection Hp as <-;
    unfold run, run_tool, tool_body, install_helm_chart, upgrade_helm_chart,
      uninstall_helm_chart, get_resource_usage, _check_helm_availability,
      _check_kubectl_availability;
    unfold call_function at 1; unfold bind at 1; unfold call_function at 1;
    unfold bind at 1; rewrite Hchk; cbn [return_]; rewrite Hb; reflexivity.
Qed.

(** X5.  [_check_dependencies] checks [kubectl] and then [helm], the second
    also when the first is missing, and gives [True] exactly when both
    checks did. *)
Theorem check_dependencies_checks_both (w : W) (b1 b2 : pyval) (s1 s2 : State) :
  call_function (_check_tool_availability exec "kubectl") (start w) = (Normal b1, s1) ->
  call_function (_check_tool_availability exec "helm") s1 = (Normal b2, s2) ->
  call_function (_check_dependencies exec) (start w)
    = (Normal (PBool (truthy b1 && truthy b2)), s2).
Proof.
  intros H1 H2.
  unfold _check_dependencies, check_each.
  unfold call_function at 1. unfold bind at 1. unfold bind at 1. rewrite H1.
  destruct (truthy b1); cbn [negb andb]; unfold bind at 1; rewrite H2;
    destruct (truthy b2); reflexivity.
Qed.
End Availability.

(** *** Helm: the values file and the repository *)

Ltac values_leaf :=
  let Hv := fresh "Hv" in let Hin := fresh "Hin" in let Hd := fresh "Hd" in
  let Hh := fresh "Hh" in let Ha := fresh "Ha" in let Hf := fresh "Hf" in
  let Hr := fresh "Hr" in let Hv1 := fresh "Hv1" in
  let xf := fresh "xf" in let xev := fresh "xev" in let xargv := fresh "xargv" in
  let xv := fresh "xv" in
  split;
  [ intros Hv;
    repeat (apply Forall_cons; [ first [ reflexivity | exfalso; congruence ] | ]);
    apply Forall_nil
  | split;
    [ intros ? ? Hin; in_log Hin; reflexivity
    | split;
      [ intros xf xev xargv Hd Hin Hh Ha; in_log Hd;
        cbn [In] in Hin;
        repeat (destruct Hin as [Hin|Hin];
                [ subst xev; try (cbn in Hh; discriminate Hh);
                  cbn [fst] in Ha; inversion Ha; subst;
                  try match goal with
                      | H : as_str _ = Ok _ |- _ => cbn in H; inversion H; subst
                      end;
                  try match goal with
                      | H : as_str _ = Err _ |- _ => cbn in H; discriminate H
                      end;
                  eexists [_; _; _; _; _; _]; reflexivity
                | ]);
        contradiction
      | intros xf Hd Hf; in_log Hd;
        try congruence;
        (eexists; (split; [ cbn [In]; solve [eauto 12] | ]));
        intros xv Hr Hv1; inversion Hr; subst;
        first [ congruence | eexists; cbn [In]; solve [eauto 12] ] ] ] ].

Lemma as_str_ok v a : as_str v = Ok a -> v = PStr a.
Proof. destruct v; cbn; intros H; inversion H; reflexivity. Qed.

Ltac used_leaf verb name namespace values :=
  apply (@each_at_all
     (fun pre ev post =>
        (is_helm verb ev = true ->
         exists chart,
           if truthy (of_values values)
           then exists f,
                  In (DumpValuesFile (of_values values), Ans (PStr f)) pre /\
                  fst ev = CheckOutput ["helm"; verb; name; chart; "-n"; namespace;
                                        "-f"; f] /\
                  (f <> "" ->
                   followed_by post (fun next => fst next = PathExists (PStr f)))
           else fst ev = CheckOutput ["helm"; verb; name; chart; "-n"; namespace]) /\
        (forall f, ev = (DumpValuesFile (of_values values), Ans (PStr f)) ->
           followed_by post (fun next => is_helm verb next = true))));
  cbn [each_at app];
  repeat match goal with
         | H : as_str _ = Ok _ |- _ => apply as_str_ok in H; subst
         | H : as_str (PStr _) = Err _ |- _ => discriminate H
         end;
  repeat match goal with |- _ /\ _ => split | |- True => exact I end;
  try (let Hh := fresh "Hh" in
       intros Hh; first [ discriminate Hh | cbn in Hh; discriminate Hh | idtac ];
       eexists;
       repeat match goal with E : truthy (of_values _) = _ |- _ => rewrite E end;
       first [ reflexivity
             | eexists; split; [ cbn [In]; solve [eauto 12] | ];
               split; [ reflexivity | ];
               let Hf := fresh "Hf" in
               intros Hf;
               first [ next_event; reflexivity
                     | exfalso;
                       match goal with
                       | E : truthy (PStr ?a) = false |- _ =>
                           cbn in E; apply negb_false_iff in E;
                           apply String.eqb_eq in E; contradiction
                       end ] ]);
  try (let Hev := fresh "Hev" in
       intros ? Hev; inversion Hev; subst;
       first [ next_event; reflexivity
             | match goal with
               | H : as_str _ = Err _ |- _ => cbn in H; discriminate H
               end ]).

Section HelmSteps.
Context {W : Type}.
Variable exec : Call -> W -> Reply * W.
Variable json_loads : string -> option pyval.
Variable str_strip : string -> string.
Variable expanduser : string -> string.

Lemma install_handles_values name chart namespace repo values (w : W) :
  values_handled "install" values
    (events_of exec json_loads str_strip expanduser
       (Install_helm_chart name chart namespace repo values) w).
Proof.
  set (Q := fun (o : ctl pyval) (s' : State (W:=W)) =>
              values_handled "install" values (log s')).
  change (wp (run_tool exec json_loads str_strip expanduser
                (Install_helm_chart name chart namespace repo values)) Q (start w)).
  unfold run_tool, tool_body, install_helm_chart, helm_repo_step, helm_run,
    _check_helm_availability, _check_tool_availability, check_output.
  run_paths.
  all: subst Q; cbv beta; cbn [log]; unfold values_handled.
  all: try congruence.
  all: values_leaf.
  Qed.
Lemma upgrade_handles_values name chart namespace repo values (w : W) :
  values_handled "upgrade" values
    (events_of exec json_loads str_strip expanduser
       (Upgrade_helm_chart name chart namespace repo values) w).
Proof.
  set (Q := fun (o : ctl pyval) (s' : State (W:=W)) =>
              values_handled "upgrade" values (log s')).
  change (wp (run_tool exec json_loads str_strip expanduser
                (Upgrade_helm_chart name chart namespace repo values)) Q (start w)).
  unfold run_tool, tool_body, upgrade_helm_chart, helm_repo_step, helm_run,
    _check_helm_availability, _check_tool_availability, check_output.
  run_paths.
  all: subst Q; cbv beta; cbn [log]; unfold values_handled.
  all: try congruence.
  all: values_leaf.
Qed.

Lemma install_uses_values name chart namespace repo values (w : W) :
  values_used "install" name namespace values
    (events_of exec json_loads str_strip expanduser
       (Install_helm_chart name chart namespace repo values) w).
Proof.
  set (Q := fun (o : ctl pyval) (s' : State (W:=W)) =>
              values_used "install" name namespace values (log s')).
  change (wp (run_tool exec json_loads str_strip expanduser
                (Install_helm_chart name chart namespace repo values)) Q (start w)).
  unfold run_tool, tool_body, install_helm_chart, helm_repo_step, helm_run,
    _check_helm_availability, _check_tool_availability, check_output.
  run_paths.
  all: subst Q; cbv beta; cbn [log]; unfold values_used.
  all: try congruence.
  all: used_leaf "install" name namespace values.
Qed.

Lemma upgrade_uses_values name chart namespace repo values (w : W) :
  values_used "upgrade" name namespace values
    (events_of exec json_loads str_strip expanduser
       (Upgrade_helm_chart name chart namespace repo values) w).
Proof.
  set (Q := fun (o : ctl pyval) (s' : State (W:=W)) =>
              values_used "upgrade" name namespace values (log s')).
  change (wp (run_tool exec json_loads str_strip expanduser
                (Upgrade_helm_chart name chart namespace repo values)) Q (start w)).
  unfold run_tool, tool_body, upgrade_helm_chart, helm_repo_step, helm_run,
    _check_helm_availability, _check_tool_availability, check_output.
  run_paths.
  all: subst Q; cbv beta; cbn [log]; unfold values_used.
  all: try congruence.
  all: used_leaf "upgrade" name namespace values.
Qed.

Lemma upgrade_proceeds name chart namespace repo values (w : W) :
  proceeds repo
    (events_of exec json_loads str_strip expanduser
       (Upgrade_helm_chart name chart namespace repo values) w)
    (values_or_helm "upgrade" values).
Proof.
  set (Q := fun (o : ctl pyval) (s' : State (W:=W)) =>
              proceeds repo (log s') (values_or_helm "upgrade" values)).
  change (wp (run_tool exec json_loads str_strip expanduser
                (Upgrade_helm_chart name chart namespace repo values)) Q (start w)).
  unfold run_tool, tool_body, upgrade_helm_chart, helm_repo_step, helm_run,
    _check_helm_availability, _check_tool_availability, check_output.
  run_paths.
  all: subst Q; cbv beta; cbn [log]; unfold proceeds.
  all: try congruence.
  all: proceeds_leaf repo (values_or_helm "upgrade" values).
Qed.

(** X6.  [install_helm_chart] and [upgrade_helm_chart]: without values
    ([None] or an empty dictionary) no call-out is about a values file and
    [helm install] (or [helm upgrade]) is run with the name, the chart and
    the namespace only; with values, the command is run only once the file
    that holds them has been written, it comes right after the writing and
    ends with [-f <file>], and right after the command, succeeded or not,
    the file is looked for, and it is removed when it is still there.
    The tools do get there: [install_helm_chart] goes on to the values file
    (or to the command) once the namespace is there, and
    [upgrade_helm_chart] once [helm] is found to be there and no repository
    is to be added, or once the repositories were updated. *)
Theorem helm_values_file name chart namespace repo values (w : W) :
  let installed := events_of exec json_loads str_strip expanduser
                     (Install_helm_chart name chart namespace repo values) w in
  let upgraded := events_of exec json_loads str_strip expanduser
                    (Upgrade_helm_chart name chart namespace repo values) w in
  (values_handled "install" values installed /\
   values_handled "upgrade" values upgraded) /\
  values_used "install" name namespace values installed /\
  values_used "upgrade" name namespace values upgraded /\
  namespace_step namespace values installed /\
  proceeds repo upgraded (values_or_helm "upgrade" values).
Proof.
  intros installed upgraded.
  split; [ split; [ apply install_handles_values | apply upgrade_handles_values ] | ].
  split; [ apply install_uses_values | ].
  split; [ apply upgrade_uses_values | ].
  split; [ apply install_steps_to_the_namespace | apply upgrade_proceeds ].
Qed.

Lemma install_after_repo name chart namespace r repo_name repo_url values (w : W) :
  split "=" r = [repo_name; repo_url] ->
  forall pre ev post,
    events_of exec json_loads str_strip expanduser
      (Install_helm_chart name chart namespace (Some r) values) w
      = (pre ++ ev :: post)%list ->
    is_helm "install" ev = true -> repo_ready repo_name repo_url pre.
Proof.
  intros Hsplit. pose proof (@split_nonempty _ _ _ Hsplit) as Ht.
  set (Q := fun (o : ctl pyval) (s' : State (W:=W)) =>
              forall pre ev post, log s' = (pre ++ ev :: post)%list ->
                is_helm "install" ev = true -> repo_ready repo_name repo_url pre).
  change (wp (run_tool exec json_loads str_strip expanduser
                (Install_helm_chart name chart namespace (Some r) values)) Q (start w)).
  unfold run_tool, tool_body, install_helm_chart, helm_repo_step, helm_run,
    _check_helm_availability, _check_tool_availability, check_output.
  rewrite Ht. cbn [fmt_opt]. rewrite Hsplit. cbn [length Nat.eqb negb nth].
  run_paths.
  all: subst Q; cbv beta; cbn [log].
  all: apply (@each_after_all
                (fun pre ev => is_helm "install" ev = true ->
                               repo_ready repo_name repo_url pre));
    cbn [each_after app];
    repeat match goal with |- _ /\ _ => split | |- True => exact I end;
    intros Hh; try (cbn in Hh; discriminate Hh);
    unfold repo_ready; split; eexists; cbn [In]; solve [eauto 12].
Qed.

Lemma upgrade_after_repo name chart namespace r repo_name repo_url values (w : W) :
  split "=" r = [repo_name; repo_url] ->
  forall pre ev post,
    events_of exec json_loads str_strip expanduser
      (Upgrade_helm_chart name chart namespace (Some r) values) w
      = (pre ++ ev :: post)%list ->
    is_helm "upgrade" ev = true -> repo_ready repo_name repo_url pre.
Proof.
  intros Hsplit. pose proof (@split_nonempty _ _ _ Hsplit) as Ht.
  set (Q := fun (o : ctl pyval) (s' : State (W:=W)) =>
              forall pre ev post, log s' = (pre ++ ev :: post)%list ->
                is_helm "upgrade" ev = true -> repo_ready repo_name repo_url pre).
  change (wp (run_tool exec json_loads str_strip expanduser
                (Upgrade_helm_chart name chart namespace (Some r) values)) Q (start w)).
  unfold run_tool, tool_body, upgrade_helm_chart, helm_repo_step, helm_run,
    _check_helm_availability, _check_tool_availability, check_output.
  rewrite Ht. cbn [fmt_opt]. rewrite Hsplit. cbn [length Nat.eqb negb nth].
  run_paths.
  all: subst Q; cbv beta; cbn [log].
  all: apply (@each_after_all
                (fun pre ev => is_helm "upgrade" ev = true ->
                               repo_ready repo_name repo_url pre));
    cbn [each_after app];
    repeat match goal with |- _ /\ _ => split | |- True => exact I end;
    intros Hh; try (cbn in Hh; discriminate Hh);
    unfold repo_ready; split; eexists; cbn [In]; solve [eauto 12].
Qed.

Lemma install_without_repo name chart namespace repo values (w : W) :
  truthy (of_opt repo) = false ->
  Forall (fun ev => is_helm "repo" ev = false)
    (events_of exec json_loads str_strip expanduser
       (Install_helm_chart name chart namespace repo values) w).
Proof.
  intros Ht.
  set (Q := fun (o : ctl pyval) (s' : State (W:=W)) =>
              Forall (fun ev => is_helm "repo" ev = false) (log s')).
  change (wp (run_tool exec json_loads str_strip expanduser
                (Install_helm_chart name chart namespace repo values)) Q (start w)).
  unfold run_tool, tool_body, install_helm_chart, helm_repo_step, helm_run,
    _check_helm_availability, _check_tool_availability, check_output.
  rewrite Ht.
  run_paths.
  all: subst Q; cbv beta; cbn [log].
  all: repeat (apply Forall_cons; [ reflexivity | ]); apply Forall_nil.
Qed.

Lemma upgrade_without_repo name chart namespace repo values (w : W) :
  truthy (of_opt repo) = false ->
  Forall (fun ev => is_helm "repo" ev = false)
    (events_of exec json_loads str_strip expanduser
       (Upgrade_helm_chart name chart namespace repo values) w).
Proof.
  intros Ht.
  set (Q := fun (o : ctl pyval) (s' : State (W:=W)) =>
              Forall (fun ev => is_helm "repo" ev = false) (log s')).
  change (wp (run_tool exec json_loads str_strip expanduser
                (Upgrade_helm_chart name chart namespace repo values)) Q (start w)).
  unfold run_tool, tool_body, upgrade_helm_chart, helm_repo_step, helm_run,
    _check_helm_availability, _check_tool_availability, check_output.
  rewrite Ht.
  run_paths.
  all: subst Q; cbv beta; cbn [log].
  all: repeat (apply Forall_cons; [ reflexivity | ]); apply Forall_nil.
Qed.

(** X7.  [install_helm_chart] and [upgrade_helm_chart] with a repository
    [name=url]: by the time [helm install] (or [helm upgrade]) runs,
    [helm repo add name url] and [helm repo update] have both succeeded;
    without a repository ([None] or the empty string) no [helm repo]
    command runs. *)
Theorem helm_repository_comes_first name chart namespace repo values (w : W) :
  let installed := events_of exec json_loads str_strip expanduser
                     (Install_helm_chart name chart namespace repo values) w in
  let upgraded := events_of exec json_loads str_strip expanduser
                    (Upgrade_helm_chart name chart namespace repo values) w in
  (forall r repo_name repo_url,
     repo = Some r -> split "=" r = [repo_name; repo_url] ->
     (forall pre ev post, installed = (pre ++ ev :: post)%list ->
        is_helm "install" ev = true -> repo_ready repo_name repo_url pre) /\
     (forall pre ev post, upgraded = (pre ++ ev :: post)%list ->
        is_helm "upgrade" ev = true -> repo_ready repo_name repo_url pre)) /\
  (truthy (of_opt repo) = false ->
   Forall (fun ev => is_helm "repo" ev = false) installed /\
   Forall (fun ev => is_helm "repo" ev = false) upgraded).
Proof.
  intros installed upgraded. split.
  - intros r repo_name repo_url -> Hsplit. split.
    + now apply install_after_repo.
    + now apply upgrade_after_repo.
  - intros Ht. split.
    + now apply install_without_repo.
    + now apply upgrade_without_repo.
Qed.

End HelmSteps.

(** *** Connecting to GKE *)



Section Gcloud.
Context {W : Type}.
Variable exec : Call -> W -> Reply * W.
Variable json_loads : string -> option pyval.
Variable str_strip : string -> string.
Variable expanduser : string -> string.


End Gcloud.

(** *** Scaling and deleting *)

Lemma assoc_set_same k x d : assoc k (set_assoc k x d) = Some x.
Proof.
  induction d as [|[k' v] d IH]; cbn.
  - now rewrite String.eqb_refl.
  - destruct (String.eqb k k') eqn:E; cbn; [now rewrite String.eqb_refl | now rewrite E].
Qed.

Lemma assoc_set_other k k' x d : k' <> k -> assoc k' (set_assoc k x d) = assoc k' d.
Proof.
  intros Hne. induction d as [|[k0 v] d IH]; cbn.
  - destruct (String.eqb k' k) eqn:E; [apply String.eqb_eq in E; contradiction | reflexivity].
  - destruct (String.eqb k k0) eqn:E; cbn.
    + apply String.eqb_eq in E. subst k0.
      destruct (String.eqb k' k) eqn:E'; [apply String.eqb_eq in E'; contradiction | reflexivity].
    + destruct (String.eqb k' k0); [reflexivity | exact IH].
Qed.

Lemma getattr_setattr_same v k x v' :
  setattr v k x = Ok v' -> getattr v' k = Ok x.
Proof.
  destruct v; try discriminate. cbn. intros [= <-]. cbn. now rewrite assoc_set_same.
Qed.

Lemma getattr_setattr_other v k x v' k' :
  setattr v k x = Ok v' -> k' <> k -> getattr v' k' = getattr v k'.
Proof.
  destruct v; try discriminate. cbn. intros [= <-] Hne. cbn.
  now rewrite assoc_set_other.
Qed.

Lemma with_replicas_sets d replicas body :
  with_replicas d replicas = Ok body ->
  spec_attr body "replicas" = Ok (PInt replicas) /\ same_but_replicas d body.
Proof.
  unfold with_replicas, same_but_replicas, spec_attr.
  destruct (getattr d "spec") as [spec|e] eqn:Hs; [|discriminate]. cbn [rbind].
  destruct (setattr spec "replicas" (PInt replicas)) as [spec'|e] eqn:Hs'; [|discriminate].
  cbn [rbind]. intros Hb.
  assert (Hbs : getattr body "spec" = Ok spec')
    by (eapply getattr_setattr_same; eassumption).
  rewrite Hbs. cbn [rbind].
  split; [eapply getattr_setattr_same; eassumption|]. split.
  - intros k Hk. eapply getattr_setattr_other; eassumption.
  - intros k Hk. try rewrite Hbs. try rewrite Hs. cbn [rbind].
    eapply getattr_setattr_other; eassumption.
Qed.

Section Workloads.
Context {W : Type}.
Variable exec : Call -> W -> Reply * W.
Variable json_loads : string -> option pyval.
Variable str_strip : string -> string.
Variable expanduser : string -> string.

(** X9.  [scale_deployment] sends no request but the read of the Deployment
    and the patch; the body of the patch is the Deployment it read with
    [spec.replicas] set to the number asked for and nothing else changed;
    and it returns ["success": True] only when the patch answered. *)
Theorem scale_deployment_patches_what_it_read (name : string) (replicas : Z)
    (namespace : string) (w : W) :
  let t := Scale_deployment name replicas namespace in
  let evs := events_of exec json_loads str_strip expanduser t w in
  let result := result_of exec json_loads str_strip expanduser t w in
  let read := read_deployment (Some name) (Some namespace) in
  (forall c r, In (c, r) evs -> is_api_request c = true ->
     c = read \/ exists body, c = patch_deployment name namespace body) /\
  (forall body r, In (patch_deployment name namespace body, r) evs ->
     exists d, In (read, Ans d) evs /\ with_replicas d replicas = Ok body /\
               spec_attr body "replicas" = Ok (PInt replicas) /\
               same_but_replicas d body) /\
  (forall d, result = Normal d -> is_success d ->
     exists body v, In (patch_deployment name namespace body, Ans v) evs).
Proof.
  intros t evs result read.
  set (Q := fun (o : ctl pyval) (s' : State (W:=W)) =>
    (forall c r, In (c, r) (log s') -> is_api_request c = true ->
       c = read \/ exists body, c = patch_deployment name namespace body) /\
    (forall body r, In (patch_deployment name namespace body, r) (log s') ->
       exists d, In (read, Ans d) (log s') /\ with_replicas d replicas = Ok body /\
                 spec_attr body "replicas" = Ok (PInt replicas) /\
                 same_but_replicas d body) /\
    (forall d, o = Normal d -> is_success d ->
       exists body v, In (patch_deployment name namespace body, Ans v) (log s'))).
  change (wp (run_tool exec json_loads str_strip expanduser t) Q (start w)).
  unfold t, run_tool, tool_body, scale_deployment, import_kubernetes,
    load_kube_config, kube.
  run_paths.
  all: subst Q read; cbv beta; cbn [log]; unfold patch_deployment, read_deployment;
    cbn [of_opt].
  all: split; [ intros c r Hin Hc; in_log Hin; try discriminate Hc;
                solve [ left; reflexivity | right; eexists; reflexivity ] | ].
  all: split; [ intros body r Hin; in_log Hin;
                (eexists; (split; [ cbn [In]; solve [eauto 8]
                                  | match goal with
                                    | H : _ = Ok ?b |- with_replicas _ _ = Ok ?b /\ _ =>
                                        split; [ exact H
                                               | eapply with_replicas_sets; exact H ]
                                    end ]))
              | intros d Hd Hs; inversion Hd; subst;
                first [ discriminate Hs
                      | eexists; eexists; cbn [In]; solve [eauto 8] ] ].
Qed.

(** X10.  [delete_resource] for a pod, a deployment or a service: the only
    request is the delete of that kind with the name and the namespace; the
    tool returns the 'deleted successfully' message when it answers and
    [str(e)] as the error when it raises, and it returns ["success": True]
    only when the request answered. *)
Theorem delete_resource_deletes_by_type (resource_type name namespace : string)
    (w : W) (c : Call) :
  delete_request resource_type name namespace = Some c ->
  let t := Delete_resource resource_type name namespace in
  let evs := events_of exec json_loads str_strip expanduser t w in
  let result := result_of exec json_loads str_strip expanduser t w in
  (forall c' r, In (c', r) evs -> is_api_request c' = true -> c' = c) /\
  (forall v, In (c, Ans v) evs ->
     result = Normal (success
                [("message", PStr (resource_type ++ " " ++ name
                                   ++ " deleted successfully"))])) /\
  (forall e, In (c, Throw e) evs -> result = Normal (failure (str e))) /\
  (forall d, result = Normal d -> is_success d -> exists v, In (c, Ans v) evs).
Proof.
  intros Hc t evs result.
  set (Q := fun (o : ctl pyval) (s' : State (W:=W)) =>
    (forall c' r, In (c', r) (log s') -> is_api_request c' = true -> c' = c) /\
    (forall v, In (c, Ans v) (log s') ->
       o = Normal (success
              [("message", PStr (resource_type ++ " " ++ name
                                 ++ " deleted successfully"))])) /\
    (forall e, In (c, Throw e) (log s') -> o = Normal (failure (str e))) /\
    (forall d, o = Normal d -> is_success d -> exists v, In (c, Ans v) (log s'))).
  change (wp (run_tool exec json_loads str_strip expanduser t) Q (start w)).
  unfold t, run_tool, tool_body, delete_resource, import_kubernetes,
    load_kube_config, kube.
  unfold delete_request in Hc.
  destruct (String.eqb resource_type "pod");
    [ | destruct (String.eqb resource_type "deployment");
        [ | destruct (String.eqb resource_type "service"); [ | discriminate Hc ] ] ];
    injection Hc as <-.
  all: run_paths.
  all: subst Q; cbv beta; cbn [log].
  all: split; [ intros c' r Hin Hq; in_log Hin; first [ discriminate Hq | reflexivity ] | ].
  all: split; [ intros v' Hin; in_log Hin; reflexivity | ].
  all: split; [ intros e' Hin; in_log Hin; reflexivity | ].
  all: intros d Hd Hs; inversion Hd; subst;
       first [ discriminate Hs | eexists; cbn [In]; solve [eauto 8] ].
Qed.

End Workloads.

(** *** Listings *)

Lemma mapM_rows A B (f : A -> res B) xs ys :
  mapM f xs = Ok ys -> Forall2 (fun x r => f x = Ok r) xs ys.
Proof.
  revert ys. induction xs as [|x xs IH]; intros ys; cbn.
  - intros [= <-]. constructor.
  - destruct (f x) as [y|e] eqn:Hx; [|discriminate].
    destruct (mapM f xs) as [ys'|e]; [|discriminate].
    intros [= <-]. constructor; [exact Hx | apply IH; reflexivity].
Qed.

Lemma mapM_all A B (f : A -> res B) xs x e :
  In x xs -> f x = Err e -> exists e', mapM f xs = Err e'.
Proof.
  induction xs as [|y xs IH]; cbn; [contradiction|].
  intros [->|Hin] Hf.
  - rewrite Hf. eauto.
  - destruct (f y); [|eauto]. destruct (IH Hin Hf) as [e' ->]. eauto.
Qed.

Lemma rows_listed f answer rows' :
  (let* items := getattr answer "items" in comprehension items f) = Ok rows' ->
  exists rows, rows' = PList rows /\ rows_of f answer rows.
Proof.
  unfold rows_of, comprehension.
  destruct (getattr answer "items") as [items|e] eqn:Hi; [|discriminate].
  cbn [rbind].
  destruct (py_iter items) as [xs|e] eqn:Hx; [|discriminate].
  destruct (mapM f xs) as [ys|e] eqn:Hm; [|discriminate].
  intros [= <-]. exists ys. split; [reflexivity|].
  exists items, xs. split; [reflexivity|]. split; [exact Hx|].
  now apply mapM_rows.
Qed.

Lemma rows_all_or_nothing f answer :
  row_missing f answer ->
  exists e, (let* items := getattr answer "items" in comprehension items f) = Err e.
Proof.
  intros (items & xs & x & e & Hi & Hx & Hin & Hf).
  unfold comprehension. rewrite Hi. cbn [rbind]. rewrite Hx.
  destruct (mapM_all f xs x Hin Hf) as [e' ->]. eauto.
Qed.

Section Listings.
Context {W : Type}.
Variable exec : Call -> W -> Reply * W.
Variable json_loads : string -> option pyval.
Variable str_strip : string -> string.
Variable expanduser : string -> string.

Ltac listed_leaf :=
  let Hin := fresh "Hin" in let Hq := fresh "Hq" in
  let Hd := fresh "Hd" in let Hs := fresh "Hs" in
  split;
  [ intros ? ? Hin Hq; in_log Hin; first [ discriminate Hq | reflexivity ]
  | split;
    [ intros ? Hin; in_log Hin;
      match goal with
      | H : _ = Ok ?a |- match ?x with Ok _ => _ | Err _ => _ end =>
          replace x with (Ok (A:=pyval) a) by (symmetry; exact H); reflexivity
      | H : _ = Err ?e |- match ?x with Ok _ => _ | Err _ => _ end =>
          replace x with (Err (A:=pyval) e) by (symmetry; exact H); reflexivity
      end
    | intros ? Hd Hs; inversion Hd; subst;
      first [ discriminate Hs | eexists; cbn [In]; solve [eauto 8] ] ] ].

Lemma tools_list (t : ToolCall) (l : Listing) (w : W) :
  listing t = Some l ->
  listed l (result_of exec json_loads str_strip expanduser t w)
           (events_of exec json_loads str_strip expanduser t w).
Proof.
  intros Hl.
  set (Q := fun (o : ctl pyval) (s' : State (W:=W)) => listed l o (log s')).
  change (wp (run_tool exec json_loads str_strip expanduser t) Q (start w)).
  destruct t; try discriminate Hl; injection Hl as <-;
    unfold run_tool, tool_body, get_pods, get_namespaces, get_services, get_nodes,
      get_configmaps, get_secrets, get_rbac_roles, get_cluster_roles, get_events,
      get_pod_events, get_deployments, import_kubernetes, load_kube_config, kube;
    run_paths.
  all: subst Q; cbv beta; cbn [log]; unfold listed, list_request;
    cbn [request row result_key];
    repeat match goal with
           | E : truthy (of_opt _) = _ |- _ => rewrite E
           | |- context [if truthy (of_opt ?n) then _ else _] =>
               destruct (truthy (of_opt n))
           end.
  all: listed_leaf.
Qed.

End Listings.

Lemma failure_not_success msg : ~ is_success (failure msg).
Proof. intros H. discriminate H. Qed.

Lemma secret_row_names_only secret r : secret_row secret = Ok r -> names_only r.
Proof.
  unfold secret_row, names_only.
  destruct (getattr secret "metadata") as [m|e]; [|discriminate]. cbn [rbind].
  destruct (getattr m "name") as [n|e]; [|discriminate]. cbn [rbind].
  destruct (getattr m "namespace") as [ns|e]; [|discriminate]. cbn [rbind].
  destruct (getattr secret "type") as [ty|e]; [|discriminate]. cbn [rbind].
  intros [= <-]. eauto.
Qed.

Lemma node_row_reported node r : node_row node = Ok r -> node_reported node r.
Proof.
  unfold node_row, node_reported, name_row, conditions_of, addresses_of.
  destruct (getattr node "metadata") as [m|e]; [|discriminate]. cbn [rbind].
  destruct (getattr m "name") as [n|e]; [|discriminate]. cbn [rbind].
  destruct (getattr node "status") as [st|e]; [|discriminate]. cbn [rbind].
  destruct (getattr st "conditions") as [conds|e]; [|discriminate]. cbn [rbind].
  destruct (truthy conds) eqn:Ht.
  - destruct (subscript_last conds) as [last|e] eqn:Hl; [|discriminate]. cbn [rbind].
    destruct (getattr last "type") as [ty|e] eqn:Hty; [|discriminate]. cbn [rbind].
    destruct (getattr st "addresses") as [addrs|e]; [|discriminate]. cbn [rbind].
    destruct (comprehension addrs _) as [addresses|e] eqn:Hc; [|discriminate].
    cbn [rbind]. intros [= <-].
    exists n, ty, conds, addrs, addresses. rewrite Ht. repeat split; eauto.
  - cbn [rbind].
    destruct (getattr st "addresses") as [addrs|e]; [|discriminate]. cbn [rbind].
    destruct (comprehension addrs _) as [addresses|e] eqn:Hc; [|discriminate].
    cbn [rbind]. intros [= <-].
    exists n, PNone, conds, addrs, addresses. rewrite Ht. repeat split; eauto.
Qed.

Lemma node_row_needs_addresses node :
  addresses_of node = Ok PNone -> exists e, node_row node = Err e.
Proof.
  unfold addresses_of, node_row.
  destruct (getattr node "metadata") as [m|e]; [|intros; eexists; reflexivity]. cbn [rbind].
  destruct (getattr m "name") as [n|e]; [|intros; eexists; reflexivity]. cbn [rbind].
  destruct (getattr node "status") as [st|e]; [|discriminate]. cbn [rbind].
  intros Ha.
  destruct (getattr st "conditions") as [conds|e]; [|intros; eexists; reflexivity]. cbn [rbind].
  destruct (if truthy conds then _ else _) as [status|e]; [|intros; eexists; reflexivity]. cbn [rbind].
  rewrite Ha. cbn. eexists; reflexivity.
Qed.

Lemma Forall2_impl_rows (P Q : pyval -> pyval -> Prop) xs rows :
  (forall x r, P x r -> Q x r) -> Forall2 P xs rows -> Forall2 Q xs rows.
Proof. intros H F. induction F; constructor; auto. Qed.

Lemma Forall2_right (P : pyval -> pyval -> Prop) (Q : pyval -> Prop) xs rows :
  (forall x r, P x r -> Q r) -> Forall2 P xs rows -> Forall Q rows.
Proof. intros H F. induction F; constructor; eauto. Qed.

Section Rows.
Context {W : Type}.
Variable exec : Call -> W -> Reply * W.
Variable json_loads : string -> option pyval.
Variable str_strip : string -> string.
Variable expanduser : string -> string.

Lemma listed_rows (t : ToolCall) (l : Listing) (w : W) (d : pyval) :
  listing t = Some l ->
  result_of exec json_loads str_strip expanduser t w = Normal d -> is_success d ->
  exists answer rows,
    In (request l, Ans answer) (events_of exec json_loads str_strip expanduser t w) /\
    d = success [(result_key l, PList rows)] /\
    rows_of (row l) answer rows.
Proof.
  intros Hl Hd Hs.
  destruct (tools_list exec json_loads str_strip expanduser t w Hl) as (_ & Hans & Hsucc).
  destruct (Hsucc d Hd Hs) as [answer Hin].
  specialize (Hans answer Hin).
  destruct (let* items := getattr answer "items" in comprehension items (row l))
    as [rows'|e] eqn:Hr.
  - destruct (rows_listed _ _ Hr) as (rows & -> & Hrows).
    exists answer, rows. split; [exact Hin|]. split; [congruence | exact Hrows].
  - exfalso. rewrite Hd in Hans. injection Hans as ->.
    exact (failure_not_success Hs).
Qed.

(** X11.  The eleven listing tools ([get_pods], [get_namespaces],
    [get_services], [get_nodes], [get_configmaps], [get_secrets],
    [get_rbac_roles], [get_cluster_roles], [get_events], [get_pod_events],
    [get_deployments]): the only request is the list request of the tool;
    a successful result holds, under the tool's key, one row for each item
    of the answer, in order; and when one item has no row (an attribute is
    missing) the whole call fails. *)
Theorem listing_tools_return_a_row_per_item (t : ToolCall) (l : Listing) (w : W) :
  listing t = Some l ->
  let evs := events_of exec json_loads str_strip expanduser t w in
  let result := result_of exec json_loads str_strip expanduser t w in
  (forall c r, In (c, r) evs -> is_api_request c = true -> c = request l) /\
  (forall d, result = Normal d -> is_success d ->
     exists answer rows,
       In (request l, Ans answer) evs /\
       d = success [(result_key l, PList rows)] /\
       rows_of (row l) answer rows) /\
  (forall answer, In (request l, Ans answer) evs -> row_missing (row l) answer ->
     exists d, result = Normal d /\ is_failure d).
Proof.
  intros Hl evs result.
  destruct (tools_list exec json_loads str_strip expanduser t w Hl) as (Hreq & Hans & _).
  split; [exact Hreq|]. split.
  - intros d Hd Hs. exact (listed_rows t w Hl Hd Hs).
  - intros answer Hin Hm. specialize (Hans answer Hin).
    destruct (rows_all_or_nothing Hm) as [e He]. rewrite He in Hans.
    eexists. split; [exact Hans | apply failure_is_failure].
Qed.

(** X12.  A successful [get_secrets] returns, besides ["success"], the
    list ["secrets"] only, and each row of it holds a name, a namespace and
    a type: never the data of a Secret. *)
Theorem get_secrets_returns_no_data (namespace : option string) (w : W) (d : pyval) :
  result_of exec json_loads str_strip expanduser (Get_secrets namespace) w = Normal d ->
  is_success d ->
  exists rows, d = success [("secrets", PList rows)] /\ Forall names_only rows.
Proof.
  intros Hd Hs.
  destruct (@listed_rows (Get_secrets namespace) _ w d eq_refl Hd Hs)
    as (answer & rows & _ & -> & (items & xs & _ & _ & Hrows)).
  exists rows. split; [reflexivity|].
  cbn [row] in Hrows.
  eapply Forall2_right; [|exact Hrows]. intros x r. apply secret_row_names_only.
Qed.

(** X13.  The eight tools that take an optional namespace treat the empty
    string as no namespace: the call does what the call without a
    namespace does, on all namespaces. *)
Theorem empty_namespace_means_all (tool : option string -> ToolCall) (w : W) :
  In tool namespaced_tools ->
  run exec json_loads str_strip expanduser (tool (Some "")) w
    = run exec json_loads str_strip expanduser (tool None) w.
Proof.
  intros Hin. unfold namespaced_tools in Hin. cbn [In] in Hin.
  repeat (destruct Hin as [<-|Hin]; [reflexivity|]). contradiction.
Qed.

(** X14.  [get_nodes]: the row of a node holds its name, as status the type
    of the last of its conditions ([None] when it has none) and the
    addresses; a node whose [status.addresses] is [None] makes the whole
    call fail. *)
Theorem get_nodes_reports_the_last_condition (w : W) :
  let evs := events_of exec json_loads str_strip expanduser Get_nodes w in
  let result := result_of exec json_loads str_strip expanduser Get_nodes w in
  let list_node := Kube "CoreV1Api" "list_node" [] [] in
  (forall d, result = Normal d -> is_success d ->
     exists answer items nodes rows,
       In (list_node, Ans answer) evs /\
       getattr answer "items" = Ok items /\ py_iter items = Ok nodes /\
       d = success [("nodes", PList rows)] /\
       Forall2 node_reported nodes rows) /\
  (forall answer items nodes node,
     In (list_node, Ans answer) evs ->
     getattr answer "items" = Ok items -> py_iter items = Ok nodes ->
     In node nodes -> addresses_of node = Ok PNone ->
     exists d, result = Normal d /\ is_failure d).
Proof.
  intros evs result list_node. split.
  - intros d Hd Hs.
    destruct (@listed_rows Get_nodes _ w d eq_refl Hd Hs)
      as (answer & rows & Hin & -> & (items & xs & Hi & Hx & Hrows)).
    exists answer, items, xs, rows. repeat (split; [assumption || reflexivity|]).
    cbn [row] in Hrows. eapply Forall2_impl_rows; [|exact Hrows].
    intros x r. apply node_row_reported.
  - intros answer items nodes node Hin Hi Hx Hn Ha.
    destruct (tools_list exec json_loads str_strip expanduser Get_nodes w eq_refl)
      as (_ & Hans & _).
    specialize (Hans answer Hin). cbn [row request result_key] in Hans.
    destruct (node_row_needs_addresses node Ha) as [e He].
    assert (Hm : row_missing node_row answer).
    { exists items, nodes, node, e. auto. }
    destruct (rows_all_or_nothing Hm) as [e' He']. rewrite He' in Hans.
    eexists. split; [exact Hans | apply failure_is_failure].
Qed.

End Rows.

(** *** A pod, a new Deployment, and cleaning up *)

Lemma rows_mapM A B (f : A -> res B) xs ys :
  Forall2 (fun x r => f x = Ok r) xs ys -> mapM f xs = Ok ys.
Proof.
  induction 1 as [|x y xs ys Hx _ IH]; cbn; [reflexivity|]. now rewrite Hx, IH.
Qed.

Section Health.
Context {W : Type}.
Variable exec : Call -> W -> Reply * W.
Variable json_loads : string -> option pyval.
Variable str_strip : string -> string.
Variable expanduser : string -> string.

(** X15.  [check_pod_health], once the pod is read: it returns the phase and
    the types of the conditions, in order, and an empty list when the pod
    has no conditions ([None] or empty). *)
Theorem check_pod_health_lists_condition_types (pod_name namespace : string) (w : W) :
  let t := Check_pod_health pod_name namespace in
  let evs := events_of exec json_loads str_strip expanduser t w in
  let result := result_of exec json_loads str_strip expanduser t w in
  forall pod status phase conds,
    In (read_pod pod_name namespace, Ans pod) evs ->
    getattr pod "status" = Ok status ->
    getattr status "phase" = Ok phase ->
    getattr status "conditions" = Ok conds ->
    (truthy conds = false ->
     result = Normal (success [("phase", phase); ("conditions", PList [])])) /\
    (forall cs types,
       truthy conds = true -> py_iter conds = Ok cs ->
       Forall2 (fun c ty => getattr c "type" = Ok ty) cs types ->
       result = Normal (success [("phase", phase); ("conditions", PList types)])).
Proof.
  intros t evs result pod status phase conds.
  set (Q := fun (o : ctl pyval) (s' : State (W:=W)) =>
    In (read_pod pod_name namespace, Ans pod) (log s') ->
    getattr pod "status" = Ok status ->
    getattr status "phase" = Ok phase ->
    getattr status "conditions" = Ok conds ->
    (truthy conds = false ->
     o = Normal (success [("phase", phase); ("conditions", PList [])])) /\
    (forall cs types,
       truthy conds = true -> py_iter conds = Ok cs ->
       Forall2 (fun c ty => getattr c "type" = Ok ty) cs types ->
       o = Normal (success [("phase", phase); ("conditions", PList types)]))).
  change (wp (run_tool exec json_loads str_strip expanduser t) Q (start w)).
  unfold t, run_tool, tool_body, check_pod_health, import_kubernetes,
    load_kube_config, kube.
  run_paths.
  all: subst Q; cbv beta; cbn [log]; unfold read_pod.
  all: intros Hin Hst Hph Hco; in_log Hin.
  all: match goal with
       | H : _ = _ |- _ =>
           rewrite Hst in H; cbn [rbind] in H; rewrite Hph in H; cbn [rbind] in H;
           rewrite Hco in H; cbn [rbind] in H
       end.
  all: split;
    [ intros Ht; rewrite Ht in *;
      match goal with H : _ = _ |- _ => cbn in H; inversion H; reflexivity end
    | intros cs types Ht Hcs Hty; rewrite Ht in *;
      match goal with
      | H : _ = _ |- _ =>
          unfold comprehension in H; rewrite Hcs in H;
          rewrite (rows_mapM _ Hty) in H; cbn in H; inversion H; reflexivity
      end ].
Qed.

(** X16.  [create_deployment] sends one kind of request, the create of a
    Deployment in the namespace whose selector and pod template both carry
    the label [app=<name>] (so that [expose_deployment_with_service]
    without labels settles on it), with the replicas asked for and one
    container [<name>] running the image; it returns ["success": True] only
    when the request answered, and [str(e)] when it raised. *)
Theorem create_deployment_selects_its_pods (name image : string) (replicas : Z)
    (namespace : string) (w : W) :
  let t := Create_deployment name image replicas namespace in
  let evs := events_of exec json_loads str_strip expanduser t w in
  let result := result_of exec json_loads str_strip expanduser t w in
  let labels := PDict [("app", PStr name)] in
  (forall c r, In (c, r) evs -> is_api_request c = true ->
     exists body,
       c = create_deployment_request namespace body /\
       match_labels body = Ok labels /\
       template_labels body = Ok labels /\
       chosen_selector None body = Some labels /\
       spec_attr body "replicas" = Ok (PInt replicas) /\
       containers_of body
         = Ok (PList [PObj "V1Container" [("name", PStr name);
                                          ("image", PStr image)]])) /\
  (forall d, result = Normal d -> is_success d ->
     exists body v, In (create_deployment_request namespace body, Ans v) evs) /\
  (forall body e, In (create_deployment_request namespace body, Throw e) evs ->
     result = Normal (failure (str e))).
Proof.
  intros t evs result labels.
  set (Q := fun (o : ctl pyval) (s' : State (W:=W)) =>
    (forall c r, In (c, r) (log s') -> is_api_request c = true ->
       exists body,
         c = create_deployment_request namespace body /\
         match_labels body = Ok labels /\
         template_labels body = Ok labels /\
         chosen_selector None body = Some labels /\
         spec_attr body "replicas" = Ok (PInt replicas) /\
         containers_of body
           = Ok (PList [PObj "V1Container" [("name", PStr name);
                                            ("image", PStr image)]])) /\
    (forall d, o = Normal d -> is_success d ->
       exists body v, In (create_deployment_request namespace body, Ans v) (log s')) /\
    (forall body e, In (create_deployment_request namespace body, Throw e) (log s') ->
       o = Normal (failure (str e)))).
  change (wp (run_tool exec json_loads str_strip expanduser t) Q (start w)).
  unfold t, run_tool, tool_body, create_deployment, import_kubernetes,
    load_kube_config, kube.
  run_paths.
  all: subst Q labels; cbv beta; cbn [log]; unfold create_deployment_request.
  all: split; [ intros c r Hin Hq; in_log Hin; try discriminate Hq;
                (eexists; repeat split) | ].
  all: split; [ intros d Hd Hs; inversion Hd; subst;
                first [ discriminate Hs | eexists; eexists; cbn [In]; solve [eauto 8] ]
              | intros body e' Hin; in_log Hin; reflexivity ].
Qed.

Lemma install_reports_cleanup name chart namespace repo values (w : W) :
  cleanup_reported
    (result_of exec json_loads str_strip expanduser
       (Install_helm_chart name chart namespace repo values) w)
    (events_of exec json_loads str_strip expanduser
       (Install_helm_chart name chart namespace repo values) w).
Proof.
  set (Q := fun (o : ctl pyval) (s' : State (W:=W)) => cleanup_reported o (log s')).
  change (wp (run_tool exec json_loads str_strip expanduser
                (Install_helm_chart name chart namespace repo values)) Q (start w)).
  unfold run_tool, tool_body, install_helm_chart, helm_repo_step, helm_run,
    _check_helm_availability, _check_tool_availability, check_output.
  run_paths.
  all: subst Q; cbv beta; cbn [log]; unfold cleanup_reported.
  all: intros c e' Hc Hin; in_log Hin; first [ discriminate Hc | reflexivity ].
Qed.

Lemma upgrade_reports_cleanup name chart namespace repo values (w : W) :
  cleanup_reported
    (result_of exec json_loads str_strip expanduser
       (Upgrade_helm_chart name chart namespace repo values) w)
    (events_of exec json_loads str_strip expanduser
       (Upgrade_helm_chart name chart namespace repo values) w).
Proof.
  set (Q := fun (o : ctl pyval) (s' : State (W:=W)) => cleanup_reported o (log s')).
  change (wp (run_tool exec json_loads str_strip expanduser
                (Upgrade_helm_chart name chart namespace repo values)) Q (start w)).
  unfold run_tool, tool_body, upgrade_helm_chart, helm_repo_step, helm_run,
    _check_helm_availability, _check_tool_availability, check_output.
  run_paths.
  all: subst Q; cbv beta; cbn [log]; unfold cleanup_reported.
  all: intros c e' Hc Hin; in_log Hin; first [ discriminate Hc | reflexivity ].
Qed.

(** X17.  [install_helm_chart] and [upgrade_helm_chart]: when looking for
    the values file or removing it raises, the tool returns
    [Unexpected error: <str(e)>], whatever the [helm] command had come
    to. *)
Theorem helm_cleanup_failure_is_the_result name chart namespace repo values (w : W) :
  cleanup_reported
    (result_of exec json_loads str_strip expanduser
       (Install_helm_chart name chart namespace repo values) w)
    (events_of exec json_loads str_strip expanduser
       (Install_helm_chart name chart namespace repo values) w) /\
  cleanup_reported
    (result_of exec json_loads str_strip expanduser
       (Upgrade_helm_chart name chart namespace repo values) w)
    (events_of exec json_loads str_strip expanduser
       (Upgrade_helm_chart name chart namespace repo values) w).
Proof.
  split; [ apply install_reports_cleanup | apply upgrade_reports_cleanup ].
Qed.

End Health.

(* ------------------------------------------------------------------ *)
(** ** Runs in the sample worlds *)

(** C1, as stated, fails: the JSON forms of [kubectl top] raise
    [CalledProcessError], and [get_resource_usage] still returns
    ["success": True]. *)
Lemma get_resource_usage_succeeds_after_a_raise :
  In (CheckOutput ["kubectl"; "top"; "pods"; "--no-headers"; "-n"; "default"; "-o"; "json"],
      Throw (CalledProcessError "error: unknown shorthand flag: 'o' in -o"
               "Command returned non-zero exit status 1."))
     (events_of (scripted no_json_top) no_json same same usage_of_default tt) /\
  result_of (scripted no_json_top) no_json same same usage_of_default tt
    = Normal (PDict
        [("success", PBool true);
         ("pod_usage", PDict [("text_output", PStr "NAME CPU(cores) MEMORY(bytes)")]);
         ("node_usage", PDict [("text_output", PStr "NAME CPU(cores) MEMORY(bytes)")])]).
Proof. split; [vm_compute; tauto | reflexivity]. Qed.

(** C1 (as amended) on that run: the exceptions were recovered from, and
    the result is a success. *)
Lemma exceptions_become_failures_witness :
  exists d,
    result_of (scripted no_json_top) no_json same same usage_of_default tt = Normal d /\
    (is_success d \/ is_failure d) /\
    (existsb unrecovered
       (events_of (scripted no_json_top) no_json same same usage_of_default tt) = true ->
     is_failure d).
Proof.
  apply (exceptions_become_failures (scripted no_json_top) no_json same same
           usage_of_default tt).
  simpl. eexists. eexists. reflexivity.
Defined.

(** C2, as stated, fails: one call of [install_helm_chart] runs five
    commands. *)
Lemma install_helm_chart_runs_five_commands :
  events_of (scripted all_fine) no_json same same install_nginx tt
    = [(Which "helm", Ans (PStr "/usr/local/bin/helm"));
       (CheckOutput ["helm"; "version"], Ans (PStr "ok"));
       (CheckOutput ["helm"; "repo"; "add"; "bitnami";
                     "https://charts.bitnami.com/bitnami"], Ans (PStr "ok"));
       (CheckOutput ["helm"; "repo"; "update"], Ans (PStr "ok"));
       (CheckOutput ["kubectl"; "get"; "namespace"; "apps"], Ans (PStr "ok"));
       (CheckOutput ["helm"; "install"; "web"; "bitnami/nginx"; "-n"; "apps"],
        Ans (PStr "ok"))] /\
  requests (events_of (scripted all_fine) no_json same same install_nginx tt) = 5.
Proof. split; reflexivity. Qed.

(** C6, as stated, fails: [port_forward] returns while the command it
    started is still running. *)
Lemma port_forward_returns_while_running :
  result_of (scripted all_fine) no_json same same port_forward_web tt
    = Normal (PDict
        [("success", PBool true);
         ("message", PStr "Port forwarding started: localhost:8080 -> web-0:80");
         ("process_pid", PInt 4242)]) /\
  left_running (scripted all_fine) no_json same same port_forward_web tt
    = [["kubectl"; "port-forward"; "pod/web-0"; "8080:80"; "-n"; "default"]].
Proof. split; reflexivity. Qed.

(** C6 (as amended) for [install_helm_chart]: no command is left
    running. *)
Lemma tools_wait_for_their_commands_witness :
  left_running (scripted all_fine) no_json same same install_nginx tt = [].
Proof.
  apply (tools_wait_for_their_commands (scripted all_fine) no_json same same
           install_nginx tt).
  reflexivity.
Defined.

(** The sample server suits the body of [expose_web]. *)
Lemma web_server_fit : server_fit accept_with_ip replaced web_service_body.
Proof.
  split.
  - split; [reflexivity | eexists; reflexivity].
  - intros o _. split; [reflexivity | eexists; reflexivity].
  - reflexivity.
  - reflexivity.
Defined.

(** C4 on the sample cluster: the first call creates [web-svc], the second
    patches it and changes nothing. *)
Lemma expose_is_idempotent_create_or_patch_witness :
  let server := api_server accept_with_ip replaced in
  let once := world_after server no_json same same expose_web web_cluster in
  (exists d, result_of server no_json same same expose_web web_cluster = Normal d /\
             is_success d) /\
  writes (events_of server no_json same same expose_web web_cluster)
    = [create_service "default" web_service_body] /\
  (exists d, result_of server no_json same same expose_web once = Normal d /\
             is_success d) /\
  writes (events_of server no_json same same expose_web once)
    = [patch_service "web-svc" "default" web_service_body] /\
  world_after server no_json same same expose_web once = once /\
  find_object ("default", "web-svc") (services once)
    = Some (accept_with_ip web_service_body).
Proof.
  apply (@expose_is_idempotent_create_or_patch no_json same same accept_with_ip replaced
           "web" "web-svc" "default" (Some 8080%Z) "TCP" (Some "ClusterIP") None None
           web_cluster web_deployment (PDict [("app", PStr "web")]) web_service_body).
  - reflexivity.
  - reflexivity.
  - reflexivity.
  - exact web_server_fit.
  - intros o H. discriminate H.
Defined.

(** C8 (as amended) for a ConfigMap when every call succeeds. *)
Lemma delete_resource_rejects_other_types_witness :
  no_api_request (events_of (scripted all_fine) no_json same same delete_configmap tt) /\
  (exists d, result_of (scripted all_fine) no_json same same delete_configmap tt = Normal d
             /\ is_failure d) /\
  (forall v1 v2 rest,
     events_of (scripted all_fine) no_json same same delete_configmap tt
       = (ImportKubernetes, Ans v1) :: (LoadKubeConfig, Ans v2) :: rest ->
     rest = [] /\
     result_of (scripted all_fine) no_json same same delete_configmap tt
       = Normal (failure ("Unsupported resource type: " ++ "configmap"))).
Proof.
  apply (@delete_resource_rejects_other_types unit (scripted all_fine) no_json same same
           "configmap" "settings" "default" tt); discriminate.
Defined.

(** C8, as stated, fails: without a kubeconfig the error of
    [delete_resource] for a ConfigMap is that of [load_kube_config], not
    [Unsupported resource type]. *)
Lemma delete_resource_reports_the_kubeconfig_error :
  result_of (scripted no_kubeconfig) no_json same same delete_configmap tt
    = Normal (failure "Invalid kube-config file. No configuration found.") /\
  events_of (scripted no_kubeconfig) no_json same same delete_configmap tt
    = [(ImportKubernetes, Ans (PStr "ok"));
       (LoadKubeConfig,
        Throw (OtherException "Invalid kube-config file. No configuration found."))].
Proof. split; reflexivity. Qed.

(** C9, as stated, fails: [install_helm_chart] has run [helm version] by
    the time it rejects the repository argument. *)
Lemma install_helm_chart_checks_helm_before_the_repo :
  result_of (scripted all_fine) no_json same same install_without_url tt
    = Normal (failure "Repository format should be 'repo_name=repo_url'") /\
  events_of (scripted all_fine) no_json same same install_without_url tt
    = [(Which "helm", Ans (PStr "/usr/local/bin/helm"));
       (CheckOutput ["helm"; "version"], Ans (PStr "ok"))].
Proof. split; vm_compute; reflexivity. Qed.



(** C9 (as amended) with [helm] at hand: a repository without ['='] is
    rejected right after the check, and [bitnami=<url>] makes the chart
    [bitnami/nginx]. *)
Lemma helm_repo_argument_witness :
  run (scripted all_fine) no_json same same install_without_url tt
    = (Normal (failure "Repository format should be 'repo_name=repo_url'"),
       mkState tt [(Which "helm", Ans (PStr "/usr/local/bin/helm"));
                   (CheckOutput ["helm"; "version"], Ans (PStr "ok"))] []) /\
  prefixed "install" "bitnami" "nginx"
    (events_of (scripted all_fine) no_json same same install_nginx tt).
Proof.
  split.
  - refine (proj1 (proj1 (@helm_repo_argument unit (scripted all_fine) no_json same same
                            "web" "nginx" "apps" "bitnami" None tt)
                     _ _ (PBool true) _ _ _)).
    + discriminate.
    + vm_compute. discriminate.
    + reflexivity.
    + reflexivity.
  - refine (proj1 (proj2 (@helm_repo_argument unit (scripted all_fine) no_json same same
                            "web" "nginx" "apps"
                            "bitnami=https://charts.bitnami.com/bitnami" None tt)
                     "bitnami" "https://charts.bitnami.com/bitnami" _ _)).
    + reflexivity.
    + reflexivity.
Defined.


(** X1 for [get_namespaces] when every call succeeds. *)
Lemma api_requests_follow_the_kubeconfig_witness :
  configured [(ImportKubernetes, Ans (PStr "ok")); (LoadKubeConfig, Ans (PStr "ok"))].
Proof.
  apply (@api_requests_follow_the_kubeconfig unit (scripted all_fine) no_json same same
           Get_namespaces tt
           [(ImportKubernetes, Ans (PStr "ok")); (LoadKubeConfig, Ans (PStr "ok"))]
           (Kube "CoreV1Api" "list_namespace" [] [], Ans (PStr "ok")) []);
    reflexivity.
Defined.

(** X4 for [install_helm_chart] when [helm] is not on the PATH. *)
Lemma tools_stop_when_the_program_is_missing_witness :
  run (scripted nothing_installed) no_json same same install_nginx tt
    = (Normal (failure "Helm is not available on this system"),
       mkState tt [(Which "helm", Ans PNone)] []).
Proof.
  apply (@tools_stop_when_the_program_is_missing unit (scripted nothing_installed)
           no_json same same install_nginx "helm" tt (PBool false)); reflexivity.
Defined.

(** X5 when neither program is on the PATH: both are looked for. *)
Lemma check_dependencies_checks_both_witness :
  call_function (_check_dependencies (scripted nothing_installed)) (start tt)
    = (Normal (PBool false),
       mkState tt [(Which "kubectl", Ans PNone); (Which "helm", Ans PNone)] []).
Proof.
  apply (@check_dependencies_checks_both unit (scripted nothing_installed) tt
           (PBool false) (PBool false)
           (mkState tt [(Which "kubectl", Ans PNone)] [])); reflexivity.
Defined.

(** X10 for a pod when every call succeeds. *)
Lemma delete_resource_deletes_by_type_witness :
  result_of (scripted all_fine) no_json same same
    (Delete_resource "pod" "web-0" "default") tt
    = Normal (success [("message", PStr "pod web-0 deleted successfully")]).
Proof.
  refine (proj1 (proj2 (@delete_resource_deletes_by_type unit (scripted all_fine)
                          no_json same same "pod" "web-0" "default" tt _ eq_refl))
            (PStr "ok") _).
  right. right. left. reflexivity.
Defined.

(** X11 for [get_secrets] on a cluster with one Secret. *)
Lemma listing_tools_return_a_row_per_item_witness :
  exists answer rows,
    In (Kube "CoreV1Api" "list_secret_for_all_namespaces" [] [], Ans answer)
       (events_of (scripted (kube_answers "list_secret_for_all_namespaces"
                               a_secret_list))
          no_json same same (Get_secrets None) tt) /\
    success [("secrets", PList [PDict [("name", PStr "db-password");
                                       ("namespace", PStr "default");
                                       ("type", PStr "Opaque")]])]
      = success [("secrets", PList rows)] /\
    rows_of secret_row answer rows.
Proof.
  refine (proj1 (proj2 (@listing_tools_return_a_row_per_item unit
                          (scripted (kube_answers "list_secret_for_all_namespaces"
                                       a_secret_list))
                          no_json same same (Get_secrets None) _ tt eq_refl))
            _ eq_refl eq_refl).
Defined.

(** X12 on that cluster: the row holds no data. *)
Lemma get_secrets_returns_no_data_witness :
  exists rows,
    success [("secrets", PList [PDict [("name", PStr "db-password");
                                       ("namespace", PStr "default");
                                       ("type", PStr "Opaque")]])]
      = success [("secrets", PList rows)] /\
    Forall names_only rows.
Proof.
  apply (@get_secrets_returns_no_data unit
           (scripted (kube_answers "list_secret_for_all_namespaces" a_secret_list))
           no_json same same None tt); reflexivity.
Defined.

(** X13 for [get_secrets]. *)
Lemma empty_namespace_means_all_witness :
  run (scripted all_fine) no_json same same (Get_secrets (Some "")) tt
    = run (scripted all_fine) no_json same same (Get_secrets None) tt.
Proof.
  apply (@empty_namespace_means_all unit (scripted all_fine) no_json same same
           Get_secrets tt).
  cbn. tauto.
Defined.

(** X15 for a running pod with two conditions. *)
Lemma check_pod_health_lists_condition_types_witness :
  result_of (scripted (kube_answers "read_namespaced_pod" a_pod)) no_json same same
    (Check_pod_health "web-0" "default") tt
    = Normal (success [("phase", PStr "Running");
                       ("conditions", PList [PStr "Initialized"; PStr "Ready"])]).
Proof.
  refine (proj2 (@check_pod_health_lists_condition_types unit
                   (scripted (kube_answers "read_namespaced_pod" a_pod))
                   no_json same same "web-0" "default" tt a_pod _ _ _ _ eq_refl eq_refl
                   eq_refl)
            _ [PStr "Initialized"; PStr "Ready"] eq_refl eq_refl _).
  - right. right. left. reflexivity.
  - repeat constructor.
Defined.

(** X17 when the values file cannot be removed: [helm install] succeeded
    and the tool reports the failure of the removal. *)
Lemma helm_cleanup_failure_is_the_result_witness :
  In (CheckOutput ["helm"; "install"; "web"; "nginx"; "-n"; "apps"; "-f";
                   "/tmp/tmpab12"], Ans (PStr "ok"))
     (events_of (scripted unlink_fails) no_json same same install_with_values tt) /\
  result_of (scripted unlink_fails) no_json same same install_with_values tt
    = Normal (failure ("Unexpected error: "
                       ++ "[Errno 13] Permission denied: '/tmp/tmpab12'")).
Proof.
  split.
  - vm_compute. tauto.
  - refine (proj1 (@helm_cleanup_failure_is_the_result unit (scripted unlink_fails)
                     no_json same same "web" "nginx" "apps" None
                     (Some [("replicaCount", PInt 2)]) tt)
              (Unlink (PStr "/tmp/tmpab12"))
              (OSError "[Errno 13] Permission denied: '/tmp/tmpab12'") eq_refl _).
    vm_compute. tauto.
Defined.

(** X6 with values: [helm install] runs with the file written for them. *)
Lemma helm_values_file_witness :
  exists chart f,
    In (DumpValuesFile (PDict [("replicaCount", PInt 2)]), Ans (PStr f))
       [(Which "helm", Ans (PStr "/usr/local/bin/helm"));
        (CheckOutput ["helm"; "version"], Ans (PStr "ok"));
        (CheckOutput ["kubectl"; "get"; "namespace"; "apps"], Ans (PStr "ok"));
        (DumpValuesFile (PDict [("replicaCount", PInt 2)]), Ans (PStr "/tmp/tmpab12"))] /\
    CheckOutput ["helm"; "install"; "web"; "nginx"; "-n"; "apps"; "-f"; "/tmp/tmpab12"]
      = CheckOutput ["helm"; "install"; "web"; chart; "-n"; "apps"; "-f"; f].
Proof.
  destruct (proj1 (proj1 (proj2
              (@helm_values_file unit (scripted unlink_fails) no_json same same
                 "web" "nginx" "apps" None (Some [("replicaCount", PInt 2)]) tt))
              [(Which "helm", Ans (PStr "/usr/local/bin/helm"));
               (CheckOutput ["helm"; "version"], Ans (PStr "ok"));
               (CheckOutput ["kubectl"; "get"; "namespace"; "apps"], Ans (PStr "ok"));
               (DumpValuesFile (PDict [("replicaCount", PInt 2)]),
                Ans (PStr "/tmp/tmpab12"))]
              (CheckOutput ["helm"; "install"; "web"; "nginx"; "-n"; "apps"; "-f";
                            "/tmp/tmpab12"], Ans (PStr "ok"))
              _ eq_refl) eq_refl) as (chart & f & Hin & Hev & _).
  exists chart, f. split; [exact Hin | exact Hev].
Defined.
